(** * CakeDeFi to kryptosekken converter: a shallow embedding

    The development follows the Python sources module by module:
    [constants.py], [models.py], [operation_mapper.py],
    [currency_converter.py], [transaction_grouper.py], [balance_tracker.py],
    the balance and structure checks of [kryptosekken_validator.py], the
    checks and the yearly split of [kryptosekken_formatter.py], and the
    order check and the income totals of [main_processor.py].

    Conventions of the embedding.
    - A Python [Decimal] is a coefficient and an exponent (its value is
      [coef * 10 ^ dexp]); arithmetic keeps the exponent Python keeps.  The
      default context precision of 28 significant digits is assumed not to
      be exceeded, so that addition, subtraction and multiplication are the
      exact operations; negative zero is identified with zero (both compare
      equal, are falsy and are negligible in the source).
    - A [datetime] is a wall-clock reading in microseconds (the resolution
      of Python's datetime) together with its UTC offset (0 for a naive
      value, which the grouper treats as UTC).  Lists that mix naive and
      aware values, on which Python's comparison raises, are not modelled.
    - A Python [dict] whose iteration order is observed is an association
      list in insertion order; a dict only used as a mapping is a [gmap].
    - A raised exception is the [None] of an [option]. *)

From Stdlib Require Import ZArith QArith Qabs Qpower Lia String Ascii List.
From Stdlib Require Import DecimalString DecimalN.
From Stdlib Require Import Sorting.Permutation Sorting.Sorted.
From stdpp Require Import base gmap strings list.

Import ListNotations.
Local Open Scope string_scope.
Local Open Scope list_scope.
Local Open Scope Z_scope.

(** ** Python's [Decimal] *)

Record Decimal := mkDec { coef : Z; dexp : Z }.

Definition dec_eq_dec (a b : Decimal) : {a = b} + {a <> b}.
Proof. decide equality; apply Z.eq_dec. Defined.

#[global] Instance Decimal_eq_dec : EqDecision Decimal := dec_eq_dec.

(** The coefficient of [d] when it is rewritten with exponent [e <= dexp d]. *)
Definition align (e : Z) (d : Decimal) : Z := coef d * 10 ^ (dexp d - e).

Definition Dzero : Decimal := mkDec 0 0.

Definition Dadd (a b : Decimal) : Decimal :=
  let e := Z.min (dexp a) (dexp b) in
  mkDec (align e a + align e b) e.

Definition Dneg (a : Decimal) : Decimal := mkDec (- coef a) (dexp a).

Definition Dsub (a b : Decimal) : Decimal := Dadd a (Dneg b).

Definition Dabs (a : Decimal) : Decimal := mkDec (Z.abs (coef a)) (dexp a).

Definition Dmul (a b : Decimal) : Decimal :=
  mkDec (coef a * coef b) (dexp a + dexp b).

Definition Dcompare (a b : Decimal) : comparison :=
  let e := Z.min (dexp a) (dexp b) in
  Z.compare (align e a) (align e b).

Definition Dltb (a b : Decimal) : bool :=
  match Dcompare a b with Lt => true | _ => false end.

Definition Dgtb (a b : Decimal) : bool := Dltb b a.

Definition Deqb (a b : Decimal) : bool :=
  match Dcompare a b with Eq => true | _ => false end.

Definition is_zero (a : Decimal) : bool := coef a =? 0.

(** [bool(d)]: a Decimal is truthy when it is not zero. *)
Definition Dtruthy (a : Decimal) : bool := negb (is_zero a).

(** [sum(...)] over Decimals starts from the integer 0. *)
Definition Dsum (l : list Decimal) : Decimal := fold_left Dadd l Dzero.

(** Rounding of [n / d] ([d > 0]) to the nearest integer, ties to even:
    the context's ROUND_HALF_EVEN. *)
Definition round_half_even (n d : Z) : Z :=
  let q := Z.abs n / d in
  let r := Z.abs n mod d in
  let q' := if 2 * r <? d then q
            else if d <? 2 * r then q + 1
            else if Z.even q then q else q + 1 in
  Z.sgn n * q'.

(** [a.quantize(p)]: the value of [a] with the exponent of [p]. *)
Definition quantize (a p : Decimal) : Decimal :=
  let e := dexp p in
  if e <=? dexp a then mkDec (align e a) e
  else mkDec (round_half_even (coef a) (10 ^ (e - dexp a))) e.

(** The rational number a Decimal denotes. *)
Definition DtoQ (d : Decimal) : Q := (inject_Z (coef d) * (10 # 1) ^ dexp d)%Q.

(** ** constants.py *)

Definition BALANCE_TOLERANCE : Decimal := mkDec 1 (-6).
Definition NEGLIGIBLE_AMOUNT : Decimal := mkDec 1 (-8).
Definition LOOKUP_RANGE_DAYS : Z := 14.
Definition FALLBACK_USD_NOK_RATE : Decimal := mkDec 100 (-1).
Definition NOK_PRECISION : Decimal := mkDec 1 (-2).

(** ** datetime *)

Record datetime := mkDT { wall : Z; tzoff : Z }.

#[global] Instance datetime_eq_dec : EqDecision datetime.
Proof. intros a b. unfold Decision. decide equality; apply Z.eq_dec. Defined.

(** [timedelta(seconds=n)], [timedelta(minutes=n)] and [timedelta(days=n)]
    in microseconds. *)
Definition seconds (n : Z) : Z := n * 1000000.
Definition minutes (n : Z) : Z := seconds (n * 60).
Definition days (n : Z) : Z := seconds (n * 86400).

(** The point in time, in microseconds since the epoch in UTC. *)
Definition instant (dt : datetime) : Z := wall dt - tzoff dt.

(** [a < b] on datetimes. *)
Definition dt_ltb (a b : datetime) : bool := instant a <? instant b.

(** [dt.date()]: the calendar day of the wall clock, as a day number. *)
Definition date_of (dt : datetime) : Z := wall dt / days 1.

(** [d.weekday()]: Monday is 0; day 0 (1970-01-01) was a Thursday. *)
Definition weekday (d : Z) : Z := (d + 3) mod 7.

(** [self._normalize_datetime(dt)], compared as a UTC value. *)
Definition _normalize_datetime (dt : datetime) : Z := instant dt.

(** ** Lists and dictionaries as Python uses them *)

Section PyLists.
Context {A : Type}.

(** [list.sort] is stable: [before a b] says that [a] must come strictly
    before [b]. *)
Fixpoint sort_insert (before : A -> A -> bool) (x : A) (l : list A) : list A :=
  match l with
  | [] => [x]
  | y :: l' => if before y x then y :: sort_insert before x l' else x :: y :: l'
  end.

Definition py_sort (before : A -> A -> bool) (l : list A) : list A :=
  fold_right (sort_insert before) [] l.
End PyLists.

Section PyDicts.
Context {K V : Type} `{EqDecision K}.

Fixpoint dict_get (k : K) (d : list (K * V)) : option V :=
  match d with
  | [] => None
  | (k', v) :: d' => if decide (k = k') then Some v else dict_get k d'
  end.

Definition dict_mem (k : K) (d : list (K * V)) : bool :=
  match dict_get k d with Some _ => true | None => false end.

(** [d[k] = f(d.get(k, dflt))]: an existing key keeps its position, a new
    key goes to the end. *)
Fixpoint dict_upd (dflt : V) (f : V -> V) (k : K) (d : list (K * V)) : list (K * V) :=
  match d with
  | [] => [(k, f dflt)]
  | (k', v) :: d' =>
      if decide (k = k') then (k', f v) :: d' else (k', v) :: dict_upd dflt f k d'
  end.

(** [d.pop(k, None)] *)
Fixpoint dict_pop (k : K) (d : list (K * V)) : list (K * V) :=
  match d with
  | [] => []
  | (k', v) :: d' => if decide (k = k') then d' else (k', v) :: dict_pop k d'
  end.
End PyDicts.

(** [defaultdict(list)] filled by [d[key(x)].append(x)] over [l]. *)
Definition group_by {K A : Type} `{EqDecision K} (key : A -> K) (l : list A)
  : list (K * list A) :=
  fold_left (fun d x => dict_upd [] (fun vs => vs ++ [x]) (key x) d) l [].

(** ** String helpers *)

(** [s.startswith(p)] *)
Definition startswith (s p : string) : bool := String.prefix p s.

(** [sub in s] *)
Fixpoint contains (sub s : string) : bool :=
  String.prefix sub s ||
  match s with
  | EmptyString => false
  | String _ s' => contains sub s'
  end.

(** Truthiness of an optional string: [None] and [""] are falsy. *)
Definition str_truthy (o : option string) : option string :=
  match o with
  | Some s => if decide (s = "") then None else Some s
  | None => None
  end.

(** Truthiness of an optional Decimal: [None] and zero are falsy. *)
Definition dec_truthy (o : option Decimal) : option Decimal :=
  match o with
  | Some a => if Dtruthy a then Some a else None
  | None => None
  end.

(** ** models.py *)

(** The text of a note is kept as the template that builds it and the values
    it is filled with. *)
Inductive Note :=
| NoteSwap (txs : nat)
| NoteConversion (conversion_op : string) (nok_value : Decimal)
| NoteAddLiquidity (nok_value : Decimal)
| NoteLPReceived (nok_value : Decimal)
| NoteRemoveLiquidity (nok_value : Decimal)
| NoteRewards (timeframe coin : string) (txs : nat) (total_nok_value : Decimal)
| NoteIncome (operation : string) (nok_value : option Decimal)
| NoteSimple (operation : string)
| NoteIncomplete (operation : string)
| NoteText (text : string).

Record KryptosekkenTransaction := mkKS {
  tidspunkt : option datetime;
  type : string;
  inn : option Decimal;
  inn_valuta : option string;
  ut : option Decimal;
  ut_valuta : option string;
  gebyr : option Decimal;
  gebyr_valuta : option string;
  marked : option string;
  notat : option Note;
  row_num : option Z
}.

Record CakeTransaction := mkCake {
  date : datetime;
  operation : string;
  amount : Decimal;
  coin_asset : string;
  fiat_value : Decimal;
  fiat_currency : string;
  transaction_id : option string;
  withdrawal_address : option string;
  reference : option string;
  related_reference_id : option string;
  original_index : option Z
}.

Definition set_original_index (i : Z) (tx : CakeTransaction) : CakeTransaction :=
  mkCake (date tx) (operation tx) (amount tx) (coin_asset tx) (fiat_value tx)
         (fiat_currency tx) (transaction_id tx) (withdrawal_address tx)
         (reference tx) (related_reference_id tx) (Some i).

(** ** operation_mapper.py *)

Inductive KryptosekkenTransactionType :=
| HANDEL | ERVERV | MINING | INNTEKT | TAP | FORBRUK | RENTEINNTEKT
| OVERFORING_INN | OVERFORING_UT | GAVE_INN | GAVE_UT | TAP_UTEN_FRADRAG
| FORVALTNINGSKOSTNAD.

#[global] Instance KryptosekkenTransactionType_eq_dec :
  EqDecision KryptosekkenTransactionType.
Proof. intros a b. unfold Decision. decide equality. Defined.

Definition value (t : KryptosekkenTransactionType) : string :=
  match t with
  | HANDEL => "Handel" | ERVERV => "Erverv" | MINING => "Mining"
  | INNTEKT => "Inntekt" | TAP => "Tap" | FORBRUK => "Forbruk"
  | RENTEINNTEKT => "Renteinntekt"
  | OVERFORING_INN => "Overføring-Inn" | OVERFORING_UT => "Overføring-Ut"
  | GAVE_INN => "Gave-Inn" | GAVE_UT => "Gave-Ut"
  | TAP_UTEN_FRADRAG => "Tap-uten-fradrag"
  | FORVALTNINGSKOSTNAD => "Forvaltningskostnad"
  end.

Module OperationMapper.

Definition OPERATION_MAPPING : list (string * KryptosekkenTransactionType) :=
  [ ("Staking reward", INNTEKT);
    ("Freezer staking bonus", INNTEKT);
    ("5 years freezer reward", INNTEKT);
    ("Freezer liquidity mining bonus", INNTEKT);
    ("Earn reward", INNTEKT);
    ("YieldVault reward", INNTEKT);
    ("Referral reward", INNTEKT);
    ("Lending reward", INNTEKT);
    ("Promotion bonus", INNTEKT);
    ("Rewards from DeFiChain voting", INNTEKT);
    ("Entry staking wallet", INNTEKT);
    ("Entry staking wallet: Signup bonus", INNTEKT);
    ("Entry staking wallet: Referral signup bonus", INNTEKT);
    ("Entry staking wallet: Promotion bonus", INNTEKT);
    ("Deposit", ERVERV);
    ("Withdrawal", OVERFORING_UT);
    ("Exit staking wallet", OVERFORING_INN);
    ("Exited Earn", HANDEL);
    ("Exited YieldVault", OVERFORING_INN);
    ("Adjusted Earn entry", OVERFORING_INN);
    ("Removed liquidity", HANDEL);
    ("Address creation fee", FORVALTNINGSKOSTNAD);
    ("Withdrawal fee", FORVALTNINGSKOSTNAD);
    ("Added liquidity", HANDEL);
    ("Entered YieldVault", OVERFORING_UT);
    ("Entered Earn", HANDEL);
    ("Withdrew for swap", OVERFORING_UT);
    ("Paid swap fee", FORVALTNINGSKOSTNAD);
    ("Converted ETH Staking Shares to csETH", INNTEKT);
    ("Buy token", INNTEKT) ].

(** [float(tx.amount)].  The classifier only compares the float with 0,
    and the conversion keeps the sign of every Decimal of magnitude above
    2^-1075 (all amounts with at most 323 fractional digits), so the
    float is represented by the Decimal it was made from. *)
Definition float (d : Decimal) : Decimal := d.

(** [None] stands for [ValueError("Unknown operation")]. *)
Definition get_transaction_type (operation : string) (amount : option Decimal)
  : option KryptosekkenTransactionType :=
  match (if decide (operation = "Entry staking wallet") then amount else None) with
  | Some a => if Dltb a Dzero then Some OVERFORING_UT else Some INNTEKT
  | None =>
      match dict_get operation OPERATION_MAPPING with
      | Some t => Some t
      | None =>
          if startswith operation "Add liquidity "
             || startswith operation "Remove liquidity "
          then Some HANDEL
          else if startswith operation "Liquidity mining reward "
          then Some INNTEKT
          else None
      end
  end.

Definition is_income_operation (operation : string) (amount : option Decimal) : bool :=
  match get_transaction_type operation amount with
  | Some t => bool_decide (t = INNTEKT)
  | None => false
  end.

Definition is_trade_operation (operation : string) : bool :=
  match get_transaction_type operation None with
  | Some t => bool_decide (t = HANDEL)
  | None => false
  end.

Definition should_skip_transaction (operation : string) (amount : option Decimal) : bool :=
  match amount with
  | Some a => bool_decide (operation = "Entry staking wallet") && Dltb a Dzero
  | None => false
  end.

Definition static_operations : list string :=
  [ "Withdrew for swap"; "Paid swap fee"; "Deposit"; "Added liquidity";
    "Removed liquidity"; "Converted ETH Staking Shares to csETH" ].

Definition requires_grouping (operation : string) : bool :=
  bool_decide (operation ∈ static_operations)
  || startswith operation "Add liquidity "
  || startswith operation "Remove liquidity ".

End OperationMapper.

(** ** currency_converter.py *)

(** A computation that consults the rate cache: its result and the dates it
    looked up, in order. *)
Definition Lookup (A : Type) : Type := A * list Z.

Definition ret {A} (a : A) : Lookup A := (a, []).

Definition bind {A B} (m : Lookup A) (k : A -> Lookup B) : Lookup B :=
  let (b, l) := k (fst m) in (b, snd m ++ l).

Notation "'let*' x ':=' m 'in' k" := (bind m (fun x => k))
  (at level 10, x name, m at level 200, k at level 200).

Module CurrencyConverter.

Section WithCache.
Variable _rate_cache : gmap Z Decimal.

(** [d in self._rate_cache], followed by the read when it is there. *)
Definition probe (d : Z) : Lookup (option Decimal) := (_rate_cache !! d, [d]).

Fixpoint probe_first (ds : list Z) : Lookup (option Decimal) :=
  match ds with
  | [] => ret None
  | d :: ds' =>
      let* r := probe d in
      match r with
      | Some x => ret (Some x)
      | None => probe_first ds'
      end
  end.

Definition _find_rate_for_date (target_date : Z) : Lookup (option Decimal) :=
  let* r := probe target_date in
  match r with
  | Some x => ret (Some x)
  | None =>
      let* b := probe_first (map (fun days_back => target_date - days_back)
                            (seqZ 1 LOOKUP_RANGE_DAYS)) in
      match b with
      | Some x => ret (Some x)
      | None =>
          probe_first (map (fun days_forward => target_date + days_forward)
                           (seqZ 1 LOOKUP_RANGE_DAYS))
      end
  end.

Definition get_usd_to_nok_rate (transaction_date : datetime) : Lookup Decimal :=
  let* rate := _find_rate_for_date (date_of transaction_date) in
  match rate with
  | None => ret FALLBACK_USD_NOK_RATE
  | Some r => ret r
  end.

Definition convert_usd_to_nok (usd_amount : Decimal) (transaction_date : datetime)
  : Lookup Decimal :=
  if is_zero usd_amount then ret Dzero
  else
    let* exchange_rate := get_usd_to_nok_rate transaction_date in
    ret (quantize (Dmul usd_amount exchange_rate) NOK_PRECISION).

Definition has_rate_for_date (check_date : Z) : bool :=
  match fst (_find_rate_for_date check_date) with Some _ => true | None => false end.
End WithCache.

End CurrencyConverter.

(** ** transaction_grouper.py *)

Record TransactionGroup := mkGroup {
  transactions : list CakeTransaction;
  group_type : string;
  reference_id : option string
}.

(** [min(tx.date for tx in [t] + ts)]: the first of the earliest dates. *)
Definition min_date (t : CakeTransaction) (ts : list CakeTransaction) : datetime :=
  fold_left (fun m x => if dt_ltb (date x) m then date x else m) ts (date t).

(** The [timestamp] property; [None] is the [ValueError] of [min] on an
    empty sequence. *)
Definition timestamp (g : TransactionGroup) : option datetime :=
  match transactions g with
  | [] => None
  | t :: ts => Some (min_date t ts)
  end.

Definition total_participants (g : TransactionGroup) : nat := length (transactions g).

(** [tx_list.sort(key=lambda t: t.date)] *)
Definition sort_by_date (l : list CakeTransaction) : list CakeTransaction :=
  py_sort (fun a b => dt_ltb (date a) (date b)) l.

(** [id(tx)]: an event object is identified by the position it was given in
    the input list (one object per input row). *)
Definition py_id (tx : CakeTransaction) : option Z := original_index tx.

Module TransactionGrouper.

Import OperationMapper.

Definition MAX_TIME_DELTA : Z := minutes 10.

Definition _determine_group_type (txs : list CakeTransaction) : string :=
  if existsb (fun tx => startswith (operation tx) "Add liquidity"
                        || bool_decide (operation tx = "Added liquidity")) txs
  then "add_liquidity"
  else if existsb (fun tx => startswith (operation tx) "Remove liquidity"
                             || bool_decide (operation tx = "Removed liquidity")) txs
  then "remove_liquidity"
  else "swap".

Definition _get_group_economic_priority (group : TransactionGroup) : Z :=
  if existsb (fun tx => is_income_operation (operation tx) (Some (float (amount tx))))
             (transactions group)
  then 1
  else if bool_decide (group_type group = "swap") then 2
  else if bool_decide (group_type group = "liquidity") then 3
  else 4.

(** The sort key of a group: normalized timestamp, economic priority and
    the input position of its first member.  Every group the grouper
    builds is non-empty and indexed; the defaults are never reached. *)
Definition sort_key (g : TransactionGroup) : Z * Z * Z :=
  (match timestamp g with Some dt => _normalize_datetime dt | None => 0 end,
   _get_group_economic_priority g,
   match transactions g with
   | t :: _ => default 0 (original_index t)
   | [] => 0
   end).

(** [a < b] on the key tuples. *)
Definition key_ltb (a b : Z * Z * Z) : bool :=
  let '(t1, p1, i1) := a in
  let '(t2, p2, i2) := b in
  (t1 <? t2) || ((t1 =? t2) && ((p1 <? p2) || ((p1 =? p2) && (i1 <? i2)))).

(** The walk over a date-sorted list that opens a new sub-group at every
    gap longer than [MAX_TIME_DELTA]; [prev] is [tx_list[i - 1]]. *)
Fixpoint split_by_gap (prev : CakeTransaction) (sub_group_txs rest : list CakeTransaction)
  : list (list CakeTransaction) :=
  match rest with
  | [] => [sub_group_txs]
  | x :: rest' =>
      if MAX_TIME_DELTA <? instant (date x) - instant (date prev)
      then sub_group_txs :: split_by_gap x [x] rest'
      else split_by_gap x (sub_group_txs ++ [x]) rest'
  end.

Definition split_group (tx_list : list CakeTransaction) : list (list CakeTransaction) :=
  match sort_by_date tx_list with
  | [] => []
  | t :: rest => split_by_gap t [t] rest
  end.

Definition _aggregate_eth_daily_to_weekly (eth_daily_groups : list TransactionGroup)
  : list TransactionGroup :=
  let weekly_groups :=
    fold_left
      (fun d daily_group =>
         let group_date :=
           match timestamp daily_group with Some dt => date_of dt | None => 0 end in
         let monday := group_date - weekday group_date in
         dict_upd [] (fun l => l ++ transactions daily_group) monday d)
      eth_daily_groups [] in
  flat_map
    (fun '(_, tx_list) =>
       if (1 <? length tx_list)%nat
       then [mkGroup (sort_by_date tx_list) "daily_rewards" None]
       else [])
    weekly_groups.

Definition is_income (tx : CakeTransaction) : bool :=
  is_income_operation (operation tx) (Some (float (amount tx))).

Definition first_coin_is_ETH (g : TransactionGroup) : bool :=
  match transactions g with
  | t :: _ => bool_decide (coin_asset t = "ETH")
  | [] => false
  end.

(** [group_key]: the calendar day and the currency (the third component of
    the source's tuple is the constant "income"). *)
Definition group_key (tx : CakeTransaction) : Z * string :=
  (date_of (date tx), coin_asset tx).

(** [daily_reward_groups]: one group per day and currency with more than
    one income event. *)
Definition daily_reward_groups (txs : list CakeTransaction) : list TransactionGroup :=
  flat_map
    (fun '(_, tx_list) =>
       if (1 <? length tx_list)%nat
       then [mkGroup (sort_by_date tx_list) "daily_rewards" None]
       else [])
    (group_by group_key (List.filter is_income txs)).

Definition _group_daily_rewards (txs : list CakeTransaction) : list TransactionGroup :=
  let daily_reward_groups := daily_reward_groups txs in
  let eth_daily_groups := List.filter first_coin_is_ETH daily_reward_groups in
  let non_eth_groups :=
    List.filter (fun g => negb (first_coin_is_ETH g)) daily_reward_groups in
  match eth_daily_groups with
  | [] => non_eth_groups
  | _ :: _ => non_eth_groups ++ _aggregate_eth_daily_to_weekly eth_daily_groups
  end.

(** The first loop of [group_transactions]: number the events and drop the
    ones the classifier skips. *)
Definition filter_transactions (txs : list CakeTransaction) : list CakeTransaction :=
  List.filter
    (fun tx => negb (should_skip_transaction (operation tx) (Some (float (amount tx)))))
    (imap (fun i tx => set_original_index (Z.of_nat i) tx) txs).

Definition goes_to_initial_group (tx : CakeTransaction) : bool :=
  match str_truthy (related_reference_id tx) with
  | Some _ => requires_grouping (operation tx)
  | None => false
  end.

Definition is_liquidity_result (tx : CakeTransaction) : bool :=
  match str_truthy (reference tx) with
  | Some _ => bool_decide (operation tx ∈ ["Added liquidity"; "Removed liquidity"])
  | None => false
  end.

Definition attaches (initial_groups : list (string * list CakeTransaction))
           (tx : CakeTransaction) : bool :=
  is_liquidity_result tx && dict_mem (default "" (reference tx)) initial_groups.

Definition single_group (tx : CakeTransaction) : TransactionGroup :=
  mkGroup [tx] "single" None.

Definition final_group (tx_list : list CakeTransaction) : TransactionGroup :=
  let ref_id :=
    match tx_list with
    | t :: _ =>
        match str_truthy (related_reference_id t) with
        | Some r => Some r
        | None => reference t
        end
    | [] => None
    end in
  mkGroup tx_list (_determine_group_type tx_list) ref_id.

(** [initial_groups] after the loop that files the events by group id. *)
Definition initial_groups (txs : list CakeTransaction)
  : list (string * list CakeTransaction) :=
  group_by (fun tx => default "" (related_reference_id tx))
           (List.filter goes_to_initial_group (filter_transactions txs)).

(** [single_txs] after the same loop. *)
Definition single_txs (txs : list CakeTransaction) : list CakeTransaction :=
  List.filter (fun tx => negb (goes_to_initial_group tx)) (filter_transactions txs).

(** [initial_groups] once the liquidity results are attached. *)
Definition attached_groups (txs : list CakeTransaction)
  : list (string * list CakeTransaction) :=
  fold_left
    (fun d tx => dict_upd [] (fun l => l ++ [tx]) (default "" (reference tx)) d)
    (List.filter (attaches (initial_groups txs)) (single_txs txs))
    (initial_groups txs).

(** [remaining_single_txs]: the standalone events. *)
Definition remaining_single_txs (txs : list CakeTransaction) : list CakeTransaction :=
  List.filter (fun tx => negb (attaches (initial_groups txs) tx)) (single_txs txs).

(** The groups of [group_transactions] before the final sort. *)
Definition unsorted_groups (txs : list CakeTransaction) : list TransactionGroup :=
  let split_groups :=
    flat_map (fun '(_, tx_list) => split_group tx_list) (attached_groups txs) in
  let final_groups := map final_group split_groups in
  let reward_groups := _group_daily_rewards (remaining_single_txs txs) in
  let grouped_ids := flat_map (fun g => map py_id (transactions g)) reward_groups in
  final_groups ++ reward_groups
    ++ map single_group
           (List.filter (fun tx => negb (bool_decide (py_id tx ∈ grouped_ids)))
                        (remaining_single_txs txs)).

Definition group_transactions (txs : list CakeTransaction) : list TransactionGroup :=
  py_sort (fun a b => key_ltb (sort_key a) (sort_key b)) (unsorted_groups txs).

(** *** Conversion of a group

    [None] stands for a raised exception ([ValueError] of the classifier
    or of [min] on an empty group, [IndexError] on an empty group). *)

Section Converter.
Variable currency_converter : gmap Z Decimal.

Definition nok (usd_amount : Decimal) (d : datetime) : Decimal :=
  fst (CurrencyConverter.convert_usd_to_nok currency_converter usd_amount d).

Definition problematic_operations : list string :=
  [ "Add liquidity"; "Remove liquidity"; "Entered Earn"; "Exited Earn" ].

Definition _convert_single_transaction (tx : CakeTransaction)
  : option (list KryptosekkenTransaction) :=
  match get_transaction_type (operation tx) (Some (float (amount tx))) with
  | None => None
  | Some tx_type =>
      let nok_value := nok (Dabs (fiat_value tx)) (date tx) in
      match tx_type with
      | INNTEKT =>
          Some [ {| tidspunkt := Some (date tx); type := value tx_type;
                    inn := Some (Dabs (amount tx)); inn_valuta := Some (coin_asset tx);
                    ut := None; ut_valuta := None;
                    gebyr := None; gebyr_valuta := None;
                    marked := Some "CakeDeFi";
                    notat := Some (NoteIncome (operation tx)
                                     (if Dtruthy nok_value then Some nok_value else None));
                    row_num := None |} ]
      | OVERFORING_INN =>
          Some [ {| tidspunkt := Some (date tx); type := value tx_type;
                    inn := Some (Dabs (amount tx)); inn_valuta := Some (coin_asset tx);
                    ut := None; ut_valuta := None;
                    gebyr := None; gebyr_valuta := None;
                    marked := Some "CakeDeFi";
                    notat := Some (NoteSimple (operation tx));
                    row_num := None |} ]
      | OVERFORING_UT | FORVALTNINGSKOSTNAD =>
          Some [ {| tidspunkt := Some (date tx); type := value tx_type;
                    inn := None; inn_valuta := None;
                    ut := Some (Dabs (amount tx)); ut_valuta := Some (coin_asset tx);
                    gebyr := None; gebyr_valuta := None;
                    marked := Some "CakeDeFi";
                    notat := Some (NoteSimple (operation tx));
                    row_num := None |} ]
      | _ =>
          if existsb (fun op => startswith (operation tx) op) problematic_operations
          then
            if Dltb (amount tx) Dzero
            then
              Some [ {| tidspunkt := Some (date tx); type := value OVERFORING_UT;
                        inn := None; inn_valuta := None;
                        ut := Some (Dabs (amount tx));
                        ut_valuta := Some (coin_asset tx);
                        gebyr := None; gebyr_valuta := None;
                        marked := Some "CakeDeFi";
                        notat := Some (NoteIncomplete (operation tx));
                        row_num := None |} ]
            else
              Some [ {| tidspunkt := Some (date tx); type := value OVERFORING_INN;
                        inn := Some (Dabs (amount tx));
                        inn_valuta := Some (coin_asset tx);
                        ut := None; ut_valuta := None;
                        gebyr := None; gebyr_valuta := None;
                        marked := Some "CakeDeFi";
                        notat := Some (NoteIncomplete (operation tx));
                        row_num := None |} ]
          else
            Some [ {| tidspunkt := Some (date tx); type := value tx_type;
                      inn := if Dgtb (amount tx) Dzero
                             then Some (Dabs (amount tx)) else None;
                      inn_valuta := if Dgtb (amount tx) Dzero
                                    then Some (coin_asset tx) else None;
                      ut := if Dltb (amount tx) Dzero
                            then Some (Dabs (amount tx)) else None;
                      ut_valuta := if Dltb (amount tx) Dzero
                                   then Some (coin_asset tx) else None;
                      gebyr := None; gebyr_valuta := None;
                      marked := Some "CakeDeFi";
                      notat := Some (NoteSimple (operation tx));
                      row_num := None |} ]
      end
  end.

(** The list comprehension of [_fallback_conversion]: the first member
    that fails to convert makes the whole call fail. *)
Fixpoint convert_each (txs : list CakeTransaction)
  : option (list KryptosekkenTransaction) :=
  match txs with
  | [] => Some []
  | tx :: txs' =>
      match _convert_single_transaction tx with
      | None => None
      | Some sublist =>
          match convert_each txs' with
          | None => None
          | Some l => Some (sublist ++ l)
          end
      end
  end.

Definition _fallback_conversion (group : TransactionGroup)
  : option (list KryptosekkenTransaction) :=
  match timestamp group with
  | None => None
  | Some _ => convert_each (transactions group)
  end.

Definition _convert_add_liquidity_group (group : TransactionGroup)
  : option (list KryptosekkenTransaction) :=
  let lp_receipt :=
    List.find (fun tx => bool_decide (operation tx = "Added liquidity"))
              (transactions group) in
  let provisions :=
    List.filter (fun tx => startswith (operation tx) "Add liquidity")
                (transactions group) in
  match lp_receipt, provisions with
  | Some lp_receipt, asset1 :: more =>
      let asset2 := head more in
      let nok_value := nok (Dabs (fiat_value lp_receipt)) (date lp_receipt) in
      Some [ {| tidspunkt := Some (date lp_receipt); type := value HANDEL;
                inn := Some (Dabs (amount lp_receipt));
                inn_valuta := Some (coin_asset lp_receipt);
                ut := Some (Dabs (amount asset1));
                ut_valuta := Some (coin_asset asset1);
                gebyr := option_map (fun a => Dabs (amount a)) asset2;
                gebyr_valuta := option_map coin_asset asset2;
                marked := Some "CakeDeFi";
                notat := Some (NoteAddLiquidity nok_value);
                row_num := None |} ]
  | None, _ :: _ => Some []
  | Some lp_receipt, [] =>
      let nok_value := nok (Dabs (fiat_value lp_receipt)) (date lp_receipt) in
      Some [ {| tidspunkt := Some (date lp_receipt); type := value OVERFORING_INN;
                inn := Some (Dabs (amount lp_receipt));
                inn_valuta := Some (coin_asset lp_receipt);
                ut := None; ut_valuta := None;
                gebyr := None; gebyr_valuta := None;
                marked := Some "CakeDeFi";
                notat := Some (NoteLPReceived nok_value);
                row_num := None |} ]
  | None, [] => _fallback_conversion group
  end.

Definition _convert_remove_liquidity_group (group : TransactionGroup)
  : option (list KryptosekkenTransaction) :=
  let lp_disposal :=
    List.find (fun tx => bool_decide (operation tx = "Removed liquidity"))
              (transactions group) in
  let returns :=
    List.filter (fun tx => startswith (operation tx) "Remove liquidity")
                (transactions group) in
  match lp_disposal, returns with
  | Some lp_disposal, asset1 :: more =>
      let asset2 := head more in
      match timestamp group with
      | None => None
      | Some ts =>
          let nok_value := nok (Dabs (fiat_value lp_disposal)) ts in
          Some [ {| tidspunkt := Some ts; type := value HANDEL;
                    inn := Some (Dabs (amount asset1));
                    inn_valuta := Some (coin_asset asset1);
                    ut := Some (Dabs (amount lp_disposal));
                    ut_valuta := Some (coin_asset lp_disposal);
                    gebyr := option_map (fun a => Dabs (amount a)) asset2;
                    gebyr_valuta := option_map coin_asset asset2;
                    marked := Some "CakeDeFi";
                    notat := Some (NoteRemoveLiquidity nok_value);
                    row_num := None |} ]
      end
  | _, _ => _fallback_conversion group
  end.

(** The three [defaultdict(Decimal)] of [_convert_swap_group] and the
    last conversion label seen. *)
Record flows := mkFlows {
  incoming_txs : list (string * Decimal);
  outgoing_txs : list (string * Decimal);
  fee_txs : list (string * Decimal);
  conversion_op_str : option string
}.

(** [d[k] += x] on a [defaultdict(Decimal)] *)
Definition dict_add (k : string) (x : Decimal) (d : list (string * Decimal))
  : list (string * Decimal) :=
  dict_upd Dzero (fun v => Dadd v x) k d.

Definition categorize (f : flows) (tx : CakeTransaction) : flows :=
  let f1 :=
    if decide (operation tx = "Paid swap fee") then
      mkFlows (incoming_txs f) (outgoing_txs f)
              (dict_add (coin_asset tx) (Dabs (amount tx)) (fee_txs f))
              (conversion_op_str f)
    else if Dltb (amount tx) Dzero then
      mkFlows (incoming_txs f)
              (dict_add (coin_asset tx) (Dabs (amount tx)) (outgoing_txs f))
              (fee_txs f) (conversion_op_str f)
    else if Dgtb (amount tx) Dzero then
      mkFlows (dict_add (coin_asset tx) (amount tx) (incoming_txs f))
              (outgoing_txs f) (fee_txs f) (conversion_op_str f)
    else f in
  if contains "Converted" (operation tx)
  then mkFlows (incoming_txs f1) (outgoing_txs f1) (fee_txs f1) (Some (operation tx))
  else f1.

Definition net_out (f : flows) (currency : string) : flows :=
  if dict_mem currency (outgoing_txs f) || dict_mem currency (fee_txs f) then
    let total_in := default Dzero (dict_get currency (incoming_txs f)) in
    let total_out :=
      Dadd (default Dzero (dict_get currency (outgoing_txs f)))
           (default Dzero (dict_get currency (fee_txs f))) in
    let net_amount := Dsub total_in total_out in
    if Dltb (Dabs net_amount) (mkDec 1 (-9))
    then mkFlows (dict_pop currency (incoming_txs f))
                 (dict_pop currency (outgoing_txs f))
                 (dict_pop currency (fee_txs f)) (conversion_op_str f)
    else f
  else f.

(** The flows of a group after the categorising loop and the netting
    loop (which walks a snapshot of the incoming currencies). *)
Definition net_flows (txs : list CakeTransaction) : flows :=
  let f := fold_left categorize txs (mkFlows [] [] [] None) in
  fold_left net_out (map fst (incoming_txs f)) f.

Definition _convert_swap_group (group : TransactionGroup)
  : option (list KryptosekkenTransaction) :=
  let f := net_flows (transactions group) in
  match incoming_txs f, outgoing_txs f, conversion_op_str f with
  | [(inn_valuta_, inn_amount)], (ut_valuta_, ut_amount) :: _, _ =>
      match timestamp group with
      | None => None
      | Some ts =>
          Some [ {| tidspunkt := Some ts; type := "Handel";
                    inn := Some inn_amount; inn_valuta := Some inn_valuta_;
                    ut := Some ut_amount; ut_valuta := Some ut_valuta_;
                    gebyr := option_map snd (head (fee_txs f));
                    gebyr_valuta := option_map fst (head (fee_txs f));
                    marked := Some "CakeDeFi";
                    notat := Some (NoteSwap (length (transactions group)));
                    row_num := None |} ]
      end
  | [(inn_valuta_, inn_amount)], [], Some conversion_op =>
      let total_inn_value_usd :=
        Dsum (map fiat_value
                  (List.filter (fun tx => Dgtb (amount tx) Dzero) (transactions group))) in
      match timestamp group with
      | None => None
      | Some ts =>
          let nok_value := nok (Dabs total_inn_value_usd) ts in
          Some [ {| tidspunkt := Some ts; type := value INNTEKT;
                    inn := Some inn_amount; inn_valuta := Some inn_valuta_;
                    ut := None; ut_valuta := None;
                    gebyr := None; gebyr_valuta := None;
                    marked := Some "CakeDeFi";
                    notat := Some (NoteConversion conversion_op nok_value);
                    row_num := None |} ]
      end
  | _, _, _ => _fallback_conversion group
  end.

Definition _convert_daily_rewards_group (group : TransactionGroup)
  : option (list KryptosekkenTransaction) :=
  let total_amount := Dsum (map amount (transactions group)) in
  match transactions group, timestamp group with
  | template_tx :: _, Some ts =>
      let total_nok_value :=
        fold_left
          (fun total tx => Dadd total (nok (Dabs (fiat_value tx)) (date tx)))
          (transactions group) Dzero in
      let timeframe :=
        if decide (coin_asset template_tx = "ETH") then "Weekly" else "Daily" in
      Some [ {| tidspunkt := Some ts; type := value INNTEKT;
                inn := Some (Dabs total_amount);
                inn_valuta := Some (coin_asset template_tx);
                ut := None; ut_valuta := None;
                gebyr := None; gebyr_valuta := None;
                marked := Some "CakeDeFi";
                notat := Some (NoteRewards timeframe (coin_asset template_tx)
                                 (length (transactions group)) total_nok_value);
                row_num := None |} ]
  | _, _ => None
  end.

Definition convert_group_to_kryptosekken (group : TransactionGroup)
  : option (list KryptosekkenTransaction) :=
  if decide (group_type group = "swap") then _convert_swap_group group
  else if decide (group_type group = "add_liquidity")
  then _convert_add_liquidity_group group
  else if decide (group_type group = "remove_liquidity")
  then _convert_remove_liquidity_group group
  else if decide (group_type group = "daily_rewards")
  then _convert_daily_rewards_group group
  else
    match transactions group with
    | tx :: _ => _convert_single_transaction tx
    | [] => None
    end.

(** Step 5 of [CakeTransactionProcessor.process_file]: every group is
    converted, a group whose conversion raises contributes nothing. *)
Definition convert_groups (groups : list TransactionGroup)
  : list KryptosekkenTransaction :=
  flat_map (fun g => default [] (convert_group_to_kryptosekken g)) groups.

End Converter.

End TransactionGrouper.

(** ** The text of numbers

    [str] and the constructors [int] and [Decimal] on the numerals [str]
    produces: an optional sign, digits, an optional fraction and an optional
    exponent.  The other spellings the constructors accept (padding white
    space, underscores, "Infinity", "NaN") are not modelled: they are read
    as a failure. *)

Definition is_digit (c : ascii) : bool :=
  match uint_of_char c (Some Decimal.Nil) with
  | Some _ => true
  | None => false
  end.

Fixpoint all_digits (s : string) : bool :=
  match s with
  | EmptyString => true
  | String c r => is_digit c && all_digits r
  end.

(** The canonical digits of a natural number. *)
Definition str_of_N (n : N) : string := NilEmpty.string_of_uint (N.to_uint n).

(** The number a non-empty string of digits denotes. *)
Definition N_of_digits (s : string) : option N :=
  match s with
  | EmptyString => None
  | _ => option_map N.of_uint (NilEmpty.uint_of_string s)
  end.

(** [str(z)] for an [int]. *)
Definition str_of_int (z : Z) : string :=
  if z <? 0 then "-" +:+ str_of_N (Z.abs_N z) else str_of_N (Z.abs_N z).

(** A leading sign: whether it is a minus, and the rest. *)
Definition strip_sign (s : string) : bool * string :=
  match s with
  | String c r =>
      if Ascii.eqb c "-" then (true, r)
      else if Ascii.eqb c "+" then (false, r)
      else (false, s)
  | EmptyString => (false, s)
  end.

(** [int(s)] *)
Definition int_of_str (s : string) : option Z :=
  let '(neg, digits) := strip_sign s in
  option_map (fun n => if neg then - Z.of_N n else Z.of_N n) (N_of_digits digits).

(** The longest prefix of digits, and the rest. *)
Fixpoint take_digits (s : string) : string * string :=
  match s with
  | String c r =>
      if is_digit c
      then let '(d, rest) := take_digits r in (String c d, rest)
      else (EmptyString, s)
  | EmptyString => (EmptyString, EmptyString)
  end.

Fixpoint zeros (k : nat) : string :=
  match k with
  | O => EmptyString
  | S k' => String "0" (zeros k')
  end.

(** [s[:k]] and [s[k:]] *)
Fixpoint str_take (k : nat) (s : string) : string :=
  match k, s with
  | S k', String c r => String c (str_take k' r)
  | _, _ => EmptyString
  end.

Fixpoint str_drop (k : nat) (s : string) : string :=
  match k, s with
  | S k', String _ r => str_drop k' r
  | _, _ => s
  end.

(** ["%+d" % e] *)
Definition signed (e : Z) : string :=
  (if e <? 0 then "-" else "+") +:+ str_of_N (Z.abs_N e).

(** [str(d)] for a Decimal: plain notation when the exponent is at most 0
    and more than -6 digits lie left of the point, scientific notation
    otherwise. *)
Definition str_of_Decimal (d : Decimal) : string :=
  let sign := if coef d <? 0 then "-" else "" in
  let _int := str_of_N (Z.abs_N (coef d)) in
  let n := Z.of_nat (String.length _int) in
  let leftdigits := dexp d + n in
  let dotplace := if (dexp d <=? 0) && (-6 <? leftdigits) then leftdigits else 1 in
  let '(intpart, fracpart) :=
    if dotplace <=? 0
    then ("0", "." +:+ zeros (Z.to_nat (- dotplace)) +:+ _int)
    else if n <=? dotplace
    then (_int +:+ zeros (Z.to_nat (dotplace - n)), "")
    else (str_take (Z.to_nat dotplace) _int,
          "." +:+ str_drop (Z.to_nat dotplace) _int) in
  let exp :=
    if leftdigits =? dotplace then "" else "E" +:+ signed (leftdigits - dotplace) in
  sign +:+ intpart +:+ fracpart +:+ exp.

(** The fraction after the integer part: its digits and the rest. *)
Definition take_fraction (s : string) : string * string :=
  match s with
  | String c r => if Ascii.eqb c "." then take_digits r else (EmptyString, s)
  | EmptyString => (EmptyString, s)
  end.

(** The exponent that ends a numeral; 0 when there is none. *)
Definition read_exponent (s : string) : option Z :=
  match s with
  | EmptyString => Some 0
  | String c r => if Ascii.eqb c "E" || Ascii.eqb c "e" then int_of_str r else None
  end.

(** [Decimal(s)]; [None] stands for [InvalidOperation]. *)
Definition Decimal_of_str (s : string) : option Decimal :=
  let '(neg, s1) := strip_sign s in
  let '(intpart, s2) := take_digits s1 in
  let '(fracpart, s3) := take_fraction s2 in
  match read_exponent s3, N_of_digits (intpart +:+ fracpart) with
  | Some e, Some n =>
      Some (mkDec (if neg then - Z.of_N n else Z.of_N n)
                  (e - Z.of_nat (String.length fracpart)))
  | _, _ => None
  end.

(** The head of what follows a run of digits: the end or a character that
    is not a digit. *)
Definition digits_end (s : string) : bool :=
  match s with
  | EmptyString => true
  | String c _ => negb (is_digit c)
  end.

(** ** balance_tracker.py *)

Module BalanceTracker.

Definition _is_negligible (amount : Decimal) : bool :=
  Dltb (Dabs amount) NEGLIGIBLE_AMOUNT.

Inductive delta_desc := outflow | fee | inflow.

(** The deltas the generator yields, in order: (currency, amount,
    is_outflow, desc). *)
Definition _get_transaction_deltas (tx : KryptosekkenTransaction)
  : list (string * Decimal * bool * delta_desc) :=
  (match dec_truthy (ut tx), str_truthy (ut_valuta tx) with
   | Some ut_amount, Some ut_currency => [(ut_currency, ut_amount, true, outflow)]
   | _, _ => []
   end)
  ++ (match dec_truthy (gebyr tx), str_truthy (gebyr_valuta tx) with
      | Some fee_amount, Some fee_currency => [(fee_currency, fee_amount, true, fee)]
      | _, _ => []
      end)
  ++ (match dec_truthy (inn tx), str_truthy (inn_valuta tx) with
      | Some in_amount, Some in_currency => [(in_currency, in_amount, false, inflow)]
      | _, _ => []
      end).

(** An entry of [problematic_txs]; [transaction] keeps the values the
    text "Row ..: .. (..)" is made of. *)
Record problem := mkProblem {
  row : option Z;
  currency : string;
  attempted : Decimal;
  available : Decimal;
  deficit : Decimal;
  transaction : option Z * string * delta_desc
}.

(** [running_balances[currency]] on a [defaultdict(Decimal)] *)
Definition balance_of (running_balances : gmap string Decimal) (c : string) : Decimal :=
  default Dzero (running_balances !! c).

(** The body of the inner loop of [process_and_validate_year]. *)
Definition apply_delta (tx : KryptosekkenTransaction)
           (st : gmap string Decimal * list problem)
           (d : string * Decimal * bool * delta_desc)
  : gmap string Decimal * list problem :=
  let '(running_balances, problematic_txs) := st in
  let '(c, amt, is_outflow, desc) := d in
  if is_outflow then
    let problematic_txs :=
      if Dltb (balance_of running_balances c) amt
      then problematic_txs ++
             [ {| row := row_num tx; currency := c; attempted := amt;
                  available := balance_of running_balances c;
                  deficit := Dsub amt (balance_of running_balances c);
                  transaction := (row_num tx, type tx, desc) |} ]
      else problematic_txs in
    (<[c := Dsub (balance_of running_balances c) amt]> running_balances,
     problematic_txs)
  else
    (<[c := Dadd (balance_of running_balances c) amt]> running_balances,
     problematic_txs).

Definition apply_transaction (st : gmap string Decimal * list problem)
           (tx : KryptosekkenTransaction) : gmap string Decimal * list problem :=
  fold_left (apply_delta tx) (_get_transaction_deltas tx) st.

(** The replay of a year: the running balances and the problem entries
    after all transactions. *)
Definition replay (starting_balances : gmap string Decimal)
           (txs : list KryptosekkenTransaction)
  : gmap string Decimal * list problem :=
  fold_left apply_transaction txs (starting_balances, []).

Inductive error_line :=
| InsufficientFunds (count : nat)
| TriedToSpend (p : problem)
| AndMore (count : nat).

Record report := mkReport {
  valid : bool;
  errors : list error_line;
  info : list Z;
  starting_balances : gmap string Decimal;
  ending_balances : gmap string Decimal;
  problematic_transactions : list problem
}.

Definition get_starting_balances (balance_history : gmap Z (gmap string Decimal))
           (year : Z) : gmap string Decimal :=
  default ∅ (balance_history !! (year - 1)).

Definition drop_negligible (balances : gmap string Decimal) : gmap string Decimal :=
  filter (fun kv => _is_negligible (snd kv) = false) balances.

(** [info] holds the year of the one message "All <year> transactions
    respect multi-year balance constraints". *)
Definition process_and_validate_year (balance_history : gmap Z (gmap string Decimal))
           (year : Z) (txs : list KryptosekkenTransaction)
  : report * gmap Z (gmap string Decimal) :=
  let starting_balances := get_starting_balances balance_history year in
  let '(running_balances, problematic_txs) := replay starting_balances txs in
  let final_balances := drop_negligible running_balances in
  let errors :=
    match problematic_txs with
    | [] => []
    | _ :: _ =>
        let sorted_problems :=
          py_sort (fun p q => Dltb (deficit q) (deficit p)) problematic_txs in
        [InsufficientFunds (length problematic_txs)]
          ++ map TriedToSpend (take 5 sorted_problems)
          ++ (if (5 <? length sorted_problems)%nat
              then [AndMore (length sorted_problems - 5)] else [])
    end in
  ({| valid := match errors with [] => true | _ => false end;
      errors := errors;
      info := match errors with [] => [year] | _ => [] end;
      starting_balances := starting_balances;
      ending_balances := final_balances;
      problematic_transactions := problematic_txs |},
   <[year := final_balances]> balance_history).




(** The content of the balance file: the JSON object, as the list of its
    members in file order.  [json.dump] followed by [json.load] gives back
    an equal object for a dict of dicts of strings. *)
Definition balance_file_content : Type := list (string * list (string * string)).

(** [serializable_history] of [save_balance_state]. *)
Definition serializable_history (balance_history : gmap Z (gmap string Decimal))
  : balance_file_content :=
  map (fun '(year, balances) =>
         (str_of_int year,
          map (fun '(c, a) => (c, str_of_Decimal a))
              (map_to_list (drop_negligible balances))))
      (map_to_list balance_history).

(** [save_balance_state]: the file after the call ([None] is a file that
    does not exist).  The write is taken to succeed; on an [OSError] the
    method only logs and leaves whatever the file held. *)
Definition save_balance_state (balance_history : gmap Z (gmap string Decimal))
  : option balance_file_content :=
  Some (serializable_history balance_history).

(** A dict comprehension over parsed members: a later member with the same
    key replaces an earlier one; a member that fails to parse raises. *)
Definition read_balances (balances : list (string * string))
  : option (gmap string Decimal) :=
  l ← mapM (fun '(c, a) => d ← Decimal_of_str a; Some (c, d)) balances;
  Some (list_to_map (reverse l)).

(** [_load_balance_state]; the outer [None] stands for an exception that
    the method does not catch ([ValueError], [InvalidOperation]). *)
Definition _load_balance_state (file : option balance_file_content)
  : option (gmap Z (gmap string Decimal)) :=
  match file with
  | None => Some ∅
  | Some raw_data =>
      l ← mapM (fun '(year, balances) =>
                  y ← int_of_str year; b ← read_balances balances; Some (y, b))
               raw_data;
      Some (list_to_map (reverse l))
  end.

End BalanceTracker.

(** ** kryptosekken_validator.py: the balance check *)

Module KryptosekkenValidator.

Inductive ValidationIssueLevel := error | warning | info.

#[global] Instance ValidationIssueLevel_eq_dec : EqDecision ValidationIssueLevel.
Proof. intros a b. unfold Decision. decide equality. Defined.

(** The messages of [_validate_currency_balances], each with the currency
    and the balance its text reports. *)
Inductive message :=
| NegativeBalancesDetected
| NegativeBalance (currency : string) (balance : Decimal)
| LPTokenNegativeBalances
| LPTokenNegative (currency : string) (balance : Decimal)
| AllRegularNonNegative
| AllNonNegative
| BalanceSummary
| SummaryLine (ok : bool) (currency : string) (balance : Decimal).

Record ValidationIssue := mkIssue {
  level : ValidationIssueLevel;
  msg : message;
  issue_row : option Z
}.

Definition add_in (tx : KryptosekkenTransaction) (b : list (string * Decimal)) :=
  match inn tx, str_truthy (inn_valuta tx) with
  | Some a, Some c => dict_upd Dzero (fun v => Dadd v a) c b
  | _, _ => b
  end.

Definition sub_ut (tx : KryptosekkenTransaction) (b : list (string * Decimal)) :=
  match ut tx, str_truthy (ut_valuta tx) with
  | Some a, Some c => dict_upd Dzero (fun v => Dsub v a) c b
  | _, _ => b
  end.

Definition sub_gebyr (tx : KryptosekkenTransaction) (b : list (string * Decimal)) :=
  match gebyr tx, str_truthy (gebyr_valuta tx) with
  | Some a, Some c => dict_upd Dzero (fun v => Dsub v a) c b
  | _, _ => b
  end.

(** [currency_balances] after the first loop, in insertion order. *)
Definition currency_balances (txs : list KryptosekkenTransaction)
  : list (string * Decimal) :=
  fold_left (fun b tx => sub_gebyr tx (sub_ut tx (add_in tx b))) txs [].

Definition below_tolerance (balance : Decimal) : bool :=
  Dltb balance (Dneg BALANCE_TOLERANCE).

Definition is_lp_token (c : string) : bool :=
  contains "-" c && negb (bool_decide (c ∈ ["NOK"; "USD"; "EUR"])).

Definition negative_balances (b : list (string * Decimal)) : list (string * Decimal) :=
  List.filter (fun cb => below_tolerance (snd cb) && negb (is_lp_token (fst cb))) b.

Definition negative_lp_tokens (b : list (string * Decimal)) : list (string * Decimal) :=
  List.filter (fun cb => below_tolerance (snd cb) && is_lp_token (fst cb)) b.

(** [sorted(currency_balances.items())]: by currency code, then balance. *)
Definition sorted_items (b : list (string * Decimal)) : list (string * Decimal) :=
  py_sort (fun x y => String.ltb (fst x) (fst y)
                      || (String.eqb (fst x) (fst y) && Dltb (snd x) (snd y))) b.

(** The issues [_validate_currency_balances] adds, in order. *)
Definition _validate_currency_balances (txs : list KryptosekkenTransaction)
  : list ValidationIssue :=
  let b := currency_balances txs in
  let neg := negative_balances b in
  let lp := negative_lp_tokens b in
  (match neg with
   | [] => []
   | _ :: _ =>
       mkIssue error NegativeBalancesDetected None
         :: map (fun cb => mkIssue error (NegativeBalance (fst cb) (snd cb)) None) neg
   end)
  ++ (match lp with
      | [] => []
      | _ :: _ =>
          mkIssue warning LPTokenNegativeBalances None
            :: map (fun cb => mkIssue warning (LPTokenNegative (fst cb) (snd cb)) None) lp
      end)
  ++ (match neg, lp with
      | [], _ :: _ => [mkIssue info AllRegularNonNegative None]
      | [], [] => [mkIssue info AllNonNegative None]
      | _ :: _, _ => []
      end)
  ++ mkIssue info BalanceSummary None
     :: map (fun cb => mkIssue info
                         (SummaryLine (negb (below_tolerance (snd cb))) (fst cb) (snd cb))
                         None)
            (sorted_items b).

End KryptosekkenValidator.

(** The events of a list of groups, in group order. *)
Definition members (gs : list TransactionGroup) : list CakeTransaction :=
  flat_map transactions gs.

(** The three kinds of legs [_convert_swap_group] tells apart, per currency. *)
Definition fee_leg (c : string) (tx : CakeTransaction) : bool :=
  bool_decide (operation tx = "Paid swap fee") && bool_decide (coin_asset tx = c).

Definition outgoing_leg (c : string) (tx : CakeTransaction) : bool :=
  negb (bool_decide (operation tx = "Paid swap fee"))
  && Dltb (amount tx) Dzero && bool_decide (coin_asset tx = c).

Definition incoming_leg (c : string) (tx : CakeTransaction) : bool :=
  negb (bool_decide (operation tx = "Paid swap fee"))
  && Dgtb (amount tx) Dzero && bool_decide (coin_asset tx = c).

(** The value a [defaultdict(Decimal)] holds for a key after the amounts
    [l] were added to it one by one: no entry when nothing was added. *)
Definition accumulated (l : list Decimal) : option Decimal :=
  match l with
  | [] => None
  | _ :: _ => Some (Dsum l)
  end.

(** The sum of a list of rationals. *)
Definition Qsum (l : list Q) : Q := fold_right Qplus 0%Q l.

(** The invariant of a canonical transaction: an incoming or an outgoing
    amount is present. *)
Definition has_side (k : KryptosekkenTransaction) : bool :=
  match inn k, ut k with
  | None, None => false
  | _, _ => true
  end.

(** The three dictionaries are well formed and hold, per currency, the
    amounts of the matching legs added up in group order. *)
Definition flows_ok (txs : list CakeTransaction) (f : TransactionGrouper.flows) : Prop :=
  List.NoDup (map fst (TransactionGrouper.incoming_txs f))
  /\ List.NoDup (map fst (TransactionGrouper.outgoing_txs f))
  /\ List.NoDup (map fst (TransactionGrouper.fee_txs f))
  /\ forall c,
      dict_get c (TransactionGrouper.incoming_txs f)
      = accumulated (map amount (List.filter (incoming_leg c) txs))
      /\ dict_get c (TransactionGrouper.outgoing_txs f)
         = accumulated (map (fun tx => Dabs (amount tx)) (List.filter (outgoing_leg c) txs))
      /\ dict_get c (TransactionGrouper.fee_txs f)
         = accumulated (map (fun tx => Dabs (amount tx)) (List.filter (fee_leg c) txs)).

(** Netting only removes entries. *)
Definition flows_within (f' f : TransactionGrouper.flows) : Prop :=
  (List.NoDup (map fst (TransactionGrouper.incoming_txs f'))
   /\ List.NoDup (map fst (TransactionGrouper.outgoing_txs f'))
   /\ List.NoDup (map fst (TransactionGrouper.fee_txs f')))
  /\ forall c a,
      (dict_get c (TransactionGrouper.incoming_txs f') = Some a -> dict_get c (TransactionGrouper.incoming_txs f) = Some a)
      /\ (dict_get c (TransactionGrouper.outgoing_txs f') = Some a -> dict_get c (TransactionGrouper.outgoing_txs f) = Some a)
      /\ (dict_get c (TransactionGrouper.fee_txs f') = Some a -> dict_get c (TransactionGrouper.fee_txs f) = Some a).




(** What files an event of the list under the group id [k]: its related
    reference id, with a label that requires grouping, or its reference when
    it is a liquidity result with no group id of its own. *)
Definition filed_under (txs : list CakeTransaction) (k : string) (m : CakeTransaction)
  : Prop :=
  In m (TransactionGrouper.filter_transactions txs) /\ k <> ""
  /\ ((related_reference_id m = Some k
       /\ OperationMapper.requires_grouping (operation m) = true)
      \/ (reference m = Some k
          /\ In (operation m) ["Added liquidity"; "Removed liquidity"]
          /\ str_truthy (related_reference_id m) = None)).

(** [VALID_TRANSACTION_TYPES] of constants.py (a set, only used for
    membership). *)
Definition VALID_TRANSACTION_TYPES : list string :=
  [ "Handel"; "Erverv"; "Mining"; "Inntekt"; "Tap"; "Forbruk"; "Renteinntekt";
    "Overføring-Inn"; "Overføring-Ut"; "Gave-Inn"; "Gave-Ut"; "Tap-uten-fradrag";
    "Forvaltningskostnad" ].

(** An amount and its currency code come together, and the amount is not
    negative. *)
Definition amount_ok (amount : option Decimal) (valuta : option string) : Prop :=
  match amount, valuta with
  | Some a, Some _ => (0 <= DtoQ a)%Q
  | None, None => True
  | _, _ => False
  end.

(** The shape of a canonical transaction the converter builds. *)
Definition well_formed (k : KryptosekkenTransaction) : Prop :=
  tidspunkt k <> None
  /\ In (type k) VALID_TRANSACTION_TYPES
  /\ marked k = Some "CakeDeFi"
  /\ row_num k = None
  /\ amount_ok (inn k) (inn_valuta k)
  /\ amount_ok (ut k) (ut_valuta k)
  /\ amount_ok (gebyr k) (gebyr_valuta k).

(** ** main_processor.py: is the input in date order? *)

Module CakeTransactionProcessor.

(** The loop shared by the two checks: [True] at the first date that is
    earlier than the one before it. *)
Fixpoint order_broken (prev_date : datetime) (dates : list datetime) : bool :=
  match dates with
  | [] => false
  | current_date :: rest =>
      if dt_ltb current_date prev_date then true else order_broken current_date rest
  end.

(** [None] stands for the [IndexError] of [transactions[0]]. *)
Definition _detailed_order_check (transactions : list CakeTransaction) : option bool :=
  match transactions with
  | [] => None
  | t :: rest => Some (order_broken (date t) (map date rest))
  end.

(** The loop [for i in range(step, len(transactions), step)], from index
    [i] on; [fuel] bounds the number of rounds, and running out of it is
    [None]. *)
Fixpoint sample_loop (fuel : nat) (transactions : list CakeTransaction)
         (i step : nat) (prev_date : datetime) : option bool :=
  match fuel with
  | O => None
  | S fuel' =>
      if (i <? length transactions)%nat then
        match transactions !! i with
        | None => None
        | Some tx =>
            if dt_ltb (date tx) prev_date then Some true
            else sample_loop fuel' transactions (i + step) step (date tx)
        end
      else Some false
  end.

(** [None] stands for the [ZeroDivisionError] of the step on fewer than
    ten transactions, or an [IndexError]. *)
Definition _sample_order_check (transactions : list CakeTransaction) : option bool :=
  let sample_size := Nat.min 50 (length transactions / 10) in
  if (sample_size =? 0)%nat then None
  else
    let step := (length transactions / sample_size)%nat in
    match transactions with
    | [] => None
    | t :: _ => sample_loop (S (length transactions)) transactions step step (date t)
    end.

Definition _check_if_sorting_needed (transactions : list CakeTransaction) : option bool :=
  if (length transactions <=? 1)%nat then Some false
  else
    match transactions, last transactions with
    | t :: _, Some l =>
        let first_date := date t in
        let last_date := date l in
        if dt_ltb last_date first_date then Some true
        else if decide (date_of first_date = date_of last_date)
        then _detailed_order_check transactions
        else if (100 <? length transactions)%nat
        then _sample_order_check transactions
        else _detailed_order_check transactions
    | _, _ => None
    end.

(** Step 1.5 of [process_file]: the list handed to the grouper. *)
Definition sorted_if_needed (cake_transactions : list CakeTransaction)
  : option (list CakeTransaction) :=
  needs_sorting ← _check_if_sorting_needed cake_transactions;
  Some (if needs_sorting : bool then sort_by_date cake_transactions else cake_transactions).

End CakeTransactionProcessor.

(** ** constants.py: the checks on a currency code and on an amount *)

(** A character of the class [[A-Za-z0-9-]]. *)
Definition code_char (c : ascii) : bool :=
  let n := nat_of_ascii c in
  ((65 <=? n) && (n <=? 90) || (97 <=? n) && (n <=? 122)
   || (48 <=? n) && (n <=? 57) || (n =? 45))%nat.

Fixpoint all_code_chars (s : string) : bool :=
  match s with
  | EmptyString => true
  | String c r => code_char c && all_code_chars r
  end.

(** The string without the line feed that may end it: in the pattern
    [^[A-Za-z0-9-]{1,16}$] the [$] also matches just before a final line
    feed. *)
Fixpoint strip_final_newline (s : string) : string :=
  match s with
  | EmptyString => EmptyString
  | String c EmptyString => if (nat_of_ascii c =? 10)%nat then EmptyString else s
  | String c r => String c (strip_final_newline r)
  end.

(** [bool(CURRENCY_CODE_PATTERN.match(code))].  A string is a sequence of
    bytes here; a character outside ASCII is outside the class in Python
    and its bytes are outside the class here. *)
Definition is_valid_currency_code (code : string) : bool :=
  let body := strip_final_newline code in
  ((1 <=? String.length body) && (String.length body <=? 16))%nat
  && all_code_chars body.

Definition MAX_DECIMAL_INTEGER_DIGITS : Z := 18.
Definition MAX_DECIMAL_PLACES : Z := 18.

(** [is_valid_decimal_precision(amount)] on a finite Decimal: [digits] of
    [as_tuple()] are the digits of the coefficient. *)
Definition is_valid_decimal_precision (amount : Decimal) : bool :=
  let num_digits := Z.of_nat (String.length (str_of_N (Z.abs_N (coef amount)))) in
  let exponent := dexp amount in
  let decimal_places := if exponent <? 0 then - exponent else 0 in
  let integer_digits :=
    if 0 <=? exponent then Z.max 0 (num_digits + exponent)
    else num_digits - Z.abs exponent in
  (integer_digits <=? MAX_DECIMAL_INTEGER_DIGITS)
  && (decimal_places <=? MAX_DECIMAL_PLACES).

(** ** kryptosekken_formatter.py *)

Module KryptosekkenFormatter.

(** The error messages of [validate_transaction], each with the values its
    text is made of. *)
Inductive format_error :=
| TidspunktRequired
| TypeRequired
| InnOrUtRequired
| CurrencyRequired (amount_name : string)
| PrecisionExceeded (amount_name : string) (amount : Decimal)
| CurrencyInvalid (amount_name : string) (currency : string).

(** One round of the loop over the three amount/currency pairs. *)
Definition field_errors (name_prefix : string) (amount : option Decimal)
           (currency : option string) : list format_error :=
  (match amount with
   | Some a =>
       (match str_truthy currency with
        | None => [CurrencyRequired name_prefix]
        | Some _ => []
        end)
       ++ (if is_valid_decimal_precision a then []
           else [PrecisionExceeded name_prefix a])
   | None => []
   end)
  ++ (match str_truthy currency with
      | Some c => if is_valid_currency_code c then [] else [CurrencyInvalid name_prefix c]
      | None => []
      end).

Definition validate_transaction (tx : KryptosekkenTransaction) : list format_error :=
  (match tidspunkt tx with None => [TidspunktRequired] | Some _ => [] end)
  ++ (if decide (type tx = "") then [TypeRequired] else [])
  ++ (match inn tx, ut tx with None, None => [InnOrUtRequired] | _, _ => [] end)
  ++ field_errors "Inn" (inn tx) (inn_valuta tx)
  ++ field_errors "Ut" (ut tx) (ut_valuta tx)
  ++ field_errors "Gebyr" (gebyr tx) (gebyr_valuta tx).

(** The result of [validate_transactions]: [errors] holds the pairs
    (position, error) behind the texts "Transaction <position>: <error>",
    [transaction_errors] the dictionary in insertion order. *)
Record validation := mkValidation {
  valid : bool;
  errors : list (nat * format_error);
  transaction_errors : list (nat * list format_error)
}.

Definition validate_transactions (transactions : list KryptosekkenTransaction)
  : validation :=
  let transaction_errors :=
    List.filter (fun ie => match snd ie with [] => false | _ => true end)
                (imap (fun i tx => (S i, validate_transaction tx)) transactions) in
  let all_errors :=
    flat_map (fun ie => map (fun err => (fst ie, err)) (snd ie)) transaction_errors in
  {| valid := match all_errors with [] => true | _ => false end;
     errors := all_errors;
     transaction_errors := transaction_errors |}.

End KryptosekkenFormatter.

(** ** kryptosekken_validator.py: the structure of a row *)

Module StructureCheck.

(** The issues of [_validate_structure_and_fields], all of level "error". *)
Inductive structure_issue :=
| TidspunktMissing
| TypeMissing
| TypeInvalid (type : string)
| AmountMissing
| ValutaMissing (amount_name : string)
| ValutaFormat (name code : string).

Definition valuta_missing (amount_name : string) (amount : option Decimal)
           (valuta : option string) : list structure_issue :=
  match amount, str_truthy valuta with
  | Some _, None => [ValutaMissing amount_name]
  | _, _ => []
  end.

Definition valuta_format (name : string) (code : option string) : list structure_issue :=
  match str_truthy code with
  | Some c => if is_valid_currency_code c then [] else [ValutaFormat name c]
  | None => []
  end.

(** The issues one row adds. *)
Definition row_issues (tx : KryptosekkenTransaction) : list structure_issue :=
  (match tidspunkt tx with None => [TidspunktMissing] | Some _ => [] end)
  ++ (if decide (type tx = "") then [TypeMissing]
      else if bool_decide (type tx ∈ VALID_TRANSACTION_TYPES) then []
      else [TypeInvalid (type tx)])
  ++ (match inn tx, ut tx with None, None => [AmountMissing] | _, _ => [] end)
  ++ valuta_missing "Inn" (inn tx) (inn_valuta tx)
  ++ valuta_missing "Ut" (ut tx) (ut_valuta tx)
  ++ valuta_missing "Gebyr" (gebyr tx) (gebyr_valuta tx)
  ++ valuta_format "Inn-Valuta" (inn_valuta tx)
  ++ valuta_format "Ut-Valuta" (ut_valuta tx)
  ++ valuta_format "Gebyr-Valuta" (gebyr_valuta tx).

(** Each issue with the row number it is reported for. *)
Definition _validate_structure_and_fields (transactions : list KryptosekkenTransaction)
  : list (structure_issue * option Z) :=
  flat_map (fun tx => map (fun i => (i, row_num tx)) (row_issues tx)) transactions.

End StructureCheck.

(** What the formatter asks of an amount and its currency code. *)
Definition field_ok (amount : option Decimal) (currency : option string) : Prop :=
  (forall a, amount = Some a ->
             str_truthy currency <> None /\ is_valid_decimal_precision a = true)
  /\ (forall c, str_truthy currency = Some c -> is_valid_currency_code c = true).

(** The one complaint of the formatter the validator's structure check
    does not share. *)
Definition is_precision_error (e : KryptosekkenFormatter.format_error) : Prop :=
  match e with
  | KryptosekkenFormatter.PrecisionExceeded _ _ => True
  | _ => False
  end.

(** [date.year] of a day number (days since 1970-01-01), computed as
    Python's [_ord2ymd] computes it from the ordinal: 400-, 100-, 4- and
    1-year cycles of the proleptic Gregorian calendar. *)
Definition year_of_day (d : Z) : Z :=
  let n := d + 719163 - 1 in
  let n400 := n / 146097 in
  let n := n mod 146097 in
  let n100 := n / 36524 in
  let n := n mod 36524 in
  let n4 := n / 1461 in
  let n := n mod 1461 in
  let n1 := n / 365 in
  let year := n400 * 400 + 1 + n100 * 100 + n4 * 4 + n1 in
  if (n1 =? 4) || (n100 =? 4) then year - 1 else year.

(** [dt.year] *)
Definition year (dt : datetime) : Z := year_of_day (date_of dt).

Module YearlyFiles.

Definition has_tidspunkt (tx : KryptosekkenTransaction) : bool :=
  match tidspunkt tx with Some _ => true | None => false end.

(** [tx.tidspunkt.year], for a transaction that has a timestamp. *)
Definition tidspunkt_year (tx : KryptosekkenTransaction) : Z :=
  match tidspunkt tx with Some dt => year dt | None => 0 end.

(** [a.tidspunkt < b.tidspunkt], for transactions that have a timestamp. *)
Definition tidspunkt_ltb (a b : KryptosekkenTransaction) : bool :=
  match tidspunkt a, tidspunkt b with
  | Some x, Some y => dt_ltb x y
  | _, _ => false
  end.

(** [KryptosekkenFormatter.to_csv_files_by_year]: the years in the order
    their files are created, each with the rows handed to [to_csv_file]. *)
Definition to_csv_files_by_year (transactions : list KryptosekkenTransaction)
  : list (Z * list KryptosekkenTransaction) :=
  match transactions with
  | [] => []
  | _ :: _ =>
      let transactions_by_year :=
        group_by tidspunkt_year (List.filter has_tidspunkt transactions) in
      map (fun year =>
             (year,
              py_sort tidspunkt_ltb (default [] (dict_get year transactions_by_year))))
          (py_sort Z.ltb (map fst transactions_by_year))
  end.

End YearlyFiles.


(** Whether the netting loop of [_convert_swap_group] removes currency [c]:
    the group has incoming legs in [c], it has outgoing or fee legs in [c],
    and what comes in and what goes out differ by less than 1e-9. *)
Definition netted (txs : list CakeTransaction) (c : string) : bool :=
  let inn := map amount (List.filter (incoming_leg c) txs) in
  let out := map (fun tx => Dabs (amount tx)) (List.filter (outgoing_leg c) txs) in
  let fee := map (fun tx => Dabs (amount tx)) (List.filter (fee_leg c) txs) in
  match inn with
  | [] => false
  | _ :: _ =>
      (match out with [] => false | _ :: _ => true end
       || match fee with [] => false | _ :: _ => true end)
      && Dltb (Dabs (Dsub (Dsum inn) (Dadd (Dsum out) (Dsum fee)))) (mkDec 1 (-9))
  end.

(** The entries of a dictionary whose key was not netted among [done]. *)
Definition without_netted {V : Type} (txs : list CakeTransaction) (done : list string)
           (d : list (string * V)) : list (string * V) :=
  List.filter (fun kv => negb (netted txs (fst kv) && bool_decide (fst kv ∈ done))) d.

(** [TransactionGrouper._group_swap_transactions]: the events that carry a
    group id and require grouping, filed by that id; an id with a single
    event gives no group. *)
Definition _group_swap_transactions (txs : list CakeTransaction) : list TransactionGroup :=
  let swap_groups :=
    group_by (fun tx => default "" (related_reference_id tx))
             (List.filter TransactionGrouper.goes_to_initial_group txs) in
  flat_map
    (fun '(ref_id, tx_list) =>
       if (1 <? length tx_list)%nat
       then [mkGroup (sort_by_date tx_list) "swap" (Some ref_id)]
       else [])
    swap_groups.

(** The events of [txs] that [_group_swap_transactions] files under [id]. *)
Definition swap_members (txs : list CakeTransaction) (id : string) : list CakeTransaction :=
  List.filter
    (fun tx => bool_decide (related_reference_id tx = Some id)
               && OperationMapper.requires_grouping (operation tx))
    txs.



(** What a row adds to the income reported in currency [c]: the incoming
    amount of an Inntekt row in that currency. *)
Definition income_of_row (c : string) (r : KryptosekkenTransaction) : Q :=
  if bool_decide (type r = "Inntekt") && bool_decide (inn_valuta r = Some c)
  then DtoQ (default Dzero (inn r)) else 0%Q.

Definition reported_income (c : string) (rows : list KryptosekkenTransaction) : Q :=
  Qsum (map (income_of_row c) rows).






(** ** Scenarios *)

(** A withdrawal row of a yearly file. *)
Definition withdrawal (a : Decimal) (c : string) (r : Z) : KryptosekkenTransaction :=
  {| tidspunkt := None; type := value OVERFORING_UT; inn := None; inn_valuta := None;
     ut := Some a; ut_valuta := Some c; gebyr := None; gebyr_valuta := None;
     marked := Some "CakeDeFi"; notat := None; row_num := Some r |}.

(** Opening balances [{BTC: 2.0}] carried over from 2022, and a 2023 file
    that withdraws 1.5 BTC and then 1.0 BTC. *)
Definition btc_history : gmap Z (gmap string Decimal) :=
  {[ 2022 := {[ "BTC" := mkDec 20 (-1) ]} ]}.

Definition btc_year : list KryptosekkenTransaction :=
  [ withdrawal (mkDec 15 (-1)) "BTC" 2; withdrawal (mkDec 10 (-1)) "BTC" 3 ].

(** A rate cache with quotes on day 19000 (9.85) and day 19003 (10.02). *)
Definition two_rates : gmap Z Decimal :=
  {[ 19000 := mkDec 985 (-2); 19003 := mkDec 1002 (-2) ]}.

(** Midnight UTC of a day number, as a naive datetime. *)
Definition midnight (day : Z) : datetime := mkDT (days day) 0.

(** An event with the given label, amount and currency at a given time. *)
Definition event (d : datetime) (op : string) (a : Decimal) (coin : string)
           (ref rel : option string) : CakeTransaction :=
  {| date := d; operation := op; amount := a; coin_asset := coin;
     fiat_value := a; fiat_currency := "USD"; transaction_id := None;
     withdrawal_address := None; reference := ref; related_reference_id := rel;
     original_index := None |}.


(** A naive datetime: [s] seconds into day [day]. *)
Definition at_time (day s : Z) : datetime := mkDT (days day + seconds s) 0.

(** Three events sharing a group id: withdraw 0.191 ETH, pay a fee of
    0.00096 ETH, deposit 32.79 DFI. *)
Definition swap_events : list CakeTransaction :=
  [ event (at_time 19025 72729) "Withdrew for swap" (mkDec (-191) (-3)) "ETH"
          (Some "w1") (Some "swap-1");
    event (at_time 19025 72729) "Paid swap fee" (mkDec (-96) (-5)) "ETH"
          (Some "f1") (Some "swap-1");
    event (at_time 19025 72729) "Deposit" (mkDec 3279 (-2)) "DFI"
          (Some "d1") (Some "swap-1") ].


(** Two staking rewards of the same day in DFI, 0.5 and -0.75 (a reward and
    a larger reversal), worth 0.0005 USD each in absolute value. *)
Definition reward_1 : CakeTransaction :=
  {| date := at_time 19000 3600; operation := "Staking reward";
     amount := mkDec 5 (-1); coin_asset := "DFI";
     fiat_value := mkDec 5 (-4); fiat_currency := "USD"; transaction_id := None;
     withdrawal_address := None; reference := Some "r1";
     related_reference_id := None; original_index := None |}.



(** A deposit of amount zero, with no group id. *)
Definition zero_deposit : CakeTransaction :=
  event (at_time 19000 3600) "Deposit" (mkDec 0 0) "DFI" (Some "d0") None.

(** A withdrawal followed, at the same second, by the three events of an
    add-liquidity action sharing the group id "liq-1". *)
Definition withdrawal_then_liquidity : list CakeTransaction :=
  [ event (at_time 19000 3600) "Withdrawal" (mkDec (-1) 0) "BTC" (Some "w0") None;
    event (at_time 19000 3600) "Add liquidity BTC-DFI" (mkDec (-5) (-1)) "BTC"
          (Some "a1") (Some "liq-1");
    event (at_time 19000 3600) "Add liquidity BTC-DFI" (mkDec (-100) 0) "DFI"
          (Some "a2") (Some "liq-1");
    event (at_time 19000 3600) "Added liquidity" (mkDec 7 0) "BTC-DFI"
          (Some "a3") (Some "liq-1") ].

(** ETH staking rewards of one week: one on Monday (day 18995), two on
    Tuesday. *)
Definition eth_week : list CakeTransaction :=
  [ event (at_time 18995 3600) "Staking reward" (mkDec 1 (-2)) "ETH" (Some "m1") None;
    event (at_time 18996 3600) "Staking reward" (mkDec 2 (-2)) "ETH" (Some "t1") None;
    event (at_time 18996 7200) "Staking reward" (mkDec 3 (-2)) "ETH" (Some "t2") None ].

(** A yearly file that withdraws 1 BTC and 2 units of the LP token BTC-DFI
    without any inflow, and a yearly file that only withdraws 0.0000005 ETH. *)
Definition negative_year : list KryptosekkenTransaction :=
  [ withdrawal (mkDec 1 0) "BTC" 2; withdrawal (mkDec 2 0) "BTC-DFI" 3 ].

Definition dust_year : list KryptosekkenTransaction :=
  [ withdrawal (mkDec 5 (-7)) "ETH" 2 ].

(** A yearly file that only withdraws 2 units of the LP token BTC-DFI. *)
Definition lp_year : list KryptosekkenTransaction :=
  [ withdrawal (mkDec 2 0) "BTC-DFI" 2 ].



(** A list of 101 events whose second and third events are out of order
    (one hour into day 19000, then the start of that day), between a first
    event at the start of day 19000 and 98 events on day 19001. *)
Definition unsorted_long : list CakeTransaction :=
  event (midnight 19000) "Staking reward" (mkDec 1 0) "DFI" None None
  :: event (at_time 19000 3600) "Staking reward" (mkDec 1 0) "DFI" None None
  :: event (midnight 19000) "Staking reward" (mkDec 1 0) "DFI" None None
  :: repeat (event (midnight 19001) "Staking reward" (mkDec 1 0) "DFI" None None) 98.

(** * Properties *)

(** ** Decimal arithmetic is exact *)

Section DecimalFacts.

Local Open Scope Q_scope.

Lemma ten_neq_0 : ~ (10 # 1) == 0.
Proof. intros H. discriminate H. Qed.

Lemma ten_pow_pos (e : Z) : 0 < (10 # 1) ^ e.
Proof. apply Qpower_0_lt. reflexivity. Qed.

Lemma align_value (e : Z) (d : Decimal) :
  (e <= dexp d)%Z -> inject_Z (align e d) * (10 # 1) ^ e == DtoQ d.
Proof.
  intros He. unfold align, DtoQ.
  rewrite inject_Z_mult, Zpower_Qpower by lia.
  change (inject_Z 10) with (10 # 1).
  rewrite <- Qmult_assoc, <- Qpower_plus by apply ten_neq_0.
  replace (dexp d - e + e)%Z with (dexp d) by lia. reflexivity.
Qed.

Lemma DtoQ_Dadd (a b : Decimal) : DtoQ (Dadd a b) == DtoQ a + DtoQ b.
Proof.
  rewrite <- (align_value (Z.min (dexp a) (dexp b)) a) by lia.
  rewrite <- (align_value (Z.min (dexp a) (dexp b)) b) by lia.
  unfold Dadd, DtoQ at 1. cbn [coef dexp].
  rewrite inject_Z_plus. ring.
Qed.




Lemma DtoQ_Dabs (a : Decimal) : DtoQ (Dabs a) == Qabs (DtoQ a).
Proof.
  unfold Dabs, DtoQ. cbn [coef dexp].
  rewrite Qabs_Qmult, (Qabs_pos ((10 # 1) ^ dexp a)) by apply Qlt_le_weak, ten_pow_pos.
  apply Qmult_comp; [| reflexivity].
  unfold Qabs, inject_Z. reflexivity.
Qed.

Lemma DtoQ_Dzero : DtoQ Dzero == 0.
Proof. reflexivity. Qed.

Lemma Dcompare_spec (a b : Decimal) : Dcompare a b = (DtoQ a ?= DtoQ b).
Proof.
  unfold Dcompare.
  rewrite <- (align_value (Z.min (dexp a) (dexp b)) a) by lia.
  rewrite <- (align_value (Z.min (dexp a) (dexp b)) b) by lia.
  set (x := align _ a). set (y := align _ b).
  set (p := (10 # 1) ^ _). assert (Hp : 0 < p) by apply ten_pow_pos.
  clearbody x y p.
  destruct (Z.compare_spec x y) as [H | H | H]; symmetry.
  - subst. apply Qeq_alt. reflexivity.
  - apply Qlt_alt. apply Qmult_lt_r; [exact Hp |]. rewrite <- Zlt_Qlt. exact H.
  - apply Qgt_alt. apply Qmult_lt_r; [exact Hp |]. rewrite <- Zlt_Qlt. exact H.
Qed.

Lemma Dltb_lt (a b : Decimal) : Dltb a b = true <-> DtoQ a < DtoQ b.
Proof.
  unfold Dltb. rewrite Dcompare_spec, Qlt_alt.
  destruct (DtoQ a ?= DtoQ b); split; congruence.
Qed.

Lemma Dltb_zero (a : Decimal) : Dltb a Dzero = (coef a <? 0)%Z.
Proof.
  unfold Dltb, Dcompare, align, Dzero. cbn [coef dexp].
  rewrite Z.mul_0_l.
  assert (Hp : (0 < 10 ^ (dexp a - Z.min (dexp a) 0))%Z)
    by (apply Z.pow_pos_nonneg; lia).
  destruct (Z.ltb_spec (coef a) 0) as [H | H].
  - assert (coef a * 10 ^ (dexp a - Z.min (dexp a) 0) < 0)%Z by nia.
    destruct (Z.compare_spec (coef a * 10 ^ (dexp a - Z.min (dexp a) 0)) 0);
      [lia | reflexivity | lia].
  - assert (0 <= coef a * 10 ^ (dexp a - Z.min (dexp a) 0))%Z by nia.
    destruct (Z.compare_spec (coef a * 10 ^ (dexp a - Z.min (dexp a) 0)) 0);
      [reflexivity | lia | reflexivity].
Qed.

Lemma Dgtb_zero (a : Decimal) : Dgtb a Dzero = (0 <? coef a)%Z.
Proof.
  unfold Dgtb, Dltb, Dcompare, align, Dzero. cbn [coef dexp].
  rewrite Z.mul_0_l.
  assert (Hp : (0 < 10 ^ (dexp a - Z.min 0 (dexp a)))%Z)
    by (apply Z.pow_pos_nonneg; lia).
  destruct (Z.ltb_spec 0 (coef a)) as [H | H].
  - assert (0 < coef a * 10 ^ (dexp a - Z.min 0 (dexp a)))%Z by nia.
    destruct (Z.compare_spec 0 (coef a * 10 ^ (dexp a - Z.min 0 (dexp a))));
      [lia | reflexivity | lia].
  - assert (coef a * 10 ^ (dexp a - Z.min 0 (dexp a)) <= 0)%Z by nia.
    destruct (Z.compare_spec 0 (coef a * 10 ^ (dexp a - Z.min 0 (dexp a))));
      [reflexivity | lia | reflexivity].
Qed.

End DecimalFacts.

(** ** The yearly replay of the balance ledger *)

Section ReplayFacts.

Import BalanceTracker.








End ReplayFacts.



(** ** The rate lookup *)

Section LookupFacts.

Import CurrencyConverter.

Variable cache : gmap Z Decimal.

Lemma fst_bind {A B} (m : Lookup A) (k : A -> Lookup B) :
  fst (bind m k) = fst (k (fst m)).
Proof. unfold bind. now destruct (k (fst m)). Qed.









End LookupFacts.

(** ** Rounding to the precision of the report currency *)


Section QuantizeFacts.

Local Open Scope Q_scope.



End QuantizeFacts.

Lemma fst_get_usd_to_nok_rate (cache : gmap Z Decimal) (dt : datetime) :
  fst (CurrencyConverter.get_usd_to_nok_rate cache dt)
  = default FALLBACK_USD_NOK_RATE
      (fst (CurrencyConverter._find_rate_for_date cache (date_of dt))).
Proof.
  unfold CurrencyConverter.get_usd_to_nok_rate. rewrite fst_bind.
  now destruct (fst (CurrencyConverter._find_rate_for_date cache (date_of dt))).
Qed.





(** ** Sorting, dictionaries and grouping keep the elements *)

Section PyListFacts.

Context {A : Type}.

Lemma sort_insert_perm (before : A -> A -> bool) (x : A) (l : list A) :
  Permutation (sort_insert before x l) (x :: l).
Proof.
  induction l as [| y l IH]; cbn; [reflexivity |].
  destruct (before y x); [| reflexivity].
  rewrite IH. apply perm_swap.
Qed.

Lemma py_sort_perm (before : A -> A -> bool) (l : list A) :
  Permutation (py_sort before l) l.
Proof.
  induction l as [| x l IH]; cbn; [reflexivity |].
  rewrite sort_insert_perm. now apply perm_skip.
Qed.

Lemma py_sort_In (before : A -> A -> bool) (l : list A) (x : A) :
  In x (py_sort before l) <-> In x l.
Proof.
  split; apply Permutation_in; [| symmetry]; apply py_sort_perm.
Qed.

Lemma py_sort_length (before : A -> A -> bool) (l : list A) :
  length (py_sort before l) = length l.
Proof. apply Permutation_length, py_sort_perm. Qed.

Context {K : Type} `{EqDecision K}.

Lemma dict_upd_extend (k : K) (xs : list A) (d : list (K * list A)) :
  Permutation (concat (map snd (dict_upd [] (fun vs => vs ++ xs) k d)))
              (concat (map snd d) ++ xs).
Proof.
  induction d as [| [k' vs] d IH]; cbn.
  - now rewrite app_nil_r.
  - destruct (decide (k = k')); cbn.
    + rewrite <- !app_assoc. apply Permutation_app_head, Permutation_app_comm.
    + rewrite IH. now rewrite app_assoc.
Qed.

Lemma group_by_perm_from (key : A -> K) (l : list A) (d : list (K * list A)) :
  Permutation
    (concat (map snd (fold_left (fun d x => dict_upd [] (fun vs => vs ++ [x]) (key x) d) l d)))
    (concat (map snd d) ++ l).
Proof.
  revert d. induction l as [| x l IH]; intros d; cbn [fold_left].
  - now rewrite app_nil_r.
  - rewrite IH, dict_upd_extend, <- app_assoc. reflexivity.
Qed.

Lemma group_by_perm (key : A -> K) (l : list A) :
  Permutation (concat (map snd (group_by key l))) l.
Proof. unfold group_by. now rewrite group_by_perm_from. Qed.

Lemma group_by_In (key : A -> K) (l vs : list A) (k : K) (x : A) :
  In (k, vs) (group_by key l) -> In x vs -> In x l.
Proof.
  intros Hg Hx. apply (Permutation_in _ (group_by_perm key l)).
  apply in_concat. exists vs. split; [| exact Hx].
  apply in_map_iff. now exists (k, vs).
Qed.

End PyListFacts.

Lemma fold_extend_perm {A B K : Type} `{EqDecision K}
      (kf : B -> K) (vf : B -> list A) (l : list B) (d : list (K * list A)) :
  Permutation
    (concat (map snd (fold_left (fun d b => dict_upd [] (fun vs => vs ++ vf b) (kf b) d) l d)))
    (concat (map snd d) ++ flat_map vf l).
Proof.
  revert d. induction l as [| x l IH]; intros d; cbn [fold_left flat_map].
  - now rewrite app_nil_r.
  - rewrite IH, dict_upd_extend, <- app_assoc. reflexivity.
Qed.

(** ** The grouper only regroups the events that pass the filter *)

Section GrouperMembers.

Import OperationMapper TransactionGrouper.

Lemma split_by_gap_concat prev cur rest :
  concat (split_by_gap prev cur rest) = cur ++ rest.
Proof.
  revert prev cur. induction rest as [| x rest IH]; intros prev cur; cbn.
  - now rewrite app_nil_r.
  - destruct (MAX_TIME_DELTA <? _).
    + cbn. now rewrite IH.
    + rewrite IH, <- app_assoc. reflexivity.
Qed.

Lemma split_group_perm l : Permutation (concat (split_group l)) l.
Proof.
  unfold split_group.
  pose proof (py_sort_perm (fun a b => dt_ltb (date a) (date b)) l) as H.
  fold (sort_by_date l) in H. destruct (sort_by_date l) as [| t rest].
  - exact H.
  - rewrite split_by_gap_concat. exact H.
Qed.

(** Groups built from the value lists of a dictionary, keeping the lists
    with more than one element. *)
Lemma big_groups_members {K : Type} (d : list (K * list CakeTransaction)) tx :
  In tx (members (flat_map
                    (fun '(_, tx_list) =>
                       if (1 <? length tx_list)%nat
                       then [mkGroup (sort_by_date tx_list) "daily_rewards" None]
                       else []) d)) ->
  In tx (concat (map snd d)).
Proof.
  unfold members. intros H.
  apply in_flat_map in H as [g [Hg Htx]].
  apply in_flat_map in Hg as [[k l] [Hkl Hg]].
  destruct (1 <? length l)%nat; [| contradiction].
  destruct Hg as [<- | []]. cbn in Htx. apply py_sort_In in Htx.
  apply in_concat. exists l. split; [| exact Htx].
  apply in_map_iff. now exists (k, l).
Qed.

Lemma weekly_members gs tx :
  In tx (members (_aggregate_eth_daily_to_weekly gs)) -> In tx (members gs).
Proof.
  unfold _aggregate_eth_daily_to_weekly. intros H.
  apply big_groups_members in H.
  eapply Permutation_in in H;
    [| apply (fold_extend_perm
                (fun g => let group_date :=
                            match timestamp g with Some dt => date_of dt | None => 0 end in
                          group_date - weekday group_date) transactions)].
  exact H.
Qed.

Lemma filter_members (P : TransactionGroup -> bool) gs tx :
  In tx (members (List.filter P gs)) -> In tx (members gs).
Proof.
  unfold members. intros H. apply in_flat_map in H as [g [Hg Htx]].
  apply filter_In in Hg as [Hg _]. apply in_flat_map. eauto.
Qed.

Lemma daily_rewards_members txs tx :
  In tx (members (_group_daily_rewards txs)) -> In tx txs /\ is_income tx = true.
Proof.
  unfold _group_daily_rewards.
  set (daily := daily_reward_groups txs).
  assert (Hd : forall x, In x (members daily) -> In x txs /\ is_income x = true).
  { intros x Hx. unfold daily, daily_reward_groups in Hx.
    apply big_groups_members in Hx.
    eapply Permutation_in in Hx; [| apply group_by_perm].
    now apply filter_In in Hx. }
  intros H.
  destruct (List.filter first_coin_is_ETH daily) as [| g gs] eqn:E.
  - apply Hd. eapply filter_members, H.
  - unfold members in H. rewrite flat_map_app in H. apply in_app_or in H as [H | H].
    + apply Hd. eapply filter_members, H.
    + apply Hd. apply weekly_members in H. rewrite <- E in H.
      eapply filter_members, H.
Qed.

Lemma set_original_index_fields i tx :
  operation (set_original_index i tx) = operation tx
  /\ amount (set_original_index i tx) = amount tx
  /\ original_index (set_original_index i tx) = Some i.
Proof. now destruct tx. Qed.


Lemma single_txs_filtered txs x :
  In x (single_txs txs) -> In x (filter_transactions txs).
Proof. unfold single_txs. intros H. now apply filter_In in H. Qed.

Lemma remaining_single_txs_filtered txs x :
  In x (remaining_single_txs txs) -> In x (filter_transactions txs).
Proof.
  unfold remaining_single_txs. intros H. apply filter_In in H as [H _].
  now apply single_txs_filtered.
Qed.



End GrouperMembers.

(** ** The sign-dependent label *)

Lemma entry_staking_wallet_type (a : Decimal) :
  OperationMapper.get_transaction_type "Entry staking wallet" (Some a)
  = if Dltb a Dzero then Some OVERFORING_UT else Some INNTEKT.
Proof.
  unfold OperationMapper.get_transaction_type.
  destruct (decide ("Entry staking wallet" = "Entry staking wallet")); [reflexivity |].
  congruence.
Qed.




(** ** Insertion-ordered dictionaries *)

Section PyDictFacts.

Context {K V : Type} `{EqDecision K}.

Lemma dict_get_upd (dflt : V) (f : V -> V) (k c : K) (d : list (K * V)) :
  dict_get c (dict_upd dflt f k d)
  = if decide (c = k) then Some (f (default dflt (dict_get c d))) else dict_get c d.
Proof.
  induction d as [| [k' v] d IH]; cbn.
  - destruct (decide (c = k)); reflexivity.
  - destruct (decide (k = k')) as [-> | Hk]; cbn.
    + destruct (decide (c = k')); reflexivity.
    + rewrite IH. destruct (decide (c = k')) as [-> | Hc].
      * destruct (decide (k' = k)); [congruence | reflexivity].
      * reflexivity.
Qed.

Lemma dict_upd_keys (dflt : V) (f : V -> V) (k : K) (d : list (K * V)) :
  map fst (dict_upd dflt f k d)
  = if dict_mem k d then map fst d else map fst d ++ [k].
Proof.
  unfold dict_mem. induction d as [| [k' v] d IH]; cbn; [reflexivity |].
  destruct (decide (k = k')) as [-> | Hk]; cbn; [reflexivity |].
  rewrite IH. now destruct (dict_get k d).
Qed.

Lemma dict_get_None (k : K) (d : list (K * V)) :
  dict_get k d = None <-> ~ In k (map fst d).
Proof.
  induction d as [| [k' v] d IH]; cbn; [tauto |].
  destruct (decide (k = k')) as [-> | Hk].
  - split; [discriminate | tauto].
  - rewrite IH. split; [intros H [E | E]; congruence | tauto].
Qed.

Lemma dict_upd_NoDup (dflt : V) (f : V -> V) (k : K) (d : list (K * V)) :
  List.NoDup (map fst d) -> List.NoDup (map fst (dict_upd dflt f k d)).
Proof.
  intros Hd. rewrite dict_upd_keys. unfold dict_mem.
  destruct (dict_get k d) eqn:E; [exact Hd |].
  apply dict_get_None in E.
  apply (Permutation_NoDup (l := k :: map fst d)).
  - apply Permutation_cons_append.
  - now constructor.
Qed.

Lemma dict_pop_In (k : K) (d : list (K * V)) (x : K) :
  In x (map fst (dict_pop k d)) -> In x (map fst d).
Proof.
  induction d as [| [k' v] d IH]; cbn; [tauto |].
  destruct (decide (k = k')); cbn; [tauto |]. intros [E | E]; [tauto | auto].
Qed.

Lemma dict_pop_NoDup (k : K) (d : list (K * V)) :
  List.NoDup (map fst d) -> List.NoDup (map fst (dict_pop k d)).
Proof.
  induction d as [| [k' v] d IH]; cbn; [trivial |].
  intros Hd. inversion Hd as [| ? ? Hnin Hd']; subst.
  destruct (decide (k = k')); cbn; [exact Hd' |].
  constructor; [| auto]. intros Hin. apply Hnin. eapply dict_pop_In, Hin.
Qed.

Lemma dict_get_pop (k c : K) (d : list (K * V)) :
  List.NoDup (map fst d) ->
  dict_get c (dict_pop k d) = if decide (c = k) then None else dict_get c d.
Proof.
  induction d as [| [k' v] d IH]; cbn; intros Hd.
  - now destruct (decide (c = k)).
  - inversion Hd as [| ? ? Hnin Hd']; subst.
    destruct (decide (k = k')) as [-> | Hk]; cbn.
    + destruct (decide (c = k')) as [-> | Hc]; [| reflexivity].
      now apply dict_get_None.
    + rewrite (IH Hd'). destruct (decide (c = k')) as [-> | Hc]; [| reflexivity].
      destruct (decide (k' = k)); [congruence | reflexivity].
Qed.

End PyDictFacts.

(** ** The flows of a swap group *)

Section SwapFlows.

Import TransactionGrouper.

Lemma Dsum_snoc (l : list Decimal) (a : Decimal) : Dsum (l ++ [a]) = Dadd (Dsum l) a.
Proof. unfold Dsum. now rewrite fold_left_app. Qed.

Lemma accumulated_snoc (l : list Decimal) (a : Decimal) :
  accumulated (l ++ [a]) = Some (Dadd (default Dzero (accumulated l)) a).
Proof.
  destruct l as [| x l]; [reflexivity |].
  change ((x :: l) ++ [a]) with (x :: (l ++ [a])).
  cbn [accumulated default]. f_equal. apply (Dsum_snoc (x :: l) a).
Qed.

Lemma Dgtb_not_Dltb (a : Decimal) : Dltb a Dzero = true -> Dgtb a Dzero = false.
Proof.
  rewrite Dltb_zero, Dgtb_zero. intros H. apply Z.ltb_lt in H. apply Z.ltb_ge. lia.
Qed.

Lemma leg_absent (leg : CakeTransaction -> bool) (g : CakeTransaction -> Decimal) txs x :
  leg x = false ->
  map g (List.filter leg (txs ++ [x])) = map g (List.filter leg txs).
Proof. intros H. rewrite List.filter_app. cbn. rewrite H. now rewrite app_nil_r. Qed.

Lemma leg_present (leg : CakeTransaction -> bool) (g : CakeTransaction -> Decimal) txs x :
  leg x = true ->
  map g (List.filter leg (txs ++ [x])) = map g (List.filter leg txs) ++ [g x].
Proof. intros H. rewrite List.filter_app. cbn. rewrite H. now rewrite List.map_app. Qed.

Lemma categorize_ok txs f x : flows_ok txs f -> flows_ok (txs ++ [x]) (categorize f x).
Proof.
  intros (Ni & No & Nf & Hget).
  assert (Hconv : forall f1, incoming_txs (categorize f x) = incoming_txs f1 ->
                             outgoing_txs (categorize f x) = outgoing_txs f1 ->
                             fee_txs (categorize f x) = fee_txs f1 ->
                             flows_ok (txs ++ [x]) f1 ->
                             flows_ok (txs ++ [x]) (categorize f x)).
  { intros f1 E1 E2 E3 H. unfold flows_ok in *. rewrite E1, E2, E3. exact H. }
  unfold categorize in *.
  destruct (decide (operation x = "Paid swap fee")) as [Hfee | Hfee];
    [| destruct (Dltb (amount x) Dzero) eqn:Hneg;
       [| destruct (Dgtb (amount x) Dzero) eqn:Hpos]];
    (eapply Hconv; [destruct (contains _ _); reflexivity .. |]);
    unfold flows_ok, dict_add; cbn [incoming_txs outgoing_txs fee_txs];
    (split; [| split; [| split; [| intros c; split; [| split]]]]);
    auto using dict_upd_NoDup;
    rewrite ?dict_get_upd;
    destruct (Hget c) as (Ei & Eo & Ef); rewrite ?Ei, ?Eo, ?Ef.
  - f_equal. symmetry. apply leg_absent.
    unfold incoming_leg. now rewrite bool_decide_eq_true_2.
  - f_equal. symmetry. apply leg_absent.
    unfold outgoing_leg. now rewrite bool_decide_eq_true_2.
  - destruct (decide (c = coin_asset x)) as [-> | Hc].
    + rewrite leg_present, accumulated_snoc; [reflexivity |].
      unfold fee_leg. now rewrite !bool_decide_eq_true_2.
    + rewrite leg_absent; [reflexivity |].
      unfold fee_leg. rewrite (bool_decide_eq_false_2 (coin_asset x = c)) by congruence.
      apply andb_false_r.
  - f_equal. symmetry. apply leg_absent.
    unfold incoming_leg. rewrite (Dgtb_not_Dltb _ Hneg). now rewrite andb_false_r.
  - destruct (decide (c = coin_asset x)) as [-> | Hc].
    + rewrite leg_present, accumulated_snoc; [reflexivity |].
      unfold outgoing_leg.
      now rewrite Hneg, (bool_decide_eq_false_2 _ Hfee), bool_decide_eq_true_2.
    + rewrite leg_absent; [reflexivity |].
      unfold outgoing_leg.
      rewrite (bool_decide_eq_false_2 (coin_asset x = c)) by congruence.
      apply andb_false_r.
  - f_equal. symmetry. apply leg_absent.
    unfold fee_leg. now rewrite (bool_decide_eq_false_2 _ Hfee).
  - destruct (decide (c = coin_asset x)) as [-> | Hc].
    + rewrite leg_present, accumulated_snoc; [reflexivity |].
      unfold incoming_leg.
      now rewrite Hpos, (bool_decide_eq_false_2 _ Hfee), bool_decide_eq_true_2.
    + rewrite leg_absent; [reflexivity |].
      unfold incoming_leg.
      rewrite (bool_decide_eq_false_2 (coin_asset x = c)) by congruence.
      apply andb_false_r.
  - f_equal. symmetry. apply leg_absent.
    unfold outgoing_leg. rewrite Hneg. now rewrite andb_false_r.
  - f_equal. symmetry. apply leg_absent.
    unfold fee_leg. now rewrite (bool_decide_eq_false_2 _ Hfee).
  - f_equal. symmetry. apply leg_absent.
    unfold incoming_leg. rewrite Hpos. now rewrite andb_false_r.
  - f_equal. symmetry. apply leg_absent.
    unfold outgoing_leg. rewrite Hneg. now rewrite andb_false_r.
  - f_equal. symmetry. apply leg_absent.
    unfold fee_leg. now rewrite (bool_decide_eq_false_2 _ Hfee).
Qed.

Lemma categorize_all_ok txs :
  flows_ok txs (fold_left categorize txs (mkFlows [] [] [] None)).
Proof.
  induction txs as [| x txs IH] using rev_ind.
  - cbn. unfold flows_ok. cbn. repeat split; constructor.
  - rewrite fold_left_app. cbn [fold_left]. now apply categorize_ok.
Qed.

End SwapFlows.

Section SwapConversion.

Import TransactionGrouper.

Lemma net_out_within f0 f k : flows_within f f0 -> flows_within (net_out f k) f0.
Proof.
  intros [(Ni & No & Nf) Hsub]. unfold net_out.
  destruct (dict_mem k (outgoing_txs f) || dict_mem k (fee_txs f));
    [| now split].
  destruct (Dltb _ _); [| now split].
  cbn [incoming_txs outgoing_txs fee_txs]. split.
  - repeat split; cbn [incoming_txs outgoing_txs fee_txs]; auto using dict_pop_NoDup.
  - intros c a. cbn [incoming_txs outgoing_txs fee_txs].
    rewrite !dict_get_pop by assumption.
    destruct (decide (c = k)); [repeat split; discriminate |]. apply Hsub.
Qed.

Lemma net_out_all_within f0 ks f :
  flows_within f f0 -> flows_within (fold_left net_out ks f) f0.
Proof.
  revert f. induction ks as [| k ks IH]; intros f H; [exact H |].
  cbn [fold_left]. apply IH, net_out_within, H.
Qed.

Lemma accumulated_Some (l : list Decimal) (a : Decimal) :
  accumulated l = Some a -> a = Dsum l.
Proof. destruct l; cbn; congruence. Qed.

(** What the three dictionaries hold once netting is done: for every
    currency still present, the legs of that currency added up. *)
Lemma net_flows_sums txs c a :
  (dict_get c (incoming_txs (net_flows txs)) = Some a ->
   a = Dsum (map amount (List.filter (incoming_leg c) txs)))
  /\ (dict_get c (outgoing_txs (net_flows txs)) = Some a ->
      a = Dsum (map (fun tx => Dabs (amount tx)) (List.filter (outgoing_leg c) txs)))
  /\ (dict_get c (fee_txs (net_flows txs)) = Some a ->
      a = Dsum (map (fun tx => Dabs (amount tx)) (List.filter (fee_leg c) txs))).
Proof.
  unfold net_flows.
  set (f := fold_left categorize txs _).
  destruct (categorize_all_ok txs) as (Ni & No & Nf & Hget). fold f in Ni, No, Nf, Hget.
  assert (Hw : flows_within f f) by (split; [auto | intros; auto]).
  destruct (net_out_all_within f (map fst (incoming_txs f)) f Hw) as [_ Hsub].
  destruct (Hsub c a) as (Hi & Ho & Hf). destruct (Hget c) as (Ei & Eo & Ef).
  repeat split; intros H; apply accumulated_Some.
  - rewrite <- Ei. auto.
  - rewrite <- Eo. auto.
  - rewrite <- Ef. auto.
Qed.

Lemma dict_get_head {V : Type} (c : string) (a : V) (d : list (string * V)) :
  dict_get c ((c, a) :: d) = Some a.
Proof. cbn. now destruct (decide (c = c)). Qed.




End SwapConversion.

(** ** Aggregated rewards *)

Section RewardsConversion.

Import TransactionGrouper.

Local Open Scope Q_scope.

Lemma DtoQ_fold_Dadd (l : list Decimal) (acc : Decimal) :
  DtoQ (fold_left Dadd l acc) == DtoQ acc + Qsum (map DtoQ l).
Proof.
  revert acc. induction l as [| x l IH]; intros acc; cbn [fold_left map Qsum fold_right].
  - ring.
  - rewrite IH, DtoQ_Dadd. fold (Qsum (map DtoQ l)). ring.
Qed.

Lemma DtoQ_Dsum (l : list Decimal) : DtoQ (Dsum l) == Qsum (map DtoQ l).
Proof. unfold Dsum. rewrite DtoQ_fold_Dadd, DtoQ_Dzero. ring. Qed.



End RewardsConversion.



(** ** Every canonical transaction has a side, zero amounts apart *)

Section SideInvariant.

Import TransactionGrouper.

Variable cache : gmap Z Decimal.

Lemma nonzero_sign (a : Decimal) :
  is_zero a = false -> Dltb a Dzero = true \/ Dgtb a Dzero = true.
Proof.
  unfold is_zero. rewrite Dltb_zero, Dgtb_zero. intros H. apply Z.eqb_neq in H.
  destruct (Z.ltb_spec (coef a) 0); [now left | right]. apply Z.ltb_lt. lia.
Qed.

Lemma single_has_side tx l :
  _convert_single_transaction cache tx = Some l ->
  is_zero (amount tx) = false ->
  Forall (fun k => has_side k = true) l.
Proof.
  unfold _convert_single_transaction. intros H Hz.
  destruct (OperationMapper.get_transaction_type _ _) as [ty |]; [| discriminate].
  destruct (nonzero_sign _ Hz) as [Hs | Hs].
  - pose proof (Dgtb_not_Dltb _ Hs) as Hg. rewrite ?Hs, ?Hg in H.
    destruct ty; try destruct (existsb _ _);
      injection H as <-; repeat constructor.
  - assert (Hl : Dltb (amount tx) Dzero = false).
    { destruct (Dltb (amount tx) Dzero) eqn:E; [| reflexivity].
      apply Dgtb_not_Dltb in E. congruence. }
    rewrite ?Hs, ?Hl in H.
    destruct ty; try destruct (existsb _ _);
      injection H as <-; repeat constructor.
Qed.

Lemma convert_each_has_side txs l :
  convert_each cache txs = Some l ->
  (forall m, In m txs -> is_zero (amount m) = false) ->
  Forall (fun k => has_side k = true) l.
Proof.
  revert l. induction txs as [| tx txs IH]; cbn [convert_each]; intros l H Hz.
  - injection H as <-. constructor.
  - destruct (_convert_single_transaction cache tx) as [sub |] eqn:E; [| discriminate].
    destruct (convert_each cache txs) as [rest |]; [| discriminate].
    injection H as <-. apply Forall_app. split.
    + eapply single_has_side; [exact E |]. apply Hz. now left.
    + apply IH; [reflexivity |]. intros m Hm. apply Hz. now right.
Qed.

Lemma fallback_has_side g l :
  _fallback_conversion cache g = Some l ->
  (forall m, In m (transactions g) -> is_zero (amount m) = false) ->
  Forall (fun k => has_side k = true) l.
Proof.
  unfold _fallback_conversion. destruct (timestamp g); [| discriminate].
  apply convert_each_has_side.
Qed.

Lemma group_has_side g l :
  convert_group_to_kryptosekken cache g = Some l ->
  (forall m, In m (transactions g) -> is_zero (amount m) = false) ->
  Forall (fun k => has_side k = true) l.
Proof.
  unfold convert_group_to_kryptosekken. intros H Hz.
  destruct (decide (group_type g = "swap")).
  { unfold _convert_swap_group in H.
    destruct (incoming_txs _) as [| [ci ai] [| ? ?]];
      try (eapply fallback_has_side; eassumption).
    destruct (outgoing_txs _) as [| [co ao] ?].
    - destruct (conversion_op_str _);
        [| eapply fallback_has_side; eassumption].
      destruct (timestamp g); [| discriminate].
      injection H as <-. repeat constructor.
    - destruct (timestamp g); [| discriminate].
      injection H as <-. repeat constructor. }
  destruct (decide (group_type g = "add_liquidity")).
  { unfold _convert_add_liquidity_group in H.
    destruct (List.find _ _) as [r |], (List.filter _ _) as [| a1 more];
      try (eapply fallback_has_side; eassumption);
      injection H as <-; repeat constructor. }
  destruct (decide (group_type g = "remove_liquidity")).
  { unfold _convert_remove_liquidity_group in H.
    destruct (List.find _ _) as [r |];
      [| eapply fallback_has_side; eassumption].
    destruct (List.filter _ _) as [| a1 more];
      [eapply fallback_has_side; eassumption |].
    destruct (timestamp g); [| discriminate].
    injection H as <-. repeat constructor. }
  destruct (decide (group_type g = "daily_rewards")).
  { unfold _convert_daily_rewards_group in H.
    destruct (transactions g) as [| t ts]; [discriminate |].
    destruct (timestamp g); [| discriminate].
    injection H as <-. repeat constructor. }
  destruct (transactions g) as [| tx ts] eqn:E; [discriminate |].
  eapply single_has_side; [exact H |]. apply Hz. now left.
Qed.

End SideInvariant.

(** C8 (the code departs from it).  A deposit of amount zero with no group
    id becomes a singleton group, and its conversion is one Erverv
    transaction with neither an incoming nor an outgoing amount. *)
Theorem zero_amount_singleton_has_no_side :
  TransactionGrouper.group_transactions [zero_deposit]
  = [TransactionGrouper.single_group (set_original_index 0 zero_deposit)]
  /\ TransactionGrouper.convert_group_to_kryptosekken two_rates
       (TransactionGrouper.single_group (set_original_index 0 zero_deposit))
     = Some [ {| tidspunkt := Some (at_time 19000 3600); type := "Erverv";
                 inn := None; inn_valuta := None; ut := None; ut_valuta := None;
                 gebyr := None; gebyr_valuta := None;
                 marked := Some "CakeDeFi";
                 notat := Some (NoteSimple "Deposit");
                 row_num := None |} ]
  /\ Forall (fun k => has_side k = false)
            (TransactionGrouper.convert_groups two_rates
               (TransactionGrouper.group_transactions [zero_deposit])).
Proof.
  split; [vm_compute; reflexivity |]. split; [vm_compute; reflexivity |].
  vm_compute. repeat constructor.
Qed.

(** ** The final order of the groups *)

Section GroupOrder.

Import TransactionGrouper.

Lemma _determine_group_type_values l :
  In (_determine_group_type l) ["add_liquidity"; "remove_liquidity"; "swap"].
Proof.
  unfold _determine_group_type.
  destruct (existsb _ l); [cbn; tauto |].
  destruct (existsb _ l); cbn; tauto.
Qed.

Lemma big_groups_type {K : Type} (d : list (K * list CakeTransaction)) g :
  In g (flat_map
          (fun '(_, tx_list) =>
             if (1 <? length tx_list)%nat
             then [mkGroup (sort_by_date tx_list) "daily_rewards" None]
             else []) d) ->
  group_type g = "daily_rewards" /\ (1 < length (transactions g))%nat.
Proof.
  intros H. apply in_flat_map in H as [[k l] [_ H]].
  destruct (Nat.ltb_spec 1 (length l)); [| contradiction].
  destruct H as [<- | []]. cbn. split; [reflexivity |].
  unfold sort_by_date. now rewrite py_sort_length.
Qed.

Lemma daily_rewards_groups txs g :
  In g (_group_daily_rewards txs) ->
  group_type g = "daily_rewards" /\ (1 < length (transactions g))%nat.
Proof.
  unfold _group_daily_rewards.
  set (daily := daily_reward_groups txs).
  assert (Hf : forall P x, In x (List.filter P daily) ->
                           group_type x = "daily_rewards"
                           /\ (1 < length (transactions x))%nat).
  { intros P x Hx. apply filter_In in Hx as [Hx _].
    unfold daily, daily_reward_groups in Hx. now apply big_groups_type in Hx. }
  destruct (List.filter first_coin_is_ETH daily) as [| e es] eqn:E.
  - apply Hf.
  - intros H. apply in_app_or in H as [H | H]; [eapply Hf, H |].
    unfold _aggregate_eth_daily_to_weekly in H. now apply big_groups_type in H.
Qed.

(** The group kinds the grouper produces. *)
Lemma group_transactions_types txs g :
  In g (group_transactions txs) ->
  In (group_type g)
     ["add_liquidity"; "remove_liquidity"; "swap"; "daily_rewards"; "single"].
Proof.
  unfold group_transactions. intros H. apply py_sort_In in H.
  unfold unsorted_groups in H.
  apply in_app_or in H as [H | H]; [| apply in_app_or in H as [H | H]].
  - apply in_map_iff in H as [l [<- _]]. cbn [group_type final_group].
    pose proof (_determine_group_type_values l) as Ht. cbn in Ht |- *. tauto.
  - apply daily_rewards_groups in H as [-> _]. cbn. tauto.
  - apply in_map_iff in H as [x [<- _]]. cbn. tauto.
Qed.

Lemma priority_never_3 txs g :
  In g (group_transactions txs) -> _get_group_economic_priority g <> 3.
Proof.
  intros H. apply group_transactions_types in H.
  unfold _get_group_economic_priority.
  destruct (existsb _ _); [discriminate |].
  destruct (bool_decide (group_type g = "swap")); [discriminate |].
  rewrite bool_decide_eq_false_2; [discriminate |].
  cbn in H. intros E. rewrite E in H.
  repeat (destruct H as [H | H]; [discriminate H |]). exact H.
Qed.

End GroupOrder.

(** C3 (the code departs from it).  A withdrawal and an add-liquidity group
    with the same timestamp come out with the withdrawal first: both have
    economic priority 4, and the input position decides.  No group the
    grouper produces ever has priority 3, the priority of liquidity
    groups. *)
Theorem liquidity_group_has_no_priority :
  map (fun g => (group_type g,
                 TransactionGrouper.sort_key g))
      (TransactionGrouper.group_transactions withdrawal_then_liquidity)
  = [ ("single", (instant (at_time 19000 3600), 4, 0));
      ("add_liquidity", (instant (at_time 19000 3600), 4, 1)) ]
  /\ (forall txs g,
         In g (TransactionGrouper.group_transactions txs) ->
         TransactionGrouper._get_group_economic_priority g <> 3).
Proof.
  split; [vm_compute; reflexivity |]. apply priority_never_3.
Qed.

(** ** Grouping by key *)

Section GroupByFacts.

Context {A K : Type} `{EqDecision K}.

Lemma group_by_snoc (key : A -> K) (l : list A) (x : A) :
  group_by key (l ++ [x])
  = dict_upd [] (fun vs => vs ++ [x]) (key x) (group_by key l).
Proof. unfold group_by. now rewrite fold_left_app. Qed.

Lemma group_by_NoDup (key : A -> K) (l : list A) :
  List.NoDup (map fst (group_by key l)).
Proof.
  induction l as [| x l IH] using rev_ind; [constructor |].
  rewrite group_by_snoc. now apply dict_upd_NoDup.
Qed.

(** The list filed under a key holds the elements with that key, in input
    order. *)
Lemma group_by_get (key : A -> K) (l : list A) (k : K) :
  dict_get k (group_by key l)
  = match List.filter (fun x => bool_decide (key x = k)) l with
    | [] => None
    | y :: ys => Some (y :: ys)
    end.
Proof.
  induction l as [| x l IH] using rev_ind; [reflexivity |].
  rewrite group_by_snoc, dict_get_upd, List.filter_app, IH. cbn [List.filter].
  destruct (decide (k = key x)) as [-> | Hk].
  - rewrite bool_decide_eq_true_2 by reflexivity.
    now destruct (List.filter _ l).
  - rewrite bool_decide_eq_false_2 by congruence. now rewrite app_nil_r.
Qed.

Lemma In_dict_get {V : Type} (d : list (K * V)) (k : K) (v : V) :
  List.NoDup (map fst d) -> In (k, v) d -> dict_get k d = Some v.
Proof.
  induction d as [| [k' v'] d IH]; cbn; [tauto |].
  intros Hd [E | Hin].
  - injection E as -> ->. now destruct (decide (k = k)).
  - inversion Hd as [| ? ? Hnin Hd']; subst.
    destruct (decide (k = k')) as [-> | _]; [| auto].
    exfalso. apply Hnin. apply in_map_iff. now exists (k', v).
Qed.

Lemma group_by_entry (key : A -> K) (l vs : list A) (k : K) :
  In (k, vs) (group_by key l) ->
  vs = List.filter (fun x => bool_decide (key x = k)) l.
Proof.
  intros H. apply In_dict_get in H; [| apply group_by_NoDup].
  rewrite group_by_get in H. destruct (List.filter _ l); congruence.
Qed.

End GroupByFacts.

(** ** Reward aggregation needs two events *)

Section RewardGrouping.

Import OperationMapper TransactionGrouper.

(** The income events of [txs] that share the day and the currency of [tx]. *)
Lemma daily_group_shape txs g :
  In g (daily_reward_groups txs) ->
  exists k,
    transactions g
    = sort_by_date (List.filter (fun x => bool_decide (group_key x = k))
                                (List.filter is_income txs))
    /\ (1 < length (List.filter (fun x => bool_decide (group_key x = k))
                                (List.filter is_income txs)))%nat.
Proof.
  unfold daily_reward_groups. intros H.
  apply in_flat_map in H as [[k l] [Hkl H]].
  destruct (Nat.ltb_spec 1 (length l)) as [Hlen |]; [| contradiction].
  destruct H as [<- | []]. exists k.
  apply group_by_entry in Hkl. subst l. now split.
Qed.

Lemma reward_members_daily txs tx :
  In tx (members (_group_daily_rewards txs)) ->
  In tx (members (daily_reward_groups txs)).
Proof.
  unfold _group_daily_rewards. intros H.
  destruct (List.filter first_coin_is_ETH (daily_reward_groups txs)) as [| e es] eqn:E.
  - eapply filter_members, H.
  - unfold members in H. rewrite flat_map_app in H. apply in_app_or in H as [H | H].
    + eapply filter_members, H.
    + apply weekly_members in H. rewrite <- E in H. eapply filter_members, H.
Qed.

Lemma lone_reward_ungrouped txs tx :
  length (List.filter (fun x => bool_decide (group_key x = group_key tx))
                      (List.filter is_income txs)) = 1%nat ->
  ~ In tx (members (_group_daily_rewards txs)).
Proof.
  intros Hone Hin. apply reward_members_daily in Hin.
  apply in_flat_map in Hin as [g [Hg Htx]].
  apply daily_group_shape in Hg as [k [Eg Hlen]].
  rewrite Eg in Htx. apply py_sort_In in Htx.
  apply filter_In in Htx as [_ Hk]. apply bool_decide_eq_true in Hk.
  rewrite <- Hk in Hlen. lia.
Qed.

Lemma filter_transactions_index txs x :
  In x (filter_transactions txs) ->
  exists (i : nat) a, txs !! i = Some a /\ x = set_original_index (Z.of_nat i) a.
Proof.
  unfold filter_transactions. intros H. apply filter_In in H as [H _].
  apply list_elem_of_In, elem_of_lookup_imap in H as (i & a & -> & Ha). eauto.
Qed.

(** One object per input position: two kept events with the same id are the
    same event. *)
Lemma filter_transactions_id_inj txs x y :
  In x (filter_transactions txs) -> In y (filter_transactions txs) ->
  py_id x = py_id y -> x = y.
Proof.
  intros Hx Hy E.
  apply filter_transactions_index in Hx as (i & a & Ha & ->).
  apply filter_transactions_index in Hy as (j & b & Hb & ->).
  unfold py_id in E.
  destruct (set_original_index_fields (Z.of_nat i) a) as (_ & _ & Ei).
  destruct (set_original_index_fields (Z.of_nat j) b) as (_ & _ & Ej).
  rewrite Ei, Ej in E. injection E as E. apply Nat2Z.inj in E. subst j.
  congruence.
Qed.

Lemma lone_reward_single txs tx :
  In tx (remaining_single_txs txs) ->
  ~ In tx (members (_group_daily_rewards (remaining_single_txs txs))) ->
  In (single_group tx) (group_transactions txs).
Proof.
  intros Hin Hnot. unfold group_transactions. apply py_sort_In.
  unfold unsorted_groups. apply in_or_app. right. apply in_or_app. right.
  apply in_map, filter_In. split; [exact Hin |].
  apply negb_true_iff, bool_decide_eq_false. intros Hid.
  apply list_elem_of_In, in_flat_map in Hid as [g [Hg Hid]].
  apply in_map_iff in Hid as [m [Em Hm]].
  assert (Hmem : In m (members (_group_daily_rewards (remaining_single_txs txs))))
    by (apply in_flat_map; eauto).
  assert (m = tx).
  { apply (filter_transactions_id_inj txs); [| | exact Em].
    - apply remaining_single_txs_filtered.
      now apply (daily_rewards_members (remaining_single_txs txs) m).
    - now apply remaining_single_txs_filtered. }
  subst m. contradiction.
Qed.

Lemma rewards_groups_of_output txs g :
  In g (group_transactions txs) -> group_type g = "daily_rewards" ->
  In g (_group_daily_rewards (remaining_single_txs txs)).
Proof.
  unfold group_transactions. intros H Ht. apply py_sort_In in H.
  unfold unsorted_groups in H.
  apply in_app_or in H as [H | H]; [| apply in_app_or in H as [H | H]].
  - apply in_map_iff in H as [l [<- _]]. cbn [group_type final_group] in Ht.
    pose proof (_determine_group_type_values l) as Hv. rewrite Ht in Hv.
    cbn in Hv. repeat (destruct Hv as [Hv | Hv]; [discriminate Hv |]). contradiction.
  - exact H.
  - apply in_map_iff in H as [x [<- _]]. discriminate Ht.
Qed.

End RewardGrouping.

(** C10.  Every rewards group, daily or weekly, has at least two members.
    When exactly one income event of the list falls on a calendar day in a
    currency, no event of that day and currency is in any rewards group;
    in the grouper's output such a standalone event is in no rewards group
    and is emitted as a singleton group.  The weekly ETH groups too are only
    built from two or more collected events. *)
Theorem rewards_need_two_events :
  (forall txs g,
      In g (TransactionGrouper._group_daily_rewards txs) ->
      group_type g = "daily_rewards" /\ (2 <= length (transactions g))%nat)
  /\ (forall gs g,
         In g (TransactionGrouper._aggregate_eth_daily_to_weekly gs) ->
         (2 <= length (transactions g))%nat)
  /\ (forall txs tx m g,
         length (List.filter
                   (fun x => bool_decide (TransactionGrouper.group_key x
                                          = TransactionGrouper.group_key tx))
                   (List.filter TransactionGrouper.is_income txs)) = 1%nat ->
         TransactionGrouper.group_key m = TransactionGrouper.group_key tx ->
         In g (TransactionGrouper._group_daily_rewards txs) ->
         ~ In m (transactions g))
  /\ (forall txs tx,
         In tx (TransactionGrouper.remaining_single_txs txs) ->
         length (List.filter
                   (fun x => bool_decide (TransactionGrouper.group_key x
                                          = TransactionGrouper.group_key tx))
                   (List.filter TransactionGrouper.is_income
                                (TransactionGrouper.remaining_single_txs txs))) = 1%nat ->
         (forall g, In g (TransactionGrouper.group_transactions txs) ->
                    group_type g = "daily_rewards" -> ~ In tx (transactions g))
         /\ In (TransactionGrouper.single_group tx)
               (TransactionGrouper.group_transactions txs)).
Proof.
  split; [| split; [| split]].
  - intros txs g H. apply daily_rewards_groups in H as [Ht Hl]. split; [exact Ht | lia].
  - intros gs g H. unfold TransactionGrouper._aggregate_eth_daily_to_weekly in H.
    apply big_groups_type in H as [_ Hl]. lia.
  - intros txs tx m g Hone Hkey Hg Hm.
    rewrite <- Hkey in Hone.
    apply (lone_reward_ungrouped txs m Hone). apply in_flat_map. eauto.
  - intros txs tx Hin Hone.
    pose proof (lone_reward_ungrouped _ tx Hone) as Hnot. split.
    + intros g Hg Ht Htx. apply Hnot. apply in_flat_map. exists g.
      split; [now apply rewards_groups_of_output | exact Htx].
    + now apply lone_reward_single.
Qed.

(** [rewards_need_two_events] on the ETH rewards of [eth_week]: the Monday
    reward, alone on its day, stays a singleton although the two Tuesday
    rewards of the same week are merged. *)
Lemma rewards_need_two_events_witness :
  In (TransactionGrouper.single_group (set_original_index 0 (hd reward_1 eth_week)))
     (TransactionGrouper.group_transactions eth_week)
  /\ map (fun g => (group_type g, map original_index (transactions g)))
         (TransactionGrouper.group_transactions eth_week)
     = [ ("single", [Some 0]); ("daily_rewards", [Some 1; Some 2]) ].
Proof.
  split.
  - apply (proj2 (proj2 (proj2 rewards_need_two_events)) eth_week
                 (set_original_index 0 (hd reward_1 eth_week))).
    + vm_compute. left. reflexivity.
    + vm_compute. reflexivity.
  - vm_compute. reflexivity.
Defined.

(** ** The grouper files every kept event in exactly one group *)

Section GrouperPartition.

Import OperationMapper TransactionGrouper.

Lemma filter_split_perm {A : Type} (P : A -> bool) (l : list A) :
  Permutation (List.filter P l ++ List.filter (fun x => negb (P x)) l) l.
Proof.
  induction l as [| x l IH]; cbn; [reflexivity |].
  destruct (P x); cbn.
  - now apply perm_skip.
  - rewrite <- Permutation_middle. now apply perm_skip.
Qed.

Lemma filter_perm {A : Type} (P : A -> bool) (l l' : list A) :
  Permutation l l' -> Permutation (List.filter P l) (List.filter P l').
Proof.
  induction 1 as [| x l l' _ IH | x y l | l l' l'' _ IH1 _ IH2]; cbn.
  - reflexivity.
  - destruct (P x); [now apply perm_skip | exact IH].
  - destruct (P x), (P y); try reflexivity. apply perm_swap.
  - now rewrite IH1.
Qed.

Lemma filter_all {A : Type} (P : A -> bool) (l : list A) :
  Forall (fun x => P x = true) l -> List.filter P l = l.
Proof.
  induction 1 as [| x l Hx _ IH]; cbn; [reflexivity |]. now rewrite Hx, IH.
Qed.

Lemma filter_none {A : Type} (P : A -> bool) (l : list A) :
  Forall (fun x => P x = false) l -> List.filter P l = [].
Proof.
  induction 1 as [| x l Hx _ IH]; cbn; [reflexivity |]. now rewrite Hx.
Qed.

Lemma concat_filter_split {A : Type} (P : list A -> bool) (ls : list (list A)) :
  Permutation (concat (List.filter P ls) ++ concat (List.filter (fun l => negb (P l)) ls))
              (concat ls).
Proof.
  induction ls as [| l ls IH]; cbn; [reflexivity |].
  destruct (P l); cbn.
  - rewrite <- app_assoc. now apply Permutation_app_head.
  - rewrite Permutation_app_swap_app. now apply Permutation_app_head.
Qed.

Lemma NoDup_map_filter {A B : Type} (f : A -> B) (P : A -> bool) (l : list A) :
  List.NoDup (map f l) -> List.NoDup (map f (List.filter P l)).
Proof.
  induction l as [| x l IH]; cbn; [auto |].
  intros H. inversion H as [| ? ? Hnin Hl]; subst.
  destruct (P x); [| auto]. cbn. constructor; [| auto].
  intros Hin. apply Hnin. apply in_map_iff in Hin as [y [E Hy]].
  apply filter_In in Hy as [Hy _]. apply in_map_iff. eauto.
Qed.

Lemma NoDup_app_disjoint {A : Type} (l1 l2 : list A) (x : A) :
  List.NoDup (l1 ++ l2) -> In x l1 -> ~ In x l2.
Proof.
  intros H H1 H2. apply NoDup_ListNoDup, NoDup_app in H as (_ & Hd & _).
  apply (Hd x); now apply list_elem_of_In.
Qed.

Lemma members_app gs1 gs2 : members (gs1 ++ gs2) = members gs1 ++ members gs2.
Proof. unfold members. apply flat_map_app. Qed.

Lemma members_perm gs1 gs2 :
  Permutation gs1 gs2 -> Permutation (members gs1) (members gs2).
Proof. unfold members. apply Permutation_flat_map. Qed.

Lemma members_final_groups (ls : list (list CakeTransaction)) :
  members (map final_group ls) = concat ls.
Proof.
  unfold members. induction ls as [| l ls IH]; cbn; [reflexivity |]. now rewrite IH.
Qed.

Lemma members_single_groups (l : list CakeTransaction) :
  members (map single_group l) = l.
Proof.
  unfold members. induction l as [| x l IH]; cbn; [reflexivity |]. now rewrite IH.
Qed.

Lemma grouped_ids_members (gs : list TransactionGroup) :
  flat_map (fun g => map py_id (transactions g)) gs = map py_id (members gs).
Proof.
  unfold members. induction gs as [| g gs IH]; cbn; [reflexivity |].
  now rewrite List.map_app, IH.
Qed.

Lemma split_groups_perm {K : Type} (d : list (K * list CakeTransaction)) :
  Permutation (concat (flat_map (fun '(_, tx_list) => split_group tx_list) d))
              (concat (map snd d)).
Proof.
  induction d as [| [k l] d IH]; cbn; [reflexivity |].
  rewrite concat_app. apply Permutation_app; [apply split_group_perm | exact IH].
Qed.

(** The groups made of the lists with more than one element hold exactly
    the elements of these lists. *)
Lemma big_groups_members_perm {K : Type} (d : list (K * list CakeTransaction)) :
  Permutation
    (members (flat_map
                (fun '(_, tx_list) =>
                   if (1 <? length tx_list)%nat
                   then [mkGroup (sort_by_date tx_list) "daily_rewards" None]
                   else []) d))
    (concat (List.filter (fun l => (1 <? length l)%nat) (map snd d))).
Proof.
  induction d as [| [k l] d IH]; cbn [flat_map map List.filter snd]; [reflexivity |].
  rewrite members_app. destruct (1 <? length l)%nat.
  - cbn [concat]. apply Permutation_app; [| exact IH].
    unfold members. cbn. rewrite app_nil_r. apply py_sort_perm.
  - exact IH.
Qed.

Lemma dict_upd_Forall {K V : Type} `{EqDecision K} (P : V -> Prop)
      (dflt : V) (f : V -> V) (k : K) (d : list (K * V)) :
  P (f dflt) -> (forall v, P v -> P (f v)) ->
  Forall P (map snd d) -> Forall P (map snd (dict_upd dflt f k d)).
Proof.
  intros Hd Hf. induction d as [| [k' v] d IH]; cbn; intros H.
  - repeat constructor. exact Hd.
  - inversion H as [| ? ? Hv Hrest]; subst.
    destruct (decide (k = k')); cbn; constructor; auto.
Qed.

(** A week's list is never shorter than the daily groups poured into it. *)
Lemma weekly_lists_big (gs : list TransactionGroup) (d : list (Z * list CakeTransaction)) :
  Forall (fun g => (1 < length (transactions g))%nat) gs ->
  Forall (fun l => (1 <? length l)%nat = true) (map snd d) ->
  Forall (fun l => (1 <? length l)%nat = true)
         (map snd
            (fold_left
               (fun d daily_group =>
                  let group_date :=
                    match timestamp daily_group with Some dt => date_of dt | None => 0 end in
                  let monday := group_date - weekday group_date in
                  dict_upd [] (fun l => l ++ transactions daily_group) monday d)
               gs d)).
Proof.
  intros Hgs. revert d. induction Hgs as [| g gs Hg _ IH]; intros d Hd; [exact Hd |].
  cbn [fold_left]. apply IH. apply dict_upd_Forall; [| | exact Hd].
  - apply Nat.ltb_lt. cbn. exact Hg.
  - intros v Hv. apply Nat.ltb_lt. apply Nat.ltb_lt in Hv. rewrite length_app. lia.
Qed.

Lemma weekly_members_perm (gs : list TransactionGroup) :
  Forall (fun g => (1 < length (transactions g))%nat) gs ->
  Permutation (members (_aggregate_eth_daily_to_weekly gs)) (members gs).
Proof.
  intros Hgs. unfold _aggregate_eth_daily_to_weekly.
  rewrite big_groups_members_perm.
  rewrite filter_all by (apply weekly_lists_big; [exact Hgs | constructor]).
  rewrite (fold_extend_perm
             (fun g => let group_date :=
                         match timestamp g with Some dt => date_of dt | None => 0 end in
                       group_date - weekday group_date) transactions).
  reflexivity.
Qed.

Lemma daily_reward_groups_big txs :
  Forall (fun g => (1 < length (transactions g))%nat) (daily_reward_groups txs).
Proof.
  apply List.Forall_forall. intros g Hg. unfold daily_reward_groups in Hg.
  now apply big_groups_type in Hg.
Qed.

Lemma reward_groups_members_perm txs :
  Permutation (members (_group_daily_rewards txs)) (members (daily_reward_groups txs)).
Proof.
  unfold _group_daily_rewards.
  pose proof (filter_split_perm first_coin_is_ETH (daily_reward_groups txs)) as Hsplit.
  pose proof (daily_reward_groups_big txs) as Hbig.
  destruct (List.filter first_coin_is_ETH (daily_reward_groups txs)) as [| e es] eqn:E.
  - apply members_perm. exact Hsplit.
  - rewrite members_app, weekly_members_perm.
    + rewrite <- members_app. apply members_perm.
      rewrite Permutation_app_comm. exact Hsplit.
    + rewrite <- E. apply List.Forall_forall. intros g Hg. apply filter_In in Hg as [Hg _].
      rewrite List.Forall_forall in Hbig. now apply Hbig.
Qed.

(** The rewards groups take their members from the list, each once. *)
Lemma reward_groups_complement txs :
  exists rest, Permutation (members (_group_daily_rewards txs) ++ rest) txs.
Proof.
  exists (concat (List.filter (fun l => negb (1 <? length l)%nat)
                              (map snd (group_by group_key (List.filter is_income txs))))
          ++ List.filter (fun tx => negb (is_income tx)) txs).
  rewrite reward_groups_members_perm. unfold daily_reward_groups.
  rewrite big_groups_members_perm, app_assoc, concat_filter_split, group_by_perm.
  apply filter_split_perm.
Qed.

(** The events whose id is not among the grouped ones. *)
Lemma filter_not_grouped (grouped rest all : list CakeTransaction) :
  Permutation (grouped ++ rest) all ->
  List.NoDup (map py_id all) ->
  Permutation
    (List.filter (fun tx => negb (bool_decide (py_id tx ∈ map py_id grouped))) all)
    rest.
Proof.
  intros Hperm Hnd.
  rewrite <- (filter_perm _ _ _ Hperm), List.filter_app.
  assert (Hnd' : List.NoDup (map py_id grouped ++ map py_id rest)).
  { rewrite <- List.map_app. eapply Permutation_NoDup; [| exact Hnd].
    apply Permutation_map. now symmetry. }
  rewrite filter_none, filter_all; [reflexivity | |].
  - apply List.Forall_forall. intros x Hx. apply negb_true_iff, bool_decide_eq_false.
    intros Hin. apply list_elem_of_In in Hin.
    apply (NoDup_app_disjoint _ _ _ Hnd' Hin). now apply in_map.
  - apply List.Forall_forall. intros x Hx. apply negb_false_iff, bool_decide_eq_true.
    apply list_elem_of_In. now apply in_map.
Qed.

Lemma filter_transactions_NoDup txs : List.NoDup (map py_id (filter_transactions txs)).
Proof.
  unfold filter_transactions. apply NoDup_map_filter.
  apply NoDup_ListNoDup, NoDup_alt. intros i j x Hi Hj.
  rewrite list_lookup_fmap, list_lookup_imap in Hi, Hj.
  destruct (txs !! i) as [a |]; [| discriminate].
  destruct (txs !! j) as [b |]; [| discriminate].
  cbn in Hi, Hj. unfold py_id in Hi, Hj. cbn in Hi, Hj.
  assert (E : Some (Z.of_nat i) = Some (Z.of_nat j)) by congruence.
  injection E as E. lia.
Qed.

Lemma unsorted_groups_partition txs :
  Permutation (members (unsorted_groups txs)) (filter_transactions txs).
Proof.
  unfold unsorted_groups. rewrite !members_app, members_final_groups, members_single_groups.
  rewrite grouped_ids_members, split_groups_perm.
  destruct (reward_groups_complement (remaining_single_txs txs)) as [rest Hrest].
  rewrite (filter_not_grouped _ rest _ Hrest).
  2:{ unfold remaining_single_txs, single_txs.
      do 2 apply NoDup_map_filter. apply filter_transactions_NoDup. }
  rewrite Hrest.
  unfold attached_groups.
  rewrite (fold_extend_perm (fun tx => default "" (reference tx)) (fun tx => [tx])).
  unfold initial_groups at 1. rewrite group_by_perm.
  replace (flat_map (fun tx => [tx])
                    (List.filter (attaches (initial_groups txs)) (single_txs txs)))
    with (List.filter (attaches (initial_groups txs)) (single_txs txs)).
  2:{ generalize (List.filter (attaches (initial_groups txs)) (single_txs txs)) as l.
      induction l as [| x l IH]; cbn; congruence. }
  unfold remaining_single_txs. rewrite <- app_assoc, filter_split_perm.
  unfold single_txs. apply filter_split_perm.
Qed.

Lemma split_by_gap_nonempty prev cur rest :
  cur <> [] -> Forall (fun l => l <> []) (split_by_gap prev cur rest).
Proof.
  revert prev cur. induction rest as [| x rest IH]; intros prev cur Hcur; cbn.
  - repeat constructor. exact Hcur.
  - destruct (MAX_TIME_DELTA <? _).
    + constructor; [exact Hcur |]. apply IH. discriminate.
    + apply IH. now destruct cur.
Qed.

Lemma unsorted_groups_nonempty txs g :
  In g (unsorted_groups txs) -> transactions g <> [].
Proof.
  unfold unsorted_groups. intros H.
  apply in_app_or in H as [H | H]; [| apply in_app_or in H as [H | H]].
  - apply in_map_iff in H as [l [<- Hl]]. cbn.
    apply in_flat_map in Hl as [[k l0] [_ Hl]].
    unfold split_group in Hl. destruct (sort_by_date l0) as [| t rest]; [contradiction |].
    pose proof (split_by_gap_nonempty t [t] rest) as Hne.
    rewrite List.Forall_forall in Hne. apply Hne; [discriminate | exact Hl].
  - apply daily_rewards_groups in H as [_ Hlen].
    destruct (transactions g); [cbn in Hlen; lia | discriminate].
  - apply in_map_iff in H as [x [<- _]]. discriminate.
Qed.

End GrouperPartition.

(** ** The output of the grouper is in key order *)

Section SortedOutput.

Import TransactionGrouper.

Context {A : Type}.

Variable before : A -> A -> bool.
Hypothesis before_asym : forall a b, before a b = true -> before b a = false.
Hypothesis not_before_trans :
  forall a b c, before b a = false -> before c b = false -> before c a = false.

Lemma sort_insert_sorted (x : A) (l : list A) :
  StronglySorted (fun a b => before b a = false) l ->
  StronglySorted (fun a b => before b a = false) (sort_insert before x l).
Proof.
  induction 1 as [| y l Hl IH Hy]; cbn.
  - repeat constructor.
  - destruct (before y x) eqn:E.
    + constructor; [exact IH |].
      eapply Permutation_Forall; [symmetry; apply sort_insert_perm |].
      constructor; [now apply before_asym | exact Hy].
    + constructor; [now constructor |].
      constructor; [exact E |].
      eapply List.Forall_impl; [| exact Hy]. intros z Hz. cbn in Hz.
      now apply (not_before_trans x y z).
Qed.

Lemma py_sort_sorted (l : list A) :
  StronglySorted (fun a b => before b a = false) (py_sort before l).
Proof.
  induction l as [| x l IH]; cbn; [constructor |]. now apply sort_insert_sorted.
Qed.

End SortedOutput.

Section KeyOrder.

Import TransactionGrouper.

Lemma key_ltb_spec (a b : Z * Z * Z) :
  key_ltb a b = true
  <-> fst (fst a) < fst (fst b)
      \/ (fst (fst a) = fst (fst b)
          /\ (snd (fst a) < snd (fst b)
              \/ (snd (fst a) = snd (fst b) /\ snd a < snd b))).
Proof.
  destruct a as [[t1 p1] i1], b as [[t2 p2] i2]. cbn.
  rewrite !orb_true_iff, !andb_true_iff, !orb_true_iff, !andb_true_iff,
    !Z.ltb_lt, !Z.eqb_eq.
  reflexivity.
Qed.

Lemma key_ltb_false (a b : Z * Z * Z) :
  key_ltb a b = false
  <-> fst (fst b) < fst (fst a)
      \/ (fst (fst b) = fst (fst a)
          /\ (snd (fst b) < snd (fst a)
              \/ (snd (fst b) = snd (fst a) /\ snd b <= snd a))).
Proof.
  rewrite <- not_true_iff_false, key_ltb_spec.
  destruct a as [[t1 p1] i1], b as [[t2 p2] i2]. cbn. lia.
Qed.

Lemma key_ltb_asym a b : key_ltb a b = true -> key_ltb b a = false.
Proof. rewrite key_ltb_spec, key_ltb_false. lia. Qed.

Lemma key_not_ltb_trans a b c :
  key_ltb b a = false -> key_ltb c b = false -> key_ltb c a = false.
Proof. rewrite !key_ltb_false. lia. Qed.

Lemma key_ltb_total a b :
  key_ltb b a = false -> snd a <> snd b -> key_ltb a b = true.
Proof. rewrite key_ltb_spec, key_ltb_false. lia. Qed.

Lemma group_transactions_key_order txs :
  StronglySorted (fun a b => key_ltb (sort_key b) (sort_key a) = false)
                 (group_transactions txs).
Proof.
  unfold group_transactions.
  apply (py_sort_sorted (fun a b => key_ltb (sort_key a) (sort_key b))).
  - intros a b. apply key_ltb_asym.
  - intros a b c. apply key_not_ltb_trans.
Qed.

(** Groups with members of their own at the head have keys of their own. *)
Lemma key_order_strict (gs : list TransactionGroup) :
  StronglySorted (fun a b => key_ltb (sort_key b) (sort_key a) = false) gs ->
  List.NoDup (map py_id (members gs)) ->
  (forall g, In g gs -> transactions g <> []) ->
  (forall t, In t (members gs) -> exists i, original_index t = Some i) ->
  StronglySorted (fun a b => key_ltb (sort_key a) (sort_key b) = true) gs.
Proof.
  induction 1 as [| g gs Hgs IH Hg]; intros Hnd Hne Hidx; [constructor |].
  cbn [members flat_map] in Hnd, Hidx. fold (members gs) in Hnd, Hidx.
  rewrite List.map_app in Hnd.
  constructor.
  - apply IH.
    + now apply NoDup_app_remove_l in Hnd.
    + intros g' Hg'. apply Hne. now right.
    + intros t Ht. apply Hidx. apply in_or_app. now right.
  - rewrite List.Forall_forall in Hg |- *. intros g' Hg'.
    apply key_ltb_total; [now apply Hg |].
    pose proof (Hne g (or_introl eq_refl)) as Hg_ne.
    pose proof (Hne g' (or_intror Hg')) as Hg'_ne.
    unfold sort_key. cbn [snd].
    destruct (transactions g) as [| t ts] eqn:Et; [contradiction |].
    destruct (transactions g') as [| t' ts'] eqn:Et'; [contradiction |].
    assert (Ht' : In t' (members gs)).
    { apply in_flat_map. exists g'. split; [exact Hg' |]. rewrite Et'. now left. }
    destruct (Hidx t) as [i Ei]; [apply in_or_app; left; now left |].
    destruct (Hidx t') as [i' Ei']; [apply in_or_app; now right |].
    rewrite Ei, Ei'. cbn. intros E. subst i'.
    apply (NoDup_app_disjoint _ _ (py_id t) Hnd).
    + now left.
    + unfold py_id at 1. rewrite Ei, <- Ei'. now apply (in_map py_id).
Qed.

End KeyOrder.

(** X1.  The grouper files every event that passes the skip filter in
    exactly one group: the members of the output groups, taken together,
    are the kept events, each once; the kept events have input positions of
    their own; and no output group is empty. *)
Theorem grouper_partitions_kept_events (txs : list CakeTransaction) :
  Permutation (members (TransactionGrouper.group_transactions txs))
              (TransactionGrouper.filter_transactions txs)
  /\ List.NoDup (map py_id (TransactionGrouper.filter_transactions txs))
  /\ (forall g, In g (TransactionGrouper.group_transactions txs) -> transactions g <> []).
Proof.
  split; [| split].
  - unfold TransactionGrouper.group_transactions.
    rewrite (members_perm _ _ (py_sort_perm _ _)). apply unsorted_groups_partition.
  - apply filter_transactions_NoDup.
  - intros g Hg. apply unsorted_groups_nonempty with txs.
    unfold TransactionGrouper.group_transactions in Hg. now apply py_sort_In in Hg.
Qed.

(** X2.  The output of the grouper is the list of the groups it built,
    reordered so that the sort keys (normalized timestamp, economic
    priority, input position of the first member) increase strictly from
    each group to every later one: no two groups share a key, so the order
    is fixed by the keys alone. *)
Theorem grouper_output_in_key_order (txs : list CakeTransaction) :
  Permutation (TransactionGrouper.group_transactions txs)
              (TransactionGrouper.unsorted_groups txs)
  /\ StronglySorted
       (fun a b => TransactionGrouper.key_ltb (TransactionGrouper.sort_key a)
                                              (TransactionGrouper.sort_key b) = true)
       (TransactionGrouper.group_transactions txs).
Proof.
  split; [apply py_sort_perm |].
  assert (Hperm : Permutation (members (TransactionGrouper.group_transactions txs))
                              (TransactionGrouper.filter_transactions txs)).
  { unfold TransactionGrouper.group_transactions.
    rewrite (members_perm _ _ (py_sort_perm _ _)). apply unsorted_groups_partition. }
  apply key_order_strict.
  - apply group_transactions_key_order.
  - apply (Permutation_NoDup
             (l := map py_id (TransactionGrouper.filter_transactions txs)));
      [| apply filter_transactions_NoDup].
    apply Permutation_map. symmetry. exact Hperm.
  - intros g Hg. apply unsorted_groups_nonempty with txs.
    unfold TransactionGrouper.group_transactions in Hg. now apply py_sort_In in Hg.
  - intros t Ht. apply (Permutation_in _ Hperm) in Ht.
    apply filter_transactions_index in Ht as (i & a & _ & ->).
    exists (Z.of_nat i). apply set_original_index_fields.
Qed.

(** X3.  Whatever the path (swap, add liquidity, remove liquidity,
    aggregated rewards, singleton or fallback), the conversion of a group
    whose members all have a non-zero amount only yields canonical
    transactions with an incoming or an outgoing amount. *)
Theorem nonzero_amounts_give_a_side
        (cache : gmap Z Decimal) (g : TransactionGroup) (l : list KryptosekkenTransaction) :
  TransactionGrouper.convert_group_to_kryptosekken cache g = Some l ->
  (forall m, In m (transactions g) -> is_zero (amount m) = false) ->
  Forall (fun k => has_side k = true) l.
Proof. apply group_has_side. Qed.

(** [nonzero_amounts_give_a_side] at the add-liquidity group of
    [withdrawal_then_liquidity]. *)
Lemma nonzero_amounts_give_a_side_witness :
  exists l,
    TransactionGrouper.convert_group_to_kryptosekken two_rates
      (mkGroup (tl withdrawal_then_liquidity) "add_liquidity" (Some "liq-1")) = Some l
    /\ length l = 1%nat
    /\ Forall (fun k => has_side k = true) l.
Proof.
  eexists. split; [vm_compute; reflexivity |]. split; [reflexivity |].
  apply (nonzero_amounts_give_a_side two_rates
           (mkGroup (tl withdrawal_then_liquidity) "add_liquidity" (Some "liq-1"))).
  - vm_compute. reflexivity.
  - intros m Hm. cbn in Hm. destruct Hm as [<- | [<- | [<- | []]]]; reflexivity.
Defined.

(** ** The negative-balance check of the validator *)

Section NegativeBalances.

Import KryptosekkenValidator.

Lemma is_lp_token_hyphen c : is_lp_token c = contains "-" c.
Proof.
  unfold is_lp_token. destruct (bool_decide (c ∈ ["NOK"; "USD"; "EUR"])) eqn:E.
  - apply bool_decide_eq_true in E.
    apply list_elem_of_In in E. cbn in E.
    destruct E as [<- | [<- | [<- | []]]]; reflexivity.
  - apply andb_true_r.
Qed.

Lemma currency_balances_NoDup txs : List.NoDup (map fst (currency_balances txs)).
Proof.
  unfold currency_balances.
  assert (H : forall b, List.NoDup (map fst b) ->
                        List.NoDup (map fst (fold_left
                          (fun b tx => sub_gebyr tx (sub_ut tx (add_in tx b))) txs b))).
  { induction txs as [| tx txs IH]; intros b Hb; [exact Hb |].
    cbn [fold_left]. apply IH.
    unfold sub_gebyr, sub_ut, add_in.
    repeat (match goal with
            | |- context [match ?x with Some _ => _ | None => _ end] => destruct x
            end); auto using dict_upd_NoDup. }
  apply H. constructor.
Qed.

Lemma same_currency_same_balance txs c b b' :
  In (c, b) (currency_balances txs) -> In (c, b') (currency_balances txs) -> b = b'.
Proof.
  intros H H'. pose proof (currency_balances_NoDup txs) as Hn.
  apply (In_dict_get _ _ _ Hn) in H. apply (In_dict_get _ _ _ Hn) in H'. congruence.
Qed.

Lemma error_issue_iff txs c b :
  In (mkIssue error (NegativeBalance c b) None) (_validate_currency_balances txs)
  <-> In (c, b) (negative_balances (currency_balances txs)).
Proof.
  unfold _validate_currency_balances. rewrite !in_app_iff.
  set (neg := negative_balances _). set (lp := negative_lp_tokens _).
  split.
  - intros [H | [H | [H | H]]].
    + destruct neg as [| n neg']; [contradiction |].
      destruct H as [H | H]; [discriminate |].
      apply in_map_iff in H as [[c' b'] [E H]]. now injection E as -> ->.
    + destruct lp as [| n lp']; [contradiction |].
      destruct H as [H | H]; [discriminate |].
      apply in_map_iff in H as [[c' b'] [E _]]. discriminate.
    + destruct neg, lp; cbn in H; intuition discriminate.
    + destruct H as [H | H]; [discriminate |].
      apply in_map_iff in H as [[c' b'] [E _]]. discriminate.
  - intros H. left. destruct neg as [| n neg']; [contradiction |].
    right. apply in_map_iff. now exists (c, b).
Qed.

Lemma warning_issue_iff txs c b :
  In (mkIssue warning (LPTokenNegative c b) None) (_validate_currency_balances txs)
  <-> In (c, b) (negative_lp_tokens (currency_balances txs)).
Proof.
  unfold _validate_currency_balances. rewrite !in_app_iff.
  set (neg := negative_balances _). set (lp := negative_lp_tokens _).
  split.
  - intros [H | [H | [H | H]]].
    + destruct neg as [| n neg']; [contradiction |].
      destruct H as [H | H]; [discriminate |].
      apply in_map_iff in H as [[c' b'] [E _]]. discriminate.
    + destruct lp as [| n lp']; [contradiction |].
      destruct H as [H | H]; [discriminate |].
      apply in_map_iff in H as [[c' b'] [E H]]. now injection E as -> ->.
    + destruct neg, lp; cbn in H; intuition discriminate.
    + destruct H as [H | H]; [discriminate |].
      apply in_map_iff in H as [[c' b'] [E _]]. discriminate.
  - intros H. right. left. destruct lp as [| n lp']; [contradiction |].
    right. apply in_map_iff. now exists (c, b).
Qed.

(** C9 (amended).  In the negative-balance check of a year's file, a
    currency whose net balance is below the negative tolerance is reported
    as a warning and never as an error when its code contains "-", and as
    an error and never as a warning otherwise; a currency whose net balance
    is not below the negative tolerance is reported neither as an error nor
    as a warning, negative or not. *)
Theorem negative_balance_report
        (txs : list KryptosekkenTransaction) (c : string) (b : Decimal) :
  In (c, b) (currency_balances txs) ->
  (below_tolerance b = true -> contains "-" c = true ->
   In (mkIssue warning (LPTokenNegative c b) None) (_validate_currency_balances txs)
   /\ forall b', ~ In (mkIssue error (NegativeBalance c b') None)
                      (_validate_currency_balances txs))
  /\ (below_tolerance b = true -> contains "-" c = false ->
      In (mkIssue error (NegativeBalance c b) None) (_validate_currency_balances txs)
      /\ forall b', ~ In (mkIssue warning (LPTokenNegative c b') None)
                         (_validate_currency_balances txs))
  /\ (below_tolerance b = false ->
      forall b', ~ In (mkIssue error (NegativeBalance c b') None)
                      (_validate_currency_balances txs)
                 /\ ~ In (mkIssue warning (LPTokenNegative c b') None)
                         (_validate_currency_balances txs)).
Proof.
  intros Hin. split; [| split].
  - intros Hb Hc. split.
    + apply warning_issue_iff. unfold negative_lp_tokens. apply filter_In.
      split; [exact Hin |]. cbn [fst snd]. now rewrite Hb, is_lp_token_hyphen, Hc.
    + intros b' H. apply error_issue_iff in H. unfold negative_balances in H.
      apply filter_In in H as [_ H]. cbn [fst snd] in H.
      rewrite is_lp_token_hyphen, Hc in H. now rewrite andb_false_r in H.
  - intros Hb Hc. split.
    + apply error_issue_iff. unfold negative_balances. apply filter_In.
      split; [exact Hin |]. cbn [fst snd]. now rewrite Hb, is_lp_token_hyphen, Hc.
    + intros b' H. apply warning_issue_iff in H. unfold negative_lp_tokens in H.
      apply filter_In in H as [_ H]. cbn [fst snd] in H.
      rewrite is_lp_token_hyphen, Hc in H. now rewrite andb_false_r in H.
  - intros Hb b'. split; intros H.
    + apply error_issue_iff in H. unfold negative_balances in H.
      apply filter_In in H as [H' H]. cbn [fst snd] in H.
      rewrite <- (same_currency_same_balance txs c b b' Hin H'), Hb in H. discriminate.
    + apply warning_issue_iff in H. unfold negative_lp_tokens in H.
      apply filter_In in H as [H' H]. cbn [fst snd] in H.
      rewrite <- (same_currency_same_balance txs c b b' Hin H'), Hb in H. discriminate.
Qed.

(** [negative_balance_report] at the LP token of [negative_year]: BTC-DFI at
    -2 is a warning and not an error. *)
Lemma negative_balance_report_witness :
  In (mkIssue warning (LPTokenNegative "BTC-DFI" (mkDec (-2) 0)) None)
     (_validate_currency_balances negative_year)
  /\ forall b', ~ In (mkIssue error (NegativeBalance "BTC-DFI" b') None)
                     (_validate_currency_balances negative_year).
Proof.
  apply (proj1 (negative_balance_report negative_year "BTC-DFI" (mkDec (-2) 0)
                  ltac:(vm_compute; right; left; reflexivity)));
    reflexivity.
Defined.

(** C9, as stated, fails: in [dust_year] the regular currency ETH has the
    negative net balance -0.0000005, and the check reports no error at all.
    Besides, the ledger replay treats an LP token as any other currency:
    the year [lp_year], which only withdraws 2 BTC-DFI, is invalid. *)
Lemma small_negative_balance_is_no_error :
  currency_balances dust_year = [("ETH", mkDec (-5) (-7))]
  /\ Dltb (mkDec (-5) (-7)) Dzero = true
  /\ contains "-" "ETH" = false
  /\ Forall (fun i => level i <> error) (_validate_currency_balances dust_year)
  /\ BalanceTracker.valid
       (fst (BalanceTracker.process_and_validate_year ∅ 2023 lp_year)) = false.
Proof.
  split; [reflexivity |]. split; [reflexivity |]. split; [reflexivity |].
  split; [| reflexivity].
  vm_compute. repeat constructor; discriminate.
Qed.

End NegativeBalances.

(** ** Numbers survive being written and read back *)

Section NumberText.

Lemma append_nil_l (s : string) : "" +:+ s = s.
Proof. reflexivity. Qed.

Lemma append_cons (c : ascii) (a b : string) : String c a +:+ b = String c (a +:+ b).
Proof. reflexivity. Qed.

Lemma append_assoc (a b c : string) : (a +:+ b) +:+ c = a +:+ (b +:+ c).
Proof.
  induction a as [| x a IH]; [reflexivity |]. rewrite !append_cons. now rewrite IH.
Qed.

Lemma append_empty_r (a : string) : a +:+ "" = a.
Proof.
  induction a as [| x a IH]; [reflexivity |]. rewrite append_cons. now rewrite IH.
Qed.

Lemma length_append (a b : string) :
  String.length (a +:+ b) = (String.length a + String.length b)%nat.
Proof.
  induction a as [| c a IH]; [reflexivity |].
  rewrite append_cons. cbn [String.length]. now rewrite IH.
Qed.

Lemma string_of_uint_all_digits (d : Decimal.uint) :
  all_digits (NilEmpty.string_of_uint d) = true.
Proof.
  induction d as [| d IH | d IH | d IH | d IH | d IH | d IH | d IH | d IH | d IH | d IH];
    [reflexivity | ..]; cbn [NilEmpty.string_of_uint all_digits]; now rewrite IH.
Qed.

Lemma to_uint_not_Nil (n : N) : N.to_uint n <> Decimal.Nil.
Proof.
  intros H. pose proof (DecimalN.Unsigned.of_to n) as E. rewrite H in E.
  cbn in E. subst n. discriminate H.
Qed.

Lemma str_of_N_all_digits (n : N) : all_digits (str_of_N n) = true.
Proof. apply string_of_uint_all_digits. Qed.

Lemma str_of_N_cons (n : N) :
  exists c r, str_of_N n = String c r /\ is_digit c = true /\ all_digits r = true.
Proof.
  unfold str_of_N. pose proof (to_uint_not_Nil n) as Hn.
  pose proof (string_of_uint_all_digits (N.to_uint n)) as Hd.
  destruct (N.to_uint n); [congruence | ..];
    cbn [NilEmpty.string_of_uint all_digits] in Hd |- *;
    apply andb_true_iff in Hd as [Hc Hr]; eauto.
Qed.

Lemma N_of_digits_str_of_N (n : N) : N_of_digits (str_of_N n) = Some n.
Proof.
  destruct (str_of_N_cons n) as (c & r & E & _). unfold N_of_digits. rewrite E, <- E.
  unfold str_of_N. rewrite NilEmpty.usu. cbn. f_equal. apply DecimalN.Unsigned.of_to.
Qed.

Lemma is_digit_not_sign (c : ascii) :
  is_digit c = true -> Ascii.eqb c "-" = false /\ Ascii.eqb c "+" = false
                       /\ Ascii.eqb c "." = false /\ Ascii.eqb c "E" = false
                       /\ Ascii.eqb c "e" = false.
Proof.
  intros H. repeat split; apply Ascii.eqb_neq; intros ->; discriminate H.
Qed.

Lemma strip_sign_digit (c : ascii) (r : string) :
  is_digit c = true -> strip_sign (String c r) = (false, String c r).
Proof.
  intros H. destruct (is_digit_not_sign c H) as (E1 & E2 & _).
  unfold strip_sign. now rewrite E1, E2.
Qed.

Lemma int_of_str_str_of_int (z : Z) : int_of_str (str_of_int z) = Some z.
Proof.
  unfold int_of_str, str_of_int. destruct (Z.ltb_spec z 0) as [Hz | Hz].
  - rewrite append_cons, append_nil_l.
    change (strip_sign (String "-" (str_of_N (Z.abs_N z))))
      with (true, str_of_N (Z.abs_N z)).
    cbv beta iota. rewrite N_of_digits_str_of_N. cbn. f_equal.
    rewrite N2Z.inj_abs_N. lia.
  - destruct (str_of_N_cons (Z.abs_N z)) as (c & r & E & Hc & _).
    rewrite E, (strip_sign_digit c r Hc), <- E. cbv beta iota.
    rewrite N_of_digits_str_of_N. cbn.
    f_equal. rewrite N2Z.inj_abs_N. lia.
Qed.

Lemma take_digits_app (ds rest : string) :
  all_digits ds = true -> digits_end rest = true ->
  take_digits (ds +:+ rest) = (ds, rest).
Proof.
  intros Hd Hr. induction ds as [| c ds IH].
  - rewrite append_nil_l. destruct rest as [| c r]; [reflexivity |].
    cbn [take_digits digits_end] in *.
    apply negb_true_iff in Hr. now rewrite Hr.
  - rewrite append_cons. cbn [take_digits all_digits] in *.
    apply andb_true_iff in Hd as [Hc Hd]. now rewrite Hc, (IH Hd).
Qed.

Lemma all_digits_app (a b : string) :
  all_digits (a +:+ b) = all_digits a && all_digits b.
Proof.
  induction a as [| c a IH]; [reflexivity |].
  rewrite append_cons. cbn [all_digits]. now rewrite IH, andb_assoc.
Qed.

Lemma all_digits_zeros (k : nat) : all_digits (zeros k) = true.
Proof. induction k as [| k IH]; [reflexivity |]. cbn [zeros all_digits]. now rewrite IH. Qed.

Lemma length_zeros (k : nat) : String.length (zeros k) = k.
Proof. induction k; cbn; auto. Qed.

Lemma take_drop (k : nat) (s : string) : str_take k s +:+ str_drop k s = s.
Proof.
  revert s. induction k as [| k IH]; intros s; [reflexivity |].
  destruct s as [| c r]; [reflexivity |].
  cbn [str_take str_drop]. rewrite append_cons. now rewrite IH.
Qed.

Lemma length_str_drop (k : nat) (s : string) :
  String.length (str_drop k s) = (String.length s - k)%nat.
Proof.
  revert s. induction k as [| k IH]; intros s; cbn; [lia |].
  destruct s as [| c r]; cbn; [reflexivity | apply IH].
Qed.

Lemma all_digits_take_drop (k : nat) (s : string) :
  all_digits s = true ->
  all_digits (str_take k s) = true /\ all_digits (str_drop k s) = true.
Proof.
  intros H. rewrite <- (take_drop k s), all_digits_app in H.
  now apply andb_true_iff in H.
Qed.

(** Leading zeros do not change the number. *)
Lemma N_of_digits_zeros (k : nat) (s : string) :
  s <> EmptyString ->
  N_of_digits (zeros k +:+ s) = N_of_digits s.
Proof.
  intros Hs. induction k as [| k IH]; [reflexivity |].
  cbn [zeros]. rewrite append_cons, <- IH.
  unfold N_of_digits at 1. cbn [NilEmpty.uint_of_string].
  destruct (zeros k +:+ s) as [| c r] eqn:E.
  - destruct k; [rewrite append_nil_l in E; congruence | discriminate E].
  - unfold N_of_digits. destruct (NilEmpty.uint_of_string (String c r)); reflexivity.
Qed.

Lemma int_of_str_signed (x : Z) : int_of_str (signed x) = Some x.
Proof.
  unfold int_of_str, signed. destruct (Z.ltb_spec x 0) as [Hx | Hx];
    rewrite append_cons, append_nil_l.
  - change (strip_sign (String "-" (str_of_N (Z.abs_N x))))
      with (true, str_of_N (Z.abs_N x)).
    cbv beta iota. rewrite N_of_digits_str_of_N. cbn. f_equal.
    rewrite N2Z.inj_abs_N. lia.
  - change (strip_sign (String "+" (str_of_N (Z.abs_N x))))
      with (false, str_of_N (Z.abs_N x)).
    cbv beta iota. rewrite N_of_digits_str_of_N. cbn. f_equal.
    rewrite N2Z.inj_abs_N. lia.
Qed.

(** The exponent suffix of a numeral. *)
Lemma read_exponent_tail (tail : string) (ex : Z) :
  (tail = "" /\ ex = 0) \/ tail = "E" +:+ signed ex ->
  read_exponent tail = Some ex
  /\ digits_end tail = true
  /\ take_fraction tail = ("", tail).
Proof.
  intros [[-> ->] | ->]; [repeat split |].
  rewrite append_cons, append_nil_l. repeat split.
  change (read_exponent (String "E" (signed ex))) with (int_of_str (signed ex)).
  apply int_of_str_signed.
Qed.

(** What [Decimal_of_str] reads from a numeral laid out as sign, integer
    digits, optional fraction and optional exponent. *)
Lemma Decimal_of_str_layout (neg dot : bool) (ip fp tail : string) (ex : Z) (n : N) :
  all_digits ip = true -> ip <> "" -> all_digits fp = true ->
  (dot = false -> fp = "") ->
  N_of_digits (ip +:+ fp) = Some n ->
  (tail = "" /\ ex = 0) \/ tail = "E" +:+ signed ex ->
  Decimal_of_str ((if neg then "-" else "") +:+ ip
                  +:+ (if dot then "." +:+ fp else "") +:+ tail)
  = Some (mkDec (if neg then - Z.of_N n else Z.of_N n)
                (ex - Z.of_nat (String.length fp))).
Proof.
  intros Hip Hne Hfp Hdot Hn Htail.
  destruct (read_exponent_tail tail ex Htail) as (Hex & Hend & Hfrac).
  set (rest := ip +:+ (if dot then "." +:+ fp else "") +:+ tail).
  assert (Hrest : take_digits rest = (ip, (if dot then "." +:+ fp else "") +:+ tail)).
  { apply take_digits_app; [exact Hip |].
    destruct dot; [reflexivity | now rewrite append_nil_l]. }
  assert (Hsign : strip_sign ((if neg then "-" else "") +:+ rest) = (neg, rest)).
  { destruct neg.
    - now rewrite append_cons, append_nil_l.
    - rewrite append_nil_l. subst rest.
      destruct ip as [| c r]; [congruence |].
      cbn [all_digits] in Hip. apply andb_true_iff in Hip as [Hc _].
      rewrite append_cons. now apply strip_sign_digit. }
  assert (Hfraction : take_fraction ((if dot then "." +:+ fp else "") +:+ tail)
                      = (fp, tail)).
  { destruct dot.
    - rewrite append_cons, append_nil_l, append_cons.
      change (take_fraction (String "." (fp +:+ tail))) with (take_digits (fp +:+ tail)).
      now apply take_digits_app.
    - rewrite (Hdot eq_refl), append_nil_l. exact Hfrac. }
  unfold Decimal_of_str. fold rest. rewrite Hsign, Hrest, Hfraction, Hex, Hn.
  reflexivity.
Qed.

Lemma signed_abs_N (c : Z) :
  (if c <? 0 then - Z.of_N (Z.abs_N c) else Z.of_N (Z.abs_N c)) = c.
Proof. rewrite N2Z.inj_abs_N. destruct (Z.ltb_spec c 0); lia. Qed.

Lemma length_str_of_N_pos (n : N) : (1 <= String.length (str_of_N n))%nat.
Proof. destruct (str_of_N_cons n) as (c & r & -> & _). cbn. lia. Qed.

(** Reading back the text of a Decimal gives the Decimal. *)
Lemma Decimal_of_str_str_of_Decimal (d : Decimal) :
  Decimal_of_str (str_of_Decimal d) = Some d.
Proof.
  destruct d as [c e]. unfold str_of_Decimal. cbn [coef dexp].
  set (ds := str_of_N (Z.abs_N c)).
  assert (Hds : all_digits ds = true) by apply str_of_N_all_digits.
  assert (Hlen : (1 <= String.length ds)%nat) by apply length_str_of_N_pos.
  assert (Hval : N_of_digits ds = Some (Z.abs_N c)) by apply N_of_digits_str_of_N.
  set (n := Z.of_nat (String.length ds)).
  set (dotplace := if (e <=? 0) && (-6 <? e + n) then e + n else 1).
  assert (Hmode : (dotplace = e + n /\ e <= 0) \/ dotplace = 1).
  { subst dotplace. destruct (Z.leb_spec e 0); cbn [andb]; [| now right].
    destruct (-6 <? e + n); [now left | now right]. }
  set (ex := e + n - dotplace).
  set (tail := if e + n =? dotplace then "" else "E" +:+ signed ex).
  assert (Htail : (tail = "" /\ ex = 0) \/ tail = "E" +:+ signed ex).
  { subst tail ex. destruct (Z.eqb_spec (e + n) dotplace); [left | now right].
    split; [reflexivity | lia]. }
  destruct (Z.leb_spec dotplace 0) as [H0 | H0];
    [| destruct (Z.leb_spec n dotplace) as [H1 | H1]]; cbv beta iota.
  - pose proof (Decimal_of_str_layout (c <? 0) true "0"
                  (zeros (Z.to_nat (- dotplace)) +:+ ds) tail ex (Z.abs_N c)) as L.
    cbv iota in L. rewrite L; clear L; try easy.
    + f_equal. f_equal; [apply signed_abs_N |].
      rewrite length_append, length_zeros. subst ex n. lia.
    + now rewrite all_digits_app, all_digits_zeros.
    + change ("0" +:+ zeros (Z.to_nat (- dotplace)) +:+ ds)
        with (zeros (S (Z.to_nat (- dotplace))) +:+ ds).
      rewrite N_of_digits_zeros; [exact Hval |].
      intros E. rewrite E in Hlen. cbn in Hlen. lia.
  - assert (Hdp : dotplace = n) by (subst n; lia).
    replace (Z.to_nat (dotplace - n)) with 0%nat by lia.
    cbn [zeros]. rewrite append_empty_r.
    pose proof (Decimal_of_str_layout (c <? 0) false ds "" tail ex (Z.abs_N c)) as L.
    cbv iota in L. rewrite L; clear L; try easy.
    + f_equal. f_equal; [apply signed_abs_N |]. subst ex. cbn. lia.
    + intros E. rewrite E in Hlen. cbn in Hlen. lia.
    + now rewrite append_empty_r.
  - destruct (all_digits_take_drop (Z.to_nat dotplace) ds Hds) as [Htk Hdr].
    pose proof (Decimal_of_str_layout (c <? 0) true (str_take (Z.to_nat dotplace) ds)
                  (str_drop (Z.to_nat dotplace) ds) tail ex (Z.abs_N c)) as L.
    cbv iota in L. rewrite L; clear L; try easy.
    + f_equal. f_equal; [apply signed_abs_N |].
      rewrite length_str_drop. subst ex n. lia.
    + intros E. pose proof (take_drop (Z.to_nat dotplace) ds) as T.
      rewrite E, append_nil_l in T.
      pose proof (length_str_drop (Z.to_nat dotplace) ds) as Ld.
      rewrite T in Ld. subst n. lia.
    + now rewrite take_drop.
Qed.

End NumberText.

(** ** The balance file *)

Section BalanceFile.

Import BalanceTracker.

Lemma mapM_map_Some {A B C : Type} (f : B -> option C) (g : A -> B) (k : A -> C)
      (l : list A) :
  (forall x, f (g x) = Some (k x)) -> mapM f (map g l) = Some (map k l).
Proof.
  intros H. induction l as [| x l IH]; [reflexivity |].
  cbn [map]. cbn. rewrite H, IH. reflexivity.
Qed.

Lemma list_to_map_reverse_to_list {K : Type} `{Countable K} {V : Type} (m : gmap K V) :
  list_to_map (reverse (map_to_list m)) = m.
Proof.
  rewrite <- (list_to_map_to_list m) at 2.
  apply list_to_map_proper; [| apply reverse_Permutation].
  rewrite fmap_reverse, reverse_Permutation. apply NoDup_fst_map_to_list.
Qed.

Lemma read_balances_written (balances : gmap string Decimal) :
  read_balances (map (fun '(c, a) => (c, str_of_Decimal a)) (map_to_list balances))
  = Some balances.
Proof.
  unfold read_balances.
  rewrite (mapM_map_Some _ _ (fun x => x)).
  - rewrite map_id. cbn. f_equal. apply list_to_map_reverse_to_list.
  - intros [c a]. now rewrite Decimal_of_str_str_of_Decimal.
Qed.



End BalanceFile.

(** ** The ledger adds up *)

Section LedgerValue.

Import BalanceTracker.

Local Open Scope Q_scope.

Lemma Qsum_app (l1 l2 : list Q) : Qsum (l1 ++ l2) == Qsum l1 + Qsum l2.
Proof.
  unfold Qsum. induction l1 as [| x l1 IH]; cbn [app fold_right].
  - ring.
  - rewrite IH. ring.
Qed.









Lemma drop_negligible_lookup (balances : gmap string Decimal) (c : string) :
  drop_negligible balances !! c
  = match balances !! c with
    | Some a => if _is_negligible a then None else Some a
    | None => None
    end.
Proof.
  unfold drop_negligible.
  destruct (balances !! c) as [a |] eqn:E.
  - destruct (_is_negligible a) eqn:Hn.
    + apply map_lookup_filter_None. right. intros a' Ha'. cbn. congruence.
    + apply map_lookup_filter_Some. split; [exact E | exact Hn].
  - apply map_lookup_filter_None. now left.
Qed.

End LedgerValue.

Section ValidatorValue.

Import KryptosekkenValidator.

Local Open Scope Q_scope.





End ValidatorValue.

Section LedgerReport.

Import BalanceTracker.

Local Open Scope Q_scope.

Lemma drop_negligible_idem (balances : gmap string Decimal) :
  drop_negligible (drop_negligible balances) = drop_negligible balances.
Proof.
  apply map_eq. intros c. rewrite !drop_negligible_lookup.
  destruct (balances !! c) as [a |]; [| reflexivity].
  destruct (_is_negligible a) eqn:E; [reflexivity |]. now rewrite E.
Qed.

Lemma load_saved (h : gmap Z (gmap string Decimal)) :
  _load_balance_state (save_balance_state h) = Some (drop_negligible <$> h).
Proof.
  unfold _load_balance_state, save_balance_state, serializable_history.
  rewrite (mapM_map_Some _ _ (prod_map (fun y => y) drop_negligible)).
  - cbn. f_equal.
    rewrite <- (list_to_map_to_list h) at 2.
    rewrite <- list_to_map_fmap.
    apply list_to_map_proper; [| apply reverse_Permutation].
    rewrite fmap_reverse, reverse_Permutation.
    rewrite <- list_fmap_compose.
    rewrite (list_fmap_ext _ fst (map_to_list h)) by (now intros ? []).
    apply NoDup_fst_map_to_list.
  - intros [y bal]. rewrite int_of_str_str_of_int. cbn.
    now rewrite read_balances_written.
Qed.

Lemma process_year_fields history year txs :
  let r := fst (process_and_validate_year history year txs) in
  starting_balances r = get_starting_balances history year
  /\ ending_balances r
     = drop_negligible (fst (replay (get_starting_balances history year) txs))
  /\ problematic_transactions r
     = snd (replay (get_starting_balances history year) txs)
  /\ snd (process_and_validate_year history year txs)
     = <[year := ending_balances r]> history
  /\ (valid r = true <-> problematic_transactions r = []).
Proof.
  unfold process_and_validate_year.
  destruct (replay (get_starting_balances history year) txs) as [bal probs].
  cbn [fst snd starting_balances ending_balances problematic_transactions valid].
  repeat split; destruct probs; cbn; congruence.
Qed.



End LedgerReport.



Section LedgerInvariant.

Import BalanceTracker.

Local Open Scope Q_scope.


Lemma Dltb_ge (a b : Decimal) : Dltb a b = false -> DtoQ b <= DtoQ a.
Proof.
  intros H. apply Qnot_lt_le. intros Hlt. apply Dltb_lt in Hlt. congruence.
Qed.



End LedgerInvariant.



(** X7.  The ending balances of a processed year open the following year,
    also after the state has been saved and loaded again; the years stored
    before are untouched, and a year with no stored predecessor starts
    empty. *)
Theorem year_end_opens_next_year
        (history : gmap Z (gmap string Decimal)) (year : Z)
        (txs : list KryptosekkenTransaction) :
  let r := fst (BalanceTracker.process_and_validate_year history year txs) in
  let history' := snd (BalanceTracker.process_and_validate_year history year txs) in
  BalanceTracker.get_starting_balances history' (year + 1) = BalanceTracker.ending_balances r
  /\ (forall y, y <> year -> history' !! y = history !! y)
  /\ (history !! (year - 1) = None -> BalanceTracker.starting_balances r = ∅)
  /\ (exists loaded,
         BalanceTracker._load_balance_state (BalanceTracker.save_balance_state history')
         = Some loaded
         /\ BalanceTracker.get_starting_balances loaded (year + 1)
            = BalanceTracker.ending_balances r).
Proof.
  intros r history'.
  destruct (process_year_fields history year txs) as (Hs & He & _ & Hh & _).
  fold r history' in Hs, He, Hh.
  split; [| split; [| split]].
  - unfold BalanceTracker.get_starting_balances.
    replace (year + 1 - 1) with year by lia. now rewrite Hh, lookup_insert_eq.
  - intros y Hy. rewrite Hh. now apply lookup_insert_ne.
  - intros Hnone. rewrite Hs. unfold BalanceTracker.get_starting_balances.
    now rewrite Hnone.
  - exists (BalanceTracker.drop_negligible <$> history'). split; [apply load_saved |].
    unfold BalanceTracker.get_starting_balances.
    replace (year + 1 - 1) with year by lia.
    rewrite Hh, lookup_fmap, lookup_insert_eq. cbn. rewrite He.
    apply drop_negligible_idem.
Qed.

Section LedgerErrors.

Import BalanceTracker.

Local Open Scope Q_scope.

Lemma StronglySorted_app_inv {A : Type} (R : A -> A -> Prop) (l1 l2 : list A) :
  StronglySorted R (l1 ++ l2) ->
  StronglySorted R l1 /\ (forall x y, In x l1 -> In y l2 -> R x y).
Proof.
  induction l1 as [| a l1 IH]; cbn; intros H.
  - split; [constructor | intros ? ? []].
  - inversion H as [| ? ? Hs Hall]; subst. destruct (IH Hs) as [Hs1 Hcross].
    rewrite List.Forall_forall in Hall. split.
    + constructor; [exact Hs1 |]. apply List.Forall_forall. intros x Hx.
      apply Hall, in_or_app. now left.
    + intros x y [<- | Hx] Hy; [| now apply Hcross].
      apply Hall, in_or_app. now right.
Qed.

Lemma StronglySorted_weaken {A : Type} (R R' : A -> A -> Prop) (l : list A) :
  (forall x y, R x y -> R' x y) -> StronglySorted R l -> StronglySorted R' l.
Proof.
  intros HR. induction 1 as [| a l _ IH Hall]; constructor; [exact IH |].
  eapply List.Forall_impl; [| exact Hall]. intros y. apply HR.
Qed.

Lemma sorted_problems_order (problems : list problem) :
  StronglySorted (fun p q => DtoQ (deficit q) <= DtoQ (deficit p))
                 (py_sort (fun p q => Dltb (deficit q) (deficit p)) problems).
Proof.
  eapply StronglySorted_weaken;
    [| apply (py_sort_sorted (fun p q => Dltb (deficit q) (deficit p)))].
  - intros p q H. now apply Dltb_ge.
  - intros a b H. apply Dltb_lt in H.
    destruct (Dltb (deficit a) (deficit b)) eqn:E; [| reflexivity].
    apply Dltb_lt in E. exfalso. eapply Qlt_irrefl, Qlt_trans; eassumption.
  - intros a b c H1 H2. apply Dltb_ge in H1. apply Dltb_ge in H2.
    destruct (Dltb (deficit a) (deficit c)) eqn:E; [| reflexivity].
    apply Dltb_lt in E. exfalso.
    apply (Qlt_irrefl (DtoQ (deficit a))).
    eapply Qlt_le_trans; [exact E |]. eapply Qle_trans; eassumption.
Qed.

End LedgerErrors.

(** X8.  When a year has problem entries, the report's error lines are a
    headline with their number, then at most five entries, the ones with
    the largest deficits in non-increasing order, and a closing line
    counting the others when there are more than five. *)
Theorem report_lists_largest_deficits
        (history : gmap Z (gmap string Decimal)) (year : Z)
        (txs : list KryptosekkenTransaction) :
  let r := fst (BalanceTracker.process_and_validate_year history year txs) in
  let problems := BalanceTracker.problematic_transactions r in
  problems <> [] ->
  exists top rest,
    Permutation (top ++ rest) problems
    /\ length top = Nat.min 5 (length problems)
    /\ BalanceTracker.errors r
       = BalanceTracker.InsufficientFunds (length problems)
           :: map BalanceTracker.TriedToSpend top
           ++ (if (5 <? length problems)%nat
               then [BalanceTracker.AndMore (length problems - 5)] else [])
    /\ StronglySorted
         (fun p q => (DtoQ (BalanceTracker.deficit q) <= DtoQ (BalanceTracker.deficit p))%Q)
         top
    /\ (forall p q, In p top -> In q rest ->
                    (DtoQ (BalanceTracker.deficit q) <= DtoQ (BalanceTracker.deficit p))%Q).
Proof.
  intros r problems Hne. subst r problems.
  unfold BalanceTracker.process_and_validate_year in *.
  destruct (BalanceTracker.replay _ txs) as [bal probs].
  cbn [fst BalanceTracker.problematic_transactions BalanceTracker.errors] in *.
  destruct probs as [| p0 probs]; [contradiction |].
  set (all := p0 :: probs) in *.
  set (sorted := py_sort _ all).
  assert (Hlen : length sorted = length all) by apply py_sort_length.
  exists (take 5 sorted), (drop 5 sorted).
  pose proof (sorted_problems_order all) as Hsorted. fold sorted in Hsorted.
  rewrite <- (list.take_drop 5 sorted) in Hsorted.
  apply StronglySorted_app_inv in Hsorted as [Htop Hcross].
  split; [rewrite list.take_drop; apply py_sort_perm |].
  split; [rewrite length_take, Hlen; reflexivity |].
  split; [| split; [exact Htop | exact Hcross]].
  cbn [app]. now rewrite Hlen.
Qed.

(** [report_lists_largest_deficits] on the BTC scenario: one problem, one
    entry below the headline. *)
Lemma report_lists_largest_deficits_witness :
  exists top rest,
    Permutation (top ++ rest)
      (BalanceTracker.problematic_transactions
         (fst (BalanceTracker.process_and_validate_year btc_history 2023 btc_year)))
    /\ length top = 1%nat.
Proof.
  destruct (report_lists_largest_deficits btc_history 2023 btc_year)
    as (top & rest & Hperm & Hlen & _).
  - vm_compute. discriminate.
  - exists top, rest. split; [exact Hperm | exact Hlen].
Defined.

(** ** The rate lookup only consults the days around the date *)

Section LookupWindow.

Import CurrencyConverter.

Lemma snd_bind {A B} (m : Lookup A) (k : A -> Lookup B) :
  snd (bind m k) = snd m ++ snd (k (fst m)).
Proof. unfold bind. now destruct (k (fst m)). Qed.

Lemma probe_first_log (cache : gmap Z Decimal) (ds : list Z) :
  exists rest, ds = snd (probe_first cache ds) ++ rest.
Proof.
  induction ds as [| d ds [rest IH]]; [now exists [] |].
  cbn [probe_first]. rewrite snd_bind. cbn [probe fst snd].
  destruct (cache !! d).
  - exists ds. reflexivity.
  - exists rest. cbn. now rewrite <- IH.
Qed.

Lemma probe_first_Some (cache : gmap Z Decimal) (ds : list Z) (r : Decimal) :
  fst (probe_first cache ds) = Some r -> exists x, In x ds /\ cache !! x = Some r.
Proof.
  induction ds as [| d ds IH]; [discriminate |].
  cbn [probe_first]. rewrite fst_bind. cbn [probe fst].
  destruct (cache !! d) as [v |] eqn:E.
  - intros [= <-]. exists d. split; [now left | exact E].
  - intros H. destruct (IH H) as [x [Hx Hr]]. exists x. split; [now right | exact Hr].
Qed.

Lemma probe_first_None (cache : gmap Z Decimal) (ds : list Z) :
  fst (probe_first cache ds) = None -> forall x, In x ds -> cache !! x = None.
Proof.
  induction ds as [| d ds IH]; [intros _ x [] |].
  cbn [probe_first]. rewrite fst_bind. cbn [probe fst].
  destruct (cache !! d) as [v |] eqn:E; [discriminate |].
  intros H x [<- | Hx]; [exact E | now apply IH].
Qed.

Lemma probe_first_agree (cache cache' : gmap Z Decimal) (ds : list Z) :
  (forall x, In x ds -> cache !! x = cache' !! x) ->
  probe_first cache ds = probe_first cache' ds.
Proof.
  induction ds as [| d ds IH]; intros H; [reflexivity |].
  cbn [probe_first]. unfold probe. rewrite <- (H d) by now left.
  rewrite IH by (intros x Hx; apply H; now right). reflexivity.
Qed.

(** The dates the lookup may consult, in the order of the three loops. *)
Lemma find_rate_log (cache : gmap Z Decimal) (target : Z) :
  exists rest,
    target :: map (fun days_back => target - days_back) (seqZ 1 LOOKUP_RANGE_DAYS)
           ++ map (fun days_forward => target + days_forward) (seqZ 1 LOOKUP_RANGE_DAYS)
    = snd (_find_rate_for_date cache target) ++ rest.
Proof.
  unfold _find_rate_for_date. rewrite snd_bind. cbn [probe fst snd app].
  destruct (cache !! target).
  - eexists. cbn. reflexivity.
  - rewrite snd_bind.
    destruct (probe_first_log cache
                (map (fun days_back => target - days_back) (seqZ 1 LOOKUP_RANGE_DAYS)))
      as [rest1 E1].
    destruct (fst (probe_first cache _)) eqn:Hb.
    + exists (rest1 ++ map (fun days_forward => target + days_forward)
                           (seqZ 1 LOOKUP_RANGE_DAYS)).
      cbn [app snd ret]. rewrite app_nil_r. f_equal. rewrite E1 at 1.
      now rewrite <- app_assoc.
    + destruct (probe_first_log cache
                  (map (fun days_forward => target + days_forward)
                       (seqZ 1 LOOKUP_RANGE_DAYS)))
        as [rest2 E2].
      assert (Hfull : rest1 = []).
      { clear E2. revert rest1 E1 Hb.
        generalize (map (fun days_back => target - days_back) (seqZ 1 LOOKUP_RANGE_DAYS)).
        induction l as [| d l IH]; intros rest1 E1 Hb.
        - cbn in E1. now destruct rest1.
        - cbn [probe_first] in *. rewrite snd_bind in E1. rewrite fst_bind in Hb.
          cbn [probe fst snd] in *. destruct (cache !! d); [discriminate |].
          cbn in E1. injection E1 as E1. now apply IH. }
      subst rest1. rewrite app_nil_r in E1.
      exists rest2. cbn [app]. f_equal. rewrite <- E1, <- app_assoc. now rewrite <- E2.
Qed.

Lemma window_dates (target x : Z) :
  In x (target :: map (fun days_back => target - days_back) (seqZ 1 LOOKUP_RANGE_DAYS)
               ++ map (fun days_forward => target + days_forward) (seqZ 1 LOOKUP_RANGE_DAYS))
  <-> target - LOOKUP_RANGE_DAYS <= x <= target + LOOKUP_RANGE_DAYS.
Proof.
  cbn [In]. rewrite in_app_iff, !in_map_iff. unfold LOOKUP_RANGE_DAYS. split.
  - intros [<- | [[j [<- Hj]] | [j [<- Hj]]]]; [lia | |];
      apply list_elem_of_In, elem_of_seqZ in Hj; lia.
  - intros Hx. destruct (Z.compare_spec x target) as [-> | Hlt | Hgt].
    + now left.
    + right. left. exists (target - x). split; [lia |].
      apply list_elem_of_In, elem_of_seqZ. lia.
    + right. right. exists (x - target). split; [lia |].
      apply list_elem_of_In, elem_of_seqZ. lia.
Qed.

Lemma find_rate_Some (cache : gmap Z Decimal) (target : Z) (r : Decimal) :
  fst (_find_rate_for_date cache target) = Some r ->
  exists x, target - LOOKUP_RANGE_DAYS <= x <= target + LOOKUP_RANGE_DAYS
            /\ cache !! x = Some r.
Proof.
  unfold _find_rate_for_date. rewrite fst_bind. cbn [probe fst].
  destruct (cache !! target) as [v |] eqn:E.
  - intros [= <-]. exists target. unfold LOOKUP_RANGE_DAYS. split; [lia | exact E].
  - rewrite fst_bind.
    destruct (fst (probe_first cache (map (fun days_back => target - days_back) _)))
      as [v |] eqn:Hb.
    + intros [= <-]. apply probe_first_Some in Hb as [x [Hx Hr]].
      exists x. split; [| exact Hr]. apply window_dates. right. apply in_or_app. now left.
    + intros Hf. apply probe_first_Some in Hf as [x [Hx Hr]].
      exists x. split; [| exact Hr]. apply window_dates. right. apply in_or_app. now right.
Qed.

Lemma find_rate_None (cache : gmap Z Decimal) (target : Z) :
  fst (_find_rate_for_date cache target) = None ->
  forall x, target - LOOKUP_RANGE_DAYS <= x <= target + LOOKUP_RANGE_DAYS ->
            cache !! x = None.
Proof.
  unfold _find_rate_for_date. rewrite fst_bind. cbn [probe fst].
  destruct (cache !! target) as [v |] eqn:E; [discriminate |].
  rewrite fst_bind.
  destruct (fst (probe_first cache (map (fun days_back => target - days_back) _)))
    as [v |] eqn:Hb; [discriminate |].
  intros Hf x Hx. apply (proj2 (window_dates target x)) in Hx.
  destruct Hx as [<- | Hx]; [exact E |].
  apply in_app_or in Hx as [Hx | Hx].
  - exact (probe_first_None _ _ Hb x Hx).
  - exact (probe_first_None _ _ Hf x Hx).
Qed.

Lemma find_rate_agree (cache cache' : gmap Z Decimal) (target : Z) :
  (forall x, target - LOOKUP_RANGE_DAYS <= x <= target + LOOKUP_RANGE_DAYS ->
             cache !! x = cache' !! x) ->
  _find_rate_for_date cache target = _find_rate_for_date cache' target.
Proof.
  intros H. unfold _find_rate_for_date, probe.
  rewrite <- (H target) by (unfold LOOKUP_RANGE_DAYS; lia).
  rewrite (probe_first_agree cache cache'
             (map (fun days_back => target - days_back) (seqZ 1 LOOKUP_RANGE_DAYS)))
    by (intros x Hx; apply H, window_dates; right; apply in_or_app; now left).
  rewrite (probe_first_agree cache cache'
             (map (fun days_forward => target + days_forward) (seqZ 1 LOOKUP_RANGE_DAYS)))
    by (intros x Hx; apply H, window_dates; right; apply in_or_app; now right).
  reflexivity.
Qed.

End LookupWindow.

(** X9.  The rate lookup is local to the 29 days around the date: it looks
    up the date itself first and then only dates at most 14 days away, at
    most 29 in all; a rate is found exactly when one of these days has a
    quote, the rate returned is then the quote of one of them, and is the
    fallback constant otherwise; and two caches that agree on these days
    give the same rate and the same lookups. *)
Theorem rate_lookup_is_local :
  (forall cache d,
      (exists rest, snd (CurrencyConverter._find_rate_for_date cache d) = d :: rest)
      /\ (length (snd (CurrencyConverter._find_rate_for_date cache d)) <= 29)%nat
      /\ (forall x, In x (snd (CurrencyConverter._find_rate_for_date cache d)) ->
                    d - LOOKUP_RANGE_DAYS <= x <= d + LOOKUP_RANGE_DAYS))
  /\ (forall cache d,
         CurrencyConverter.has_rate_for_date cache d = true
         <-> exists x, d - LOOKUP_RANGE_DAYS <= x <= d + LOOKUP_RANGE_DAYS
                       /\ cache !! x <> None)
  /\ (forall cache dt,
         CurrencyConverter.has_rate_for_date cache (date_of dt) = false ->
         fst (CurrencyConverter.get_usd_to_nok_rate cache dt) = FALLBACK_USD_NOK_RATE)
  /\ (forall cache dt,
         CurrencyConverter.has_rate_for_date cache (date_of dt) = true ->
         exists x, date_of dt - LOOKUP_RANGE_DAYS <= x <= date_of dt + LOOKUP_RANGE_DAYS
                   /\ cache !! x = Some (fst (CurrencyConverter.get_usd_to_nok_rate cache dt)))
  /\ (forall cache cache' usd_amount dt,
         (forall x, date_of dt - LOOKUP_RANGE_DAYS <= x <= date_of dt + LOOKUP_RANGE_DAYS ->
                    cache !! x = cache' !! x) ->
         CurrencyConverter.convert_usd_to_nok cache usd_amount dt
         = CurrencyConverter.convert_usd_to_nok cache' usd_amount dt).
Proof.
  split; [| split; [| split; [| split]]].
  - intros cache d. destruct (find_rate_log cache d) as [rest E]. split; [| split].
    + unfold CurrencyConverter._find_rate_for_date. rewrite snd_bind.
      cbn [CurrencyConverter.probe snd app]. eauto.
    + apply (f_equal (@length Z)) in E.
      rewrite length_app in E. cbn [length] in E.
      rewrite length_app, !length_map, !length_seqZ in E.
      unfold LOOKUP_RANGE_DAYS in E. lia.
    + intros x Hx. apply window_dates. rewrite E. apply in_or_app. now left.
  - intros cache d. unfold CurrencyConverter.has_rate_for_date.
    destruct (fst (CurrencyConverter._find_rate_for_date cache d)) as [r |] eqn:E.
    + split; [intros _ | reflexivity].
      apply find_rate_Some in E as [x [Hx Hr]]. exists x. split; [exact Hx | congruence].
    + split; [discriminate |]. intros [x [Hx Hr]].
      now rewrite (find_rate_None cache d E x Hx) in Hr.
  - intros cache dt. unfold CurrencyConverter.has_rate_for_date.
    rewrite fst_get_usd_to_nok_rate.
    now destruct (fst (CurrencyConverter._find_rate_for_date cache (date_of dt))).
  - intros cache dt. unfold CurrencyConverter.has_rate_for_date.
    rewrite fst_get_usd_to_nok_rate.
    destruct (fst (CurrencyConverter._find_rate_for_date cache (date_of dt)))
      as [r |] eqn:E; [| discriminate].
    intros _. cbn. now apply find_rate_Some.
  - intros cache cache' usd_amount dt H.
    unfold CurrencyConverter.convert_usd_to_nok, CurrencyConverter.get_usd_to_nok_rate.
    now rewrite (find_rate_agree cache cache' (date_of dt) H).
Qed.

(** ** What a rewards group holds *)

Section RewardGroupsShape.

Import OperationMapper TransactionGrouper.

Lemma dict_upd_entries {K V : Type} `{EqDecision K} (P : K -> V -> Prop)
      (dflt : V) (f : V -> V) (k : K) (d : list (K * V)) :
  P k (f dflt) -> (forall v, P k v -> P k (f v)) ->
  Forall (fun kv => P (fst kv) (snd kv)) d ->
  Forall (fun kv => P (fst kv) (snd kv)) (dict_upd dflt f k d).
Proof.
  intros Hd Hf. induction d as [| [k' v] d IH]; cbn; intros H.
  - repeat constructor. exact Hd.
  - inversion H as [| ? ? Hv Hrest]; subst. cbn [fst snd] in Hv.
    destruct (decide (k = k')) as [<- | _]; constructor; cbn [fst snd]; auto.
Qed.

Lemma sort_by_date_sorted (l : list CakeTransaction) :
  StronglySorted (fun a b => instant (date a) <= instant (date b)) (sort_by_date l).
Proof.
  eapply StronglySorted_weaken;
    [| apply (py_sort_sorted (fun a b => dt_ltb (date a) (date b)))].
  - intros a b H. unfold dt_ltb in H. apply Z.ltb_ge in H. exact H.
  - intros a b. unfold dt_ltb. rewrite Z.ltb_lt, Z.ltb_ge. lia.
  - intros a b c. unfold dt_ltb. rewrite !Z.ltb_ge. lia.
Qed.

Lemma min_date_from (ts : list CakeTransaction) (acc : datetime) :
  fold_left (fun m x => if dt_ltb (date x) m then date x else m) ts acc = acc
  \/ exists m, In m ts
               /\ fold_left (fun m x => if dt_ltb (date x) m then date x else m) ts acc
                  = date m.
Proof.
  revert acc. induction ts as [| x ts IH]; intros acc; cbn [fold_left]; [now left |].
  destruct (IH (if dt_ltb (date x) acc then date x else acc)) as [E | [m [Hm E]]].
  - rewrite E. destruct (dt_ltb (date x) acc); [| now left].
    right. exists x. split; [now left | reflexivity].
  - right. exists m. split; [now right | exact E].
Qed.

Lemma min_date_In (t : CakeTransaction) (ts : list CakeTransaction) :
  exists m, In m (t :: ts) /\ min_date t ts = date m.
Proof.
  unfold min_date. destruct (min_date_from ts (date t)) as [E | [m [Hm E]]].
  - exists t. split; [now left | exact E].
  - exists m. split; [now right | exact E].
Qed.

(** A daily group: the income events of one day and currency. *)
Lemma daily_group_members txs g :
  In g (daily_reward_groups txs) ->
  exists k,
    (forall m, In m (transactions g) ->
               In m txs /\ is_income m = true /\ group_key m = k)
    /\ StronglySorted (fun a b => instant (date a) <= instant (date b)) (transactions g)
    /\ (1 < length (transactions g))%nat.
Proof.
  intros H. apply daily_group_shape in H as [k [E Hlen]]. exists k.
  rewrite E. split; [| split].
  - intros m Hm. apply py_sort_In in Hm.
    apply filter_In in Hm as [Hm Hk]. apply filter_In in Hm as [Hm Hi].
    apply bool_decide_eq_true in Hk. auto.
  - apply sort_by_date_sorted.
  - unfold sort_by_date. now rewrite py_sort_length.
Qed.

Lemma daily_group_timestamp txs g k :
  (forall m, In m (transactions g) -> In m txs /\ is_income m = true /\ group_key m = k) ->
  transactions g <> [] ->
  match timestamp g with Some dt => date_of dt | None => 0 end = fst k.
Proof.
  intros Hk Hne. unfold timestamp. destruct (transactions g) as [| t ts]; [contradiction |].
  destruct (min_date_In t ts) as [m [Hm ->]].
  destruct (Hk m Hm) as (_ & _ & <-). reflexivity.
Qed.

Lemma weekly_entries (gs : list TransactionGroup) :
  Forall (fun kv =>
            forall x, In x (snd kv) ->
                      exists dg, In dg gs /\ In x (transactions dg)
                                 /\ (let group_date :=
                                       match timestamp dg with
                                       | Some dt => date_of dt | None => 0 end in
                                     group_date - weekday group_date) = fst kv)
         (fold_left
            (fun d daily_group =>
               let group_date :=
                 match timestamp daily_group with Some dt => date_of dt | None => 0 end in
               let monday := group_date - weekday group_date in
               dict_upd [] (fun l => l ++ transactions daily_group) monday d)
            gs []).
Proof.
  induction gs as [| g gs IH] using rev_ind; [constructor |].
  rewrite fold_left_app. cbn [fold_left].
  apply (dict_upd_entries
           (fun k l => forall x, In x l ->
                                 exists dg, In dg (gs ++ [g]) /\ In x (transactions dg)
                                            /\ _ = k)).
  - intros x Hx. exists g. split; [apply in_or_app; right; now left |]. now split.
  - intros v Hv x Hx. apply in_app_or in Hx as [Hx | Hx]; [now apply Hv |].
    exists g. split; [apply in_or_app; right; now left |]. now split.
  - eapply List.Forall_impl; [| exact IH]. intros [k l] H x Hx. cbn [fst snd] in *.
    destruct (H x Hx) as (dg & Hdg & Hin & E). exists dg.
    split; [apply in_or_app; now left | now split].
Qed.

End RewardGroupsShape.

(** X10.  An aggregated-rewards group holds at least two events, all of
    them income events of the list, all in one currency and in time order;
    when the currency is not ETH they all fall on one calendar day, and
    when it is ETH they all fall in one week counted from Monday. *)
Theorem rewards_group_is_homogeneous
        (txs : list CakeTransaction) (g : TransactionGroup) :
  In g (TransactionGrouper._group_daily_rewards txs) ->
  exists t ts,
    transactions g = t :: ts /\ ts <> []
    /\ StronglySorted (fun a b => instant (date a) <= instant (date b)) (transactions g)
    /\ (forall m, In m (transactions g) ->
                  In m txs /\ TransactionGrouper.is_income m = true
                  /\ coin_asset m = coin_asset t)
    /\ (coin_asset t <> "ETH" ->
        forall m, In m (transactions g) -> date_of (date m) = date_of (date t))
    /\ (coin_asset t = "ETH" ->
        forall m, In m (transactions g) ->
                  date_of (date m) - weekday (date_of (date m))
                  = date_of (date t) - weekday (date_of (date t))).
Proof.
  intros Hg.
  assert (Hcases :
            (In g (TransactionGrouper.daily_reward_groups txs)
             /\ TransactionGrouper.first_coin_is_ETH g = false)
            \/ In g (TransactionGrouper._aggregate_eth_daily_to_weekly
                       (List.filter TransactionGrouper.first_coin_is_ETH
                                    (TransactionGrouper.daily_reward_groups txs)))).
  { unfold TransactionGrouper._group_daily_rewards in Hg.
    destruct (List.filter TransactionGrouper.first_coin_is_ETH
                          (TransactionGrouper.daily_reward_groups txs)) as [| e es] eqn:E.
    - left. apply filter_In in Hg as [Hg Hc]. now apply negb_true_iff in Hc.
    - apply in_app_or in Hg as [Hg | Hg]; [| now right].
      left. apply filter_In in Hg as [Hg Hc]. now apply negb_true_iff in Hc. }
  destruct Hcases as [[Hd Hc] | Hw].
  - destruct (daily_group_members txs g Hd) as (k & Hk & Hsorted & Hlen).
    destruct (transactions g) as [| t ts] eqn:Et; [cbn in Hlen; lia |].
    exists t, ts. split; [reflexivity |].
    split; [intros ->; cbn in Hlen; lia |]. split; [exact Hsorted |].
    assert (Ht : TransactionGrouper.group_key t = k) by (apply Hk; now left).
    split; [| split].
    + intros m Hm. destruct (Hk m Hm) as (H1 & H2 & H3). repeat split; auto.
      rewrite <- Ht in H3. now injection H3.
    + intros _ m Hm. destruct (Hk m Hm) as (_ & _ & H3).
      rewrite <- Ht in H3. now injection H3.
    + intros Heth. unfold TransactionGrouper.first_coin_is_ETH in Hc. rewrite Et in Hc.
      apply bool_decide_eq_false in Hc. contradiction.
  - unfold TransactionGrouper._aggregate_eth_daily_to_weekly in Hw.
    apply in_flat_map in Hw as [[monday l] [Hkl Hw]].
    destruct (Nat.ltb_spec 1 (length l)) as [Hlen |]; [| contradiction].
    destruct Hw as [<- | []]. cbn [transactions].
    pose proof (weekly_entries
                  (List.filter TransactionGrouper.first_coin_is_ETH
                               (TransactionGrouper.daily_reward_groups txs))) as Hent.
    rewrite List.Forall_forall in Hent. specialize (Hent _ Hkl). cbn [fst snd] in Hent.
    assert (Hmem : forall m, In m (sort_by_date l) ->
                     In m txs /\ TransactionGrouper.is_income m = true
                     /\ coin_asset m = "ETH"
                     /\ date_of (date m) - weekday (date_of (date m)) = monday).
    { intros m Hm. apply py_sort_In in Hm.
      destruct (Hent m Hm) as (dg & Hdg & Hin & Emon).
      apply filter_In in Hdg as [Hdg Heth].
      destruct (daily_group_members txs dg Hdg) as (k & Hk & _ & Hl).
      destruct (Hk m Hin) as (H1 & H2 & H3).
      assert (Hne : transactions dg <> []) by (intros E; rewrite E in Hin; contradiction).
      rewrite (daily_group_timestamp txs dg k Hk Hne) in Emon.
      unfold TransactionGrouper.first_coin_is_ETH in Heth.
      destruct (transactions dg) as [| d0 ds] eqn:Ed; [contradiction |].
      apply bool_decide_eq_true in Heth.
      destruct (Hk d0 (or_introl eq_refl)) as (_ & _ & H0).
      rewrite <- H3 in H0, Emon. injection H0 as Hday Hcoin.
      repeat split; auto. congruence. }
    assert (Hlen' : (1 < length (sort_by_date l))%nat)
      by (unfold sort_by_date; now rewrite py_sort_length).
    destruct (sort_by_date l) as [| t ts] eqn:Es; [cbn in Hlen'; lia |].
    exists t, ts. split; [reflexivity |].
    split; [intros ->; cbn in Hlen'; lia |].
    split; [rewrite <- Es; apply sort_by_date_sorted |].
    destruct (Hmem t (or_introl eq_refl)) as (_ & _ & Hct & Hmt).
    split; [| split].
    + intros m Hm. destruct (Hmem m Hm) as (H1 & H2 & H3 & _).
      repeat split; auto. congruence.
    + intros Hne. contradiction.
    + intros _ m Hm. destruct (Hmem m Hm) as (_ & _ & _ & H4). congruence.
Qed.

(** [rewards_group_is_homogeneous] at the one rewards group of
    [eth_week]: the two Tuesday rewards. *)
Lemma rewards_group_is_homogeneous_witness :
  exists g t ts,
    In g (TransactionGrouper._group_daily_rewards eth_week)
    /\ transactions g = t :: ts /\ ts <> []
    /\ (forall m, In m (transactions g) -> coin_asset m = coin_asset t).
Proof.
  eexists.
  destruct (rewards_group_is_homogeneous eth_week _
              ltac:(vm_compute; left; reflexivity))
    as (t & ts & Et & Hts & _ & Hm & _).
  exists t, ts. split; [vm_compute; left; reflexivity |].
  split; [exact Et |]. split; [exact Hts |]. intros m Hin. now apply Hm.
Defined.

(** ** What a group built from a group id holds *)

Section ReferenceGroupsShape.

Import OperationMapper TransactionGrouper.

Lemma fold_upd_entries {A B K : Type} `{EqDecision K} (P : K -> list A -> Prop)
      (kf : B -> K) (vf : B -> list A) (l : list B) (d : list (K * list A)) :
  (forall k, P k []) ->
  (forall b v, In b l -> P (kf b) v -> P (kf b) (v ++ vf b)) ->
  Forall (fun kv => P (fst kv) (snd kv)) d ->
  Forall (fun kv => P (fst kv) (snd kv))
         (fold_left (fun d b => dict_upd [] (fun vs => vs ++ vf b) (kf b) d) l d).
Proof.
  intros Hnil. revert d. induction l as [| b l IH]; intros d Hstep Hd; [exact Hd |].
  cbn [fold_left]. apply IH; [intros b' v Hb'; apply Hstep; now right |].
  apply dict_upd_entries; [| | exact Hd].
  - apply (Hstep b []); [now left | apply Hnil].
  - intros v. apply Hstep. now left.
Qed.

Lemma str_truthy_Some (o : option string) (r : string) :
  str_truthy o = Some r -> o = Some r /\ r <> "".
Proof.
  unfold str_truthy. destruct o as [s |]; [| discriminate].
  destruct (decide (s = "")); [discriminate |]. intros [= <-]. now split.
Qed.

Lemma initial_groups_entries txs :
  Forall (fun kv => forall m, In m (snd kv) -> filed_under txs (fst kv) m)
         (initial_groups txs).
Proof.
  apply List.Forall_forall. intros [k l] Hkl m Hm. cbn [fst snd].
  unfold initial_groups in Hkl. apply group_by_entry in Hkl. subst l.
  apply filter_In in Hm as [Hm Hk]. apply bool_decide_eq_true in Hk.
  apply filter_In in Hm as [Hm Hgo]. unfold goes_to_initial_group in Hgo.
  destruct (str_truthy (related_reference_id m)) as [r |] eqn:E; [| discriminate].
  apply str_truthy_Some in E as [E Hr]. rewrite E in Hk. cbn in Hk. subst r.
  split; [exact Hm |]. split; [exact Hr |]. left. now split.
Qed.

Lemma attached_groups_entries txs :
  Forall (fun kv => forall m, In m (snd kv) -> filed_under txs (fst kv) m)
         (attached_groups txs).
Proof.
  unfold attached_groups.
  apply (fold_upd_entries (fun k l => forall m, In m l -> filed_under txs k m)
                          (fun tx => default "" (reference tx)) (fun tx => [tx])).
  - intros k m [].
  - intros b v Hb Hv m Hm. apply in_app_or in Hm as [Hm | [<- | []]]; [now apply Hv |].
    apply filter_In in Hb as [Hb Hatt]. unfold attaches in Hatt.
    apply andb_true_iff in Hatt as [Hres _]. unfold is_liquidity_result in Hres.
    destruct (str_truthy (reference b)) as [r |] eqn:E; [| discriminate].
    apply str_truthy_Some in E as [E Hr]. rewrite E. cbn [default from_option id].
    apply bool_decide_eq_true, list_elem_of_In in Hres.
    unfold single_txs in Hb. apply filter_In in Hb as [Hb Hgo].
    apply negb_true_iff in Hgo. unfold goes_to_initial_group in Hgo.
    split; [exact Hb |]. split; [exact Hr |]. right. split; [exact E |].
    split; [exact Hres |].
    destruct (str_truthy (related_reference_id b)); [| reflexivity].
    destruct Hres as [Ho | [Ho | []]]; rewrite <- Ho in Hgo; discriminate Hgo.
  - apply initial_groups_entries.
Qed.

Lemma Sorted_snoc {A : Type} (R : A -> A -> Prop) (l : list A) (a x : A) :
  Sorted R (l ++ [a]) -> R a x -> Sorted R ((l ++ [a]) ++ [x]).
Proof.
  intros Hs Hr. induction l as [| y l IH]; cbn in *.
  - repeat constructor. exact Hr.
  - inversion Hs as [| ? ? Hs' Hhd]; subst. constructor; [now apply IH |].
    destruct l; cbn in *; inversion Hhd; subst; now constructor.
Qed.

(** The walk only keeps together neighbours at most [MAX_TIME_DELTA]
    apart. *)
Lemma split_by_gap_tight prev cur0 rest :
  Sorted (fun a b => instant (date a) <= instant (date b)) (prev :: rest) ->
  Sorted (fun a b => instant (date a) <= instant (date b)
                     <= instant (date a) + MAX_TIME_DELTA) (cur0 ++ [prev]) ->
  Forall (Sorted (fun a b => instant (date a) <= instant (date b)
                             <= instant (date a) + MAX_TIME_DELTA))
         (split_by_gap prev (cur0 ++ [prev]) rest).
Proof.
  revert prev cur0. induction rest as [| x rest IH]; intros prev cur0 Hin Hcur; cbn.
  - repeat constructor. exact Hcur.
  - inversion Hin as [| ? ? Hin' Hhd]; subst. inversion Hhd as [| ? ? Hle]; subst.
    destruct (Z.ltb_spec MAX_TIME_DELTA (instant (date x) - instant (date prev))).
    + constructor; [exact Hcur |]. apply (IH x []); [exact Hin' |]. repeat constructor.
    + apply (IH x (cur0 ++ [prev])); [exact Hin' |].
      apply Sorted_snoc; [exact Hcur | lia].
Qed.

Lemma split_group_tight l sub :
  In sub (split_group l) ->
  Sorted (fun a b => instant (date a) <= instant (date b)
                     <= instant (date a) + MAX_TIME_DELTA) sub
  /\ sub <> [] /\ forall m, In m sub -> In m l.
Proof.
  intros Hsub. split; [| split].
  - unfold split_group in Hsub.
    pose proof (sort_by_date_sorted l) as Hs. apply StronglySorted_Sorted in Hs.
    destruct (sort_by_date l) as [| t rest]; [contradiction |].
    pose proof (split_by_gap_tight t [] rest Hs) as Ht.
    rewrite List.Forall_forall in Ht. apply Ht; [| exact Hsub]. repeat constructor.
  - unfold split_group in Hsub. destruct (sort_by_date l) as [| t rest]; [contradiction |].
    pose proof (split_by_gap_nonempty t [t] rest) as Hne.
    rewrite List.Forall_forall in Hne. apply Hne; [discriminate | exact Hsub].
  - intros m Hm. apply (Permutation_in _ (split_group_perm l)).
    apply in_concat. eauto.
Qed.

End ReferenceGroupsShape.

(** X11.  An output group that is not an aggregated-rewards group and not
    a singleton was built from one group id: each member is a kept event
    that carries this id, as its related reference id with a label that
    requires grouping, or as its reference when it is a liquidity result
    without a group id of its own; the id is the group's reference id; the
    members are in time order, neighbours at most ten minutes apart; and
    the group's type is the one its labels determine. *)
Theorem reference_group_is_tight (txs : list CakeTransaction) (g : TransactionGroup) :
  In g (TransactionGrouper.group_transactions txs) ->
  In (group_type g) ["swap"; "add_liquidity"; "remove_liquidity"] ->
  exists id,
    id <> "" /\ reference_id g = Some id
    /\ transactions g <> []
    /\ (forall m, In m (transactions g) ->
                  In m (TransactionGrouper.filter_transactions txs)
                  /\ ((related_reference_id m = Some id
                       /\ OperationMapper.requires_grouping (operation m) = true)
                      \/ (reference m = Some id
                          /\ In (operation m) ["Added liquidity"; "Removed liquidity"]
                          /\ str_truthy (related_reference_id m) = None)))
    /\ Sorted (fun a b => instant (date a) <= instant (date b)
                          <= instant (date a) + TransactionGrouper.MAX_TIME_DELTA)
              (transactions g)
    /\ group_type g = TransactionGrouper._determine_group_type (transactions g).
Proof.
  intros Hg Htype. unfold TransactionGrouper.group_transactions in Hg.
  apply py_sort_In in Hg. unfold TransactionGrouper.unsorted_groups in Hg.
  apply in_app_or in Hg as [Hg | Hg]; [| exfalso; apply in_app_or in Hg as [Hg | Hg]].
  - apply in_map_iff in Hg as [l [<- Hl]].
    apply in_flat_map in Hl as [[k tx_list] [Hkl Hl]].
    destruct (split_group_tight tx_list l Hl) as (Hsorted & Hne & Hsub).
    pose proof (attached_groups_entries txs) as Hent.
    rewrite List.Forall_forall in Hent. specialize (Hent _ Hkl). cbn [fst snd] in Hent.
    assert (Hmem : forall m, In m l -> filed_under txs k m)
      by (intros m Hm; apply Hent, Hsub, Hm).
    exists k. cbn [transactions group_type reference_id TransactionGrouper.final_group].
    destruct l as [| t ts]; [contradiction |].
    destruct (Hmem t (or_introl eq_refl)) as (_ & Hk & Hid).
    split; [exact Hk |]. split; [| split; [discriminate | split; [| split]]].
    + destruct Hid as [[E _] | (E & _ & Enone)].
      * rewrite E. cbn. destruct (decide (k = "")); [contradiction | reflexivity].
      * now rewrite Enone.
    + intros m Hm. destruct (Hmem m Hm) as (H1 & _ & H3). now split.
    + exact Hsorted.
    + reflexivity.
  - apply daily_rewards_groups in Hg as [E _]. rewrite E in Htype.
    cbn in Htype. intuition discriminate.
  - apply in_map_iff in Hg as [x [<- _]]. cbn in Htype. intuition discriminate.
Qed.

(** [reference_group_is_tight] at the swap group of [swap_events]. *)
Lemma reference_group_is_tight_witness :
  exists g id,
    TransactionGrouper.group_transactions swap_events = [g]
    /\ reference_id g = Some id /\ id = "swap-1".
Proof.
  eexists.
  destruct (reference_group_is_tight swap_events _
              ltac:(vm_compute; left; reflexivity)
              ltac:(vm_compute; left; reflexivity))
    as (id & _ & Hid & _).
  exists id. split; [vm_compute; reflexivity |]. split; [exact Hid |].
  cbn in Hid. congruence.
Defined.

(** ** What the converter emits *)

Section ConverterOutput.

Import OperationMapper TransactionGrouper.

Variable cache : gmap Z Decimal.

Lemma single_length tx l :
  _convert_single_transaction cache tx = Some l -> length l = 1%nat.
Proof.
  unfold _convert_single_transaction.
  destruct (get_transaction_type _ _) as [ty |]; [| discriminate].
  destruct ty; try destruct (existsb _ _); try destruct (Dltb (amount tx) Dzero);
    intros [= <-]; reflexivity.
Qed.

Lemma convert_each_length txs l :
  convert_each cache txs = Some l -> length l = length txs.
Proof.
  revert l. induction txs as [| tx txs IH]; cbn [convert_each]; intros l H.
  - now injection H as <-.
  - destruct (_convert_single_transaction cache tx) as [sub |] eqn:E; [| discriminate].
    destruct (convert_each cache txs) as [rest |]; [| discriminate].
    injection H as <-. rewrite length_app, (single_length _ _ E), (IH rest eq_refl).
    reflexivity.
Qed.

Lemma fallback_length g l :
  _fallback_conversion cache g = Some l -> length l = length (transactions g).
Proof.
  unfold _fallback_conversion. destruct (timestamp g); [| discriminate].
  apply convert_each_length.
Qed.

Lemma timestamp_nonempty g ts : timestamp g = Some ts -> (1 <= length (transactions g))%nat.
Proof. unfold timestamp. destruct (transactions g); [discriminate | cbn; lia]. Qed.

Lemma find_nonempty {A : Type} (P : A -> bool) (l : list A) (x : A) :
  List.find P l = Some x -> (1 <= length l)%nat.
Proof. destruct l; [discriminate | cbn; lia]. Qed.

Lemma group_length g l :
  convert_group_to_kryptosekken cache g = Some l ->
  (length l <= length (transactions g))%nat.
Proof.
  unfold convert_group_to_kryptosekken. intros H.
  destruct (decide (group_type g = "swap")).
  { unfold _convert_swap_group in H.
    destruct (incoming_txs _) as [| [ci ai] [| ? ?]];
      try (apply fallback_length in H; lia).
    destruct (outgoing_txs _) as [| [co ao] ?].
    - destruct (conversion_op_str _); [| apply fallback_length in H; lia].
      destruct (timestamp g) eqn:Ets; [| discriminate].
      injection H as <-. now apply timestamp_nonempty in Ets.
    - destruct (timestamp g) eqn:Ets; [| discriminate].
      injection H as <-. now apply timestamp_nonempty in Ets. }
  destruct (decide (group_type g = "add_liquidity")).
  { unfold _convert_add_liquidity_group in H.
    destruct (List.find _ _) as [r |] eqn:Ef, (List.filter _ _) as [| a1 more];
      try (apply fallback_length in H; lia);
      injection H as <-; cbn; try lia; now apply find_nonempty in Ef. }
  destruct (decide (group_type g = "remove_liquidity")).
  { unfold _convert_remove_liquidity_group in H.
    destruct (List.find _ _) as [r |] eqn:Ef; [| apply fallback_length in H; lia].
    destruct (List.filter _ _) as [| a1 more]; [apply fallback_length in H; lia |].
    destruct (timestamp g); [| discriminate].
    injection H as <-. now apply find_nonempty in Ef. }
  destruct (decide (group_type g = "daily_rewards")).
  { unfold _convert_daily_rewards_group in H.
    destruct (transactions g) as [| t ts]; [discriminate |].
    destruct (timestamp _); [| discriminate].
    injection H as <-. cbn. lia. }
  destruct (transactions g) as [| tx ts] eqn:E; [discriminate |].
  apply single_length in H. rewrite H. cbn. lia.
Qed.

Lemma convert_groups_length gs :
  (length (convert_groups cache gs) <= length (members gs))%nat.
Proof.
  unfold convert_groups, members.
  induction gs as [| g gs IH]; cbn [flat_map]; [cbn; lia |].
  rewrite !length_app.
  destruct (convert_group_to_kryptosekken cache g) as [l |] eqn:E; cbn [default from_option id].
  - apply group_length in E. lia.
  - cbn [length]. lia.
Qed.

Lemma value_is_valid (t : KryptosekkenTransactionType) :
  In (value t) VALID_TRANSACTION_TYPES.
Proof. destruct t; cbn; tauto. Qed.

Lemma Dabs_nonneg (a : Decimal) : (0 <= DtoQ (Dabs a))%Q.
Proof. rewrite DtoQ_Dabs. apply Qabs_nonneg. Qed.

Lemma Qsum_nonneg (l : list Q) : Forall (fun q => 0 <= q)%Q l -> (0 <= Qsum l)%Q.
Proof.
  unfold Qsum. induction 1 as [| q l Hq _ IH]; cbn [fold_right]; [apply Qle_refl |].
  apply (Qle_trans _ (0 + 0)); [apply Qle_refl | now apply Qplus_le_compat].
Qed.

Lemma Dsum_nonneg (l : list Decimal) :
  Forall (fun a => 0 <= DtoQ a)%Q l -> (0 <= DtoQ (Dsum l))%Q.
Proof.
  intros H. rewrite DtoQ_Dsum. apply Qsum_nonneg.
  induction H; cbn; constructor; auto.
Qed.

Lemma Dgtb_pos (a : Decimal) : Dgtb a Dzero = true -> (0 <= DtoQ a)%Q.
Proof.
  unfold Dgtb. intros H. apply Dltb_lt in H. rewrite DtoQ_Dzero in H.
  now apply Qlt_le_weak.
Qed.

(** The amounts the three dictionaries hold after netting are not
    negative. *)
Lemma net_flows_nonneg txs c a :
  (dict_get c (incoming_txs (net_flows txs)) = Some a -> 0 <= DtoQ a)%Q
  /\ (dict_get c (outgoing_txs (net_flows txs)) = Some a -> 0 <= DtoQ a)%Q
  /\ (dict_get c (fee_txs (net_flows txs)) = Some a -> 0 <= DtoQ a)%Q.
Proof.
  destruct (net_flows_sums txs c a) as (Hi & Ho & Hf).
  split; [| split]; intros H.
  - rewrite (Hi H). apply Dsum_nonneg, List.Forall_forall. intros x Hx.
    apply in_map_iff in Hx as [m [<- Hm]]. apply filter_In in Hm as [_ Hm].
    unfold incoming_leg in Hm. apply andb_true_iff in Hm as [Hm _].
    apply andb_true_iff in Hm as [_ Hm]. now apply Dgtb_pos.
  - rewrite (Ho H). apply Dsum_nonneg, List.Forall_forall. intros x Hx.
    apply in_map_iff in Hx as [m [<- _]]. apply Dabs_nonneg.
  - rewrite (Hf H). apply Dsum_nonneg, List.Forall_forall. intros x Hx.
    apply in_map_iff in Hx as [m [<- _]]. apply Dabs_nonneg.
Qed.

Lemma well_formed_intro ts ty i ic u uc f fc n :
  In ty VALID_TRANSACTION_TYPES -> amount_ok i ic -> amount_ok u uc -> amount_ok f fc ->
  well_formed {| tidspunkt := Some ts; type := ty; inn := i; inn_valuta := ic;
                 ut := u; ut_valuta := uc; gebyr := f; gebyr_valuta := fc;
                 marked := Some "CakeDeFi"; notat := n; row_num := None |}.
Proof.
  intros Hty Hi Hu Hf. unfold well_formed. cbn [tidspunkt type inn inn_valuta ut ut_valuta
    gebyr gebyr_valuta marked row_num].
  repeat split; auto; discriminate.
Qed.

Ltac one_well_formed :=
  constructor; [| constructor];
  apply well_formed_intro; cbn [amount_ok option_map head];
  auto using Dabs_nonneg.

Lemma single_well_formed tx l :
  _convert_single_transaction cache tx = Some l -> Forall well_formed l.
Proof.
  unfold _convert_single_transaction.
  destruct (get_transaction_type _ _) as [ty |]; [| discriminate].
  pose proof (value_is_valid ty) as Hty.
  pose proof (value_is_valid OVERFORING_UT) as Hut.
  pose proof (value_is_valid OVERFORING_INN) as Hinn.
  pose proof (Dabs_nonneg (amount tx)) as Habs.
  destruct ty; try destruct (existsb _ _); try destruct (Dltb (amount tx) Dzero);
    try destruct (Dgtb (amount tx) Dzero);
    intros [= <-]; one_well_formed.
Qed.

Lemma convert_each_well_formed txs l :
  convert_each cache txs = Some l -> Forall well_formed l.
Proof.
  revert l. induction txs as [| tx txs IH]; cbn [convert_each]; intros l H.
  - injection H as <-. constructor.
  - destruct (_convert_single_transaction cache tx) as [sub |] eqn:E; [| discriminate].
    destruct (convert_each cache txs) as [rest |]; [| discriminate].
    injection H as <-. apply Forall_app. split; [eapply single_well_formed, E | now apply IH].
Qed.

Lemma fallback_well_formed g l :
  _fallback_conversion cache g = Some l -> Forall well_formed l.
Proof.
  unfold _fallback_conversion. destruct (timestamp g); [| discriminate].
  apply convert_each_well_formed.
Qed.

Lemma group_well_formed g l :
  convert_group_to_kryptosekken cache g = Some l -> Forall well_formed l.
Proof.
  unfold convert_group_to_kryptosekken. intros H.
  pose proof (value_is_valid HANDEL) as Hh. pose proof (value_is_valid INNTEKT) as Hi.
  pose proof (value_is_valid OVERFORING_INN) as Hinn.
  destruct (decide (group_type g = "swap")).
  { unfold _convert_swap_group in H.
    destruct (incoming_txs _) as [| [ci ai] [| ? ?]] eqn:Ein;
      try (eapply fallback_well_formed; eassumption).
    assert (Hai : (0 <= DtoQ ai)%Q).
    { apply (proj1 (net_flows_nonneg (transactions g) ci ai)).
      rewrite Ein. apply dict_get_head. }
    destruct (outgoing_txs _) as [| [co ao] ?] eqn:Eout.
    - destruct (conversion_op_str _); [| eapply fallback_well_formed; eassumption].
      destruct (timestamp g); [| discriminate].
      injection H as <-. one_well_formed.
    - assert (Hao : (0 <= DtoQ ao)%Q).
      { apply (proj1 (proj2 (net_flows_nonneg (transactions g) co ao))).
        rewrite Eout. apply dict_get_head. }
      destruct (timestamp g); [| discriminate].
      injection H as <-.
      assert (Hfee : amount_ok (option_map snd (head (fee_txs (net_flows (transactions g)))))
                               (option_map fst (head (fee_txs (net_flows (transactions g)))))).
      { destruct (fee_txs _) as [| [cf af] ?] eqn:Efee; cbn; [exact I |].
        apply (proj2 (proj2 (net_flows_nonneg (transactions g) cf af))).
        rewrite Efee. apply dict_get_head. }
      constructor; [| constructor]. apply well_formed_intro; cbn [amount_ok]; auto. }
  destruct (decide (group_type g = "add_liquidity")).
  { unfold _convert_add_liquidity_group in H.
    destruct (List.find _ _) as [r |], (List.filter _ _) as [| a1 more].
    - injection H as <-. one_well_formed.
    - injection H as <-. destruct more; one_well_formed.
    - eapply fallback_well_formed; eassumption.
    - injection H as <-. constructor. }
  destruct (decide (group_type g = "remove_liquidity")).
  { unfold _convert_remove_liquidity_group in H.
    destruct (List.find _ _) as [r |]; [| eapply fallback_well_formed; eassumption].
    destruct (List.filter _ _) as [| a1 more]; [eapply fallback_well_formed; eassumption |].
    destruct (timestamp g); [| discriminate].
    injection H as <-. destruct more; one_well_formed. }
  destruct (decide (group_type g = "daily_rewards")).
  { unfold _convert_daily_rewards_group in H.
    destruct (transactions g) as [| t ts]; [discriminate |].
    destruct (timestamp _); [| discriminate].
    injection H as <-. one_well_formed. }
  destruct (transactions g) as [| tx ts] eqn:E; [discriminate |].
  eapply single_well_formed, H.
Qed.

End ConverterOutput.

(** X12.  Conversion never adds rows: a group converts to at most as many
    canonical transactions as it has members, and the whole pipeline emits
    at most as many canonical transactions as there are kept events, hence
    at most as many as input events. *)
Theorem conversion_never_adds_rows :
  (forall cache g l,
      TransactionGrouper.convert_group_to_kryptosekken cache g = Some l ->
      (length l <= length (transactions g))%nat)
  /\ (forall cache txs,
         (length (TransactionGrouper.convert_groups cache
                    (TransactionGrouper.group_transactions txs))
          <= length (TransactionGrouper.filter_transactions txs))%nat
         /\ (length (TransactionGrouper.filter_transactions txs) <= length txs)%nat).
Proof.
  split; [apply group_length |].
  intros cache txs. split.
  - etransitivity; [apply convert_groups_length |].
    unfold TransactionGrouper.group_transactions.
    rewrite (Permutation_length (members_perm _ _ (py_sort_perm _ _))).
    now rewrite (Permutation_length (unsorted_groups_partition txs)).
  - unfold TransactionGrouper.filter_transactions.
    etransitivity; [apply List.filter_length_le |]. now rewrite length_imap.
Qed.

(** X13.  Every canonical transaction the converter emits, on any path, has
    a timestamp, one of the thirteen valid types, the market CakeDeFi and
    no row number; each of its three amounts comes with its currency code
    and is not negative, and a currency code never comes without its
    amount. *)
Theorem converter_output_is_well_formed
        (cache : gmap Z Decimal) (g : TransactionGroup) (l : list KryptosekkenTransaction) :
  TransactionGrouper.convert_group_to_kryptosekken cache g = Some l ->
  Forall well_formed l.
Proof. apply group_well_formed. Qed.

(** [converter_output_is_well_formed] at the swap group of [swap_events]. *)
Lemma converter_output_is_well_formed_witness :
  exists l,
    TransactionGrouper.convert_group_to_kryptosekken two_rates
      (mkGroup swap_events "swap" (Some "swap-1")) = Some l
    /\ length l = 1%nat /\ Forall well_formed l.
Proof.
  eexists. split; [vm_compute; reflexivity |]. split; [reflexivity |].
  apply (converter_output_is_well_formed two_rates
           (mkGroup swap_events "swap" (Some "swap-1"))).
  vm_compute. reflexivity.
Defined.

(** ** The check for input in date order *)

Section InputOrder.

Import CakeTransactionProcessor.

Lemma order_broken_false (prev_date : datetime) (dates : list datetime) :
  order_broken prev_date dates = false
  <-> Sorted (fun a b => instant a <= instant b) (prev_date :: dates).
Proof.
  revert prev_date. induction dates as [| d dates IH]; intros prev_date; cbn [order_broken].
  - split; [repeat constructor | reflexivity].
  - unfold dt_ltb. destruct (Z.ltb_spec (instant d) (instant prev_date)) as [Hlt | Hge].
    + split; [discriminate |]. intros H.
      inversion H as [| ? ? _ Hhd]; subst. inversion Hhd; subst. lia.
    + rewrite IH. split.
      * intros H. constructor; [exact H | now constructor].
      * intros H. now inversion H.
Qed.

Lemma dates_sorted (l : list CakeTransaction) :
  Sorted (fun a b => instant a <= instant b) (map date l)
  <-> Sorted (fun a b => instant (date a) <= instant (date b)) l.
Proof.
  induction l as [| x l IH]; cbn [map]; [split; constructor |].
  split; intros H; inversion H as [| ? ? Hs Hhd]; subst; constructor;
    try (now apply IH); destruct l; cbn [map] in *; inversion Hhd; subst; now constructor.
Qed.

Lemma sorted_lookup (l : list CakeTransaction) (i j : nat) (a b : CakeTransaction) :
  Sorted (fun a b => instant (date a) <= instant (date b)) l ->
  (i <= j)%nat -> l !! i = Some a -> l !! j = Some b ->
  instant (date a) <= instant (date b).
Proof.
  intros Hs. apply Sorted_StronglySorted in Hs; [| intros x y z; lia].
  revert i j. induction Hs as [| x l Hs IH Hall]; intros i j Hij Ha Hb; [discriminate |].
  destruct i as [| i], j as [| j]; cbn in Ha, Hb.
  - injection Ha as <-. injection Hb as <-. lia.
  - injection Ha as <-. rewrite List.Forall_forall in Hall. apply Hall.
    apply list_elem_of_In. eapply list_elem_of_lookup_2, Hb.
  - lia.
  - apply (IH i j); [lia | exact Ha | exact Hb].
Qed.

(** On a list in date order the sampling loop runs to the end and finds
    nothing. *)
Lemma sample_loop_sorted (l : list CakeTransaction) (step : nat) :
  Sorted (fun a b => instant (date a) <= instant (date b)) l ->
  (1 <= step)%nat ->
  forall fuel i p ptx,
    (length l <= fuel + i)%nat -> (p <= i)%nat -> l !! p = Some ptx ->
    sample_loop (S fuel) l i step (date ptx) = Some false.
Proof.
  intros Hs Hstep. induction fuel as [| fuel IH]; intros i p ptx Hfuel Hp Hptx;
    cbn [sample_loop]; destruct (Nat.ltb_spec i (length l)) as [Hi | Hi];
    try reflexivity; try lia.
  destruct (l !! i) as [tx |] eqn:Ei; [| apply lookup_ge_None in Ei; lia].
  pose proof (sorted_lookup l p i ptx tx Hs Hp Hptx Ei) as Hle.
  unfold dt_ltb. destruct (Z.ltb_spec (instant (date tx)) (instant (date ptx))); [lia |].
  apply (IH (i + step)%nat i tx); [lia | lia | exact Ei].
Qed.

Lemma last_at_end {A : Type} (l : list A) (x : A) :
  last l = Some x -> l !! pred (length l) = Some x.
Proof. intros H. now rewrite <- last_lookup. Qed.

Lemma sample_loop_returns (l : list CakeTransaction) (step : nat) :
  (1 <= step)%nat ->
  forall fuel i prev_date,
    (length l <= fuel + i)%nat ->
    exists b, sample_loop (S fuel) l i step prev_date = Some b.
Proof.
  intros Hstep. induction fuel as [| fuel IH]; intros i prev_date Hfuel;
    cbn [sample_loop]; destruct (Nat.ltb_spec i (length l)) as [Hi | Hi];
    eauto; try lia.
  destruct (l !! i) as [tx |] eqn:Ei; [| apply lookup_ge_None in Ei; lia].
  destruct (dt_ltb (date tx) prev_date); [eauto |]. apply IH. lia.
Qed.

Lemma sample_step (n : nat) :
  (100 < n)%nat ->
  (Nat.min 50 (n / 10) =? 0)%nat = false /\ (1 <= n / Nat.min 50 (n / 10))%nat.
Proof.
  intros Hn.
  assert (H10 : (10 <= n / 10)%nat) by (apply Nat.div_le_lower_bound; lia).
  assert (Hle : (n / 10 <= n)%nat) by (apply Nat.Div0.div_le_upper_bound; lia).
  split.
  - apply Nat.eqb_neq. lia.
  - apply Nat.div_le_lower_bound; lia.
Qed.

Lemma detailed_false (t : CakeTransaction) (rest : list CakeTransaction) :
  order_broken (date t) (map date rest) = false
  <-> Sorted (fun a b => instant (date a) <= instant (date b)) (t :: rest).
Proof. rewrite order_broken_false. apply (dates_sorted (t :: rest)). Qed.

Lemma check_returns txs : exists b, _check_if_sorting_needed txs = Some b.
Proof.
  unfold _check_if_sorting_needed.
  destruct (Nat.leb_spec (length txs) 1) as [Hn | Hn]; [eauto |].
  destruct txs as [| t rest]; [cbn in Hn; lia |].
  destruct (last (t :: rest)) as [l |] eqn:El;
    [| apply last_None in El; discriminate].
  cbn zeta. destruct (dt_ltb (date l) (date t)); [eauto |].
  destruct (decide _); [cbn; eauto |].
  destruct (Nat.ltb_spec 100 (length (t :: rest))) as [H100 | H100]; [| cbn; eauto].
  unfold _sample_order_check. destruct (sample_step _ H100) as [-> Hstep].
  apply sample_loop_returns; [exact Hstep | lia].
Qed.

Lemma check_sorted txs :
  Sorted (fun a b => instant (date a) <= instant (date b)) txs ->
  _check_if_sorting_needed txs = Some false.
Proof.
  intros Hs. unfold _check_if_sorting_needed.
  destruct (Nat.leb_spec (length txs) 1) as [Hn | Hn]; [reflexivity |].
  destruct txs as [| t rest]; [cbn in Hn; lia |].
  destruct (last (t :: rest)) as [l |] eqn:El;
    [| apply last_None in El; discriminate].
  cbn zeta. apply last_at_end in El.
  assert (Hle : instant (date t) <= instant (date l))
    by (apply (sorted_lookup (t :: rest) 0 (pred (length (t :: rest))) t l Hs);
        [lia | reflexivity | exact El]).
  unfold dt_ltb at 1. destruct (Z.ltb_spec (instant (date l)) (instant (date t))); [lia |].
  assert (Hd : _detailed_order_check (t :: rest) = Some false)
    by (cbn; f_equal; now apply detailed_false).
  destruct (decide _); [exact Hd |].
  destruct (Nat.ltb_spec 100 (length (t :: rest))) as [H100 | H100]; [| exact Hd].
  unfold _sample_order_check. destruct (sample_step _ H100) as [-> Hstep].
  apply (sample_loop_sorted (t :: rest) _ Hs Hstep _ _ 0%nat t); [lia | lia | reflexivity].
Qed.

Lemma check_false_small txs :
  (length txs <= 100)%nat
  \/ (exists t l, head txs = Some t /\ last txs = Some l
                  /\ date_of (date t) = date_of (date l)) ->
  _check_if_sorting_needed txs = Some false ->
  Sorted (fun a b => instant (date a) <= instant (date b)) txs.
Proof.
  intros Hsmall. unfold _check_if_sorting_needed.
  destruct (Nat.leb_spec (length txs) 1) as [Hn | Hn].
  - intros _. destruct txs as [| t [| u rest]]; [constructor | repeat constructor |].
    cbn in Hn. lia.
  - destruct txs as [| t rest]; [cbn in Hn; lia |].
    destruct (last (t :: rest)) as [l |] eqn:El; [| discriminate].
    cbn zeta. destruct (dt_ltb (date l) (date t)); [discriminate |].
    assert (Hd : _detailed_order_check (t :: rest) = Some false ->
                 Sorted (fun a b => instant (date a) <= instant (date b)) (t :: rest))
      by (cbn; intros [= H]; now apply detailed_false).
    destruct (decide _) as [Hday | Hday]; [exact Hd |].
    destruct (Nat.ltb_spec 100 (length (t :: rest))) as [H100 | H100]; [| exact Hd].
    destruct Hsmall as [Hs | (t' & l' & Ht & Hl & Hsame)]; [lia |].
    cbn in Ht. injection Ht as <-. rewrite ?El in Hl. injection Hl as <-. contradiction.
Qed.

End InputOrder.

(** X14.  The order check on the input never fails.  It answers "no sorting
    needed" on every list in date order, whatever its length; on a list of
    at most 100 events, or whose first and last events share a calendar
    day, it answers "sorting needed" exactly when the list is not in date
    order, so that the list handed to the grouper is then in date order;
    on a longer list it only samples, and can miss a disorder: the list
    [unsorted_long] is left as it is. *)
Theorem sorting_check_is_sound :
  (forall txs, exists b, CakeTransactionProcessor._check_if_sorting_needed txs = Some b)
  /\ (forall txs,
         Sorted (fun a b => instant (date a) <= instant (date b)) txs ->
         CakeTransactionProcessor._check_if_sorting_needed txs = Some false
         /\ CakeTransactionProcessor.sorted_if_needed txs = Some txs)
  /\ (forall txs t l,
         (length txs <= 100)%nat
         \/ (head txs = Some t /\ last txs = Some l
             /\ date_of (date t) = date_of (date l)) ->
         (CakeTransactionProcessor._check_if_sorting_needed txs = Some false
          <-> Sorted (fun a b => instant (date a) <= instant (date b)) txs)
         /\ exists out,
             CakeTransactionProcessor.sorted_if_needed txs = Some out
             /\ Permutation out txs
             /\ Sorted (fun a b => instant (date a) <= instant (date b)) out)
  /\ (length unsorted_long = 101%nat
      /\ CakeTransactionProcessor.sorted_if_needed unsorted_long = Some unsorted_long
      /\ ~ Sorted (fun a b => instant (date a) <= instant (date b)) unsorted_long).
Proof.
  assert (Hsmall : forall txs t l,
             (length txs <= 100)%nat
             \/ (head txs = Some t /\ last txs = Some l
                 /\ date_of (date t) = date_of (date l)) ->
             (length txs <= 100)%nat
             \/ (exists t l, head txs = Some t /\ last txs = Some l
                             /\ date_of (date t) = date_of (date l)))
    by (intros txs t l [H | H]; [now left | right; eauto]).
  split; [apply check_returns |]. split; [| split].
  - intros txs Hs. unfold CakeTransactionProcessor.sorted_if_needed.
    rewrite (check_sorted txs Hs). split; reflexivity.
  - intros txs t l Hs. apply Hsmall in Hs. split.
    + split; [now apply check_false_small | apply check_sorted].
    + unfold CakeTransactionProcessor.sorted_if_needed.
      destruct (check_returns txs) as [[|] E]; rewrite E; cbn.
      * exists (sort_by_date txs). split; [reflexivity |].
        split; [apply py_sort_perm |].
        apply StronglySorted_Sorted, sort_by_date_sorted.
      * exists txs. split; [reflexivity |]. split; [reflexivity |].
        now apply check_false_small.
  - split; [reflexivity |]. split; [vm_compute; reflexivity |].
    intros H. unfold unsorted_long in H.
    inversion H as [| ? ? H1 _]; subst. inversion H1 as [| ? ? _ Hhd]; subst.
    inversion Hhd as [| ? ? Hle]; subst. vm_compute in Hle. now apply Hle.
Qed.

(** ** The checks of the formatter *)

Section FormatterChecks.

Import KryptosekkenFormatter.

Ltac field_case :=
  cbn; split;
  [ try discriminate; intros _;
    (split;
     [ intros ? E; first [discriminate E
                         | injection E as <-; split; [discriminate | assumption]]
     | intros ? E; first [discriminate E | injection E as <-; assumption] ])
  | try reflexivity; intros [H1 H2];
    first [ specialize (H2 _ eq_refl); congruence
          | destruct (H1 _ eq_refl) as [H3 H4]; congruence ] ].

Lemma field_errors_nil name amount currency :
  field_errors name amount currency = [] <-> field_ok amount currency.
Proof.
  unfold field_errors, field_ok.
  destruct amount as [a |], (str_truthy currency) as [c |].
  - destruct (is_valid_decimal_precision a) eqn:Ep, (is_valid_currency_code c) eqn:Ev;
      field_case.
  - destruct (is_valid_decimal_precision a) eqn:Ep; field_case.
  - destruct (is_valid_currency_code c) eqn:Ev; field_case.
  - field_case.
Qed.

Lemma validate_transaction_nil tx :
  validate_transaction tx = []
  <-> tidspunkt tx <> None /\ type tx <> "" /\ has_side tx = true
      /\ field_ok (inn tx) (inn_valuta tx)
      /\ field_ok (ut tx) (ut_valuta tx)
      /\ field_ok (gebyr tx) (gebyr_valuta tx).
Proof.
  unfold validate_transaction.
  rewrite !app_nil, !field_errors_nil. unfold has_side.
  destruct (tidspunkt tx), (decide (type tx = "")), (inn tx), (ut tx);
    intuition (try discriminate; try congruence).
Qed.

Lemma imap_In {A B : Type} (f : nat -> A -> B) (l : list A) (y : B) :
  In y (imap f l) <-> exists i x, l !! i = Some x /\ y = f i x.
Proof.
  rewrite <- list_elem_of_In, elem_of_lookup_imap. split.
  - intros (i & x & -> & Hx). eauto.
  - intros (i & x & Hx & ->). eauto.
Qed.

End FormatterChecks.

(** X15.  The formatter accepts a transaction exactly when it has a
    timestamp, a non-empty type, an incoming or an outgoing amount, and
    when each of its three amounts comes with a currency code and keeps
    within the precision limits, and each currency code given is valid.
    A list is valid exactly when each of its transactions is accepted; the
    errors are reported under the 1-based position of their transaction,
    and only the positions with errors are listed. *)
Theorem formatter_accepts_exactly :
  (forall tx,
      KryptosekkenFormatter.validate_transaction tx = []
      <-> tidspunkt tx <> None /\ type tx <> "" /\ has_side tx = true
          /\ field_ok (inn tx) (inn_valuta tx)
          /\ field_ok (ut tx) (ut_valuta tx)
          /\ field_ok (gebyr tx) (gebyr_valuta tx))
  /\ (forall txs,
         KryptosekkenFormatter.valid (KryptosekkenFormatter.validate_transactions txs) = true
         <-> forall tx, In tx txs -> KryptosekkenFormatter.validate_transaction tx = [])
  /\ (forall txs i errs,
         In (i, errs) (KryptosekkenFormatter.transaction_errors
                         (KryptosekkenFormatter.validate_transactions txs))
         <-> errs <> []
             /\ exists j tx, i = S j /\ txs !! j = Some tx
                             /\ KryptosekkenFormatter.validate_transaction tx = errs)
  /\ (forall txs i e,
         In (i, e) (KryptosekkenFormatter.errors
                      (KryptosekkenFormatter.validate_transactions txs))
         <-> exists j tx, i = S j /\ txs !! j = Some tx
                          /\ In e (KryptosekkenFormatter.validate_transaction tx)).
Proof.
  assert (Hte : forall txs i errs,
             In (i, errs) (KryptosekkenFormatter.transaction_errors
                             (KryptosekkenFormatter.validate_transactions txs))
             <-> errs <> []
                 /\ exists j tx, i = S j /\ txs !! j = Some tx
                                 /\ KryptosekkenFormatter.validate_transaction tx = errs).
  { intros txs i errs. cbn [KryptosekkenFormatter.validate_transactions
                             KryptosekkenFormatter.transaction_errors].
    rewrite filter_In, imap_In. cbn [snd]. split.
    - intros [(j & tx & Hj & E) Hne]. injection E as -> ->.
      split; [now destruct (KryptosekkenFormatter.validate_transaction tx) | eauto].
    - intros [Hne (j & tx & -> & Hj & <-)]. split; [eauto |].
      now destruct (KryptosekkenFormatter.validate_transaction tx). }
  assert (Herr : forall txs i e,
             In (i, e) (KryptosekkenFormatter.errors
                          (KryptosekkenFormatter.validate_transactions txs))
             <-> exists j tx, i = S j /\ txs !! j = Some tx
                              /\ In e (KryptosekkenFormatter.validate_transaction tx)).
  { intros txs i e. cbn [KryptosekkenFormatter.validate_transactions
                          KryptosekkenFormatter.errors].
    rewrite in_flat_map. split.
    - intros [[i' errs] [Hin He]]. cbn [fst snd] in He.
      apply in_map_iff in He as [e' [[= <- <-] He]].
      apply (Hte txs i' errs) in Hin as [_ (j & tx & -> & Hj & <-)]. eauto.
    - intros (j & tx & -> & Hj & He).
      exists (S j, KryptosekkenFormatter.validate_transaction tx). split.
      + apply (Hte txs). split; [intros E; rewrite E in He; contradiction | eauto].
      + cbn [fst snd]. apply in_map_iff. eauto. }
  split; [apply validate_transaction_nil |]. split; [| split; [exact Hte | exact Herr]].
  intros txs. split.
  - intros Hv tx Htx.
    destruct (KryptosekkenFormatter.validate_transaction tx) as [| e es] eqn:E;
      [reflexivity | exfalso].
    apply list_elem_of_In, list_elem_of_lookup in Htx as [j Hj].
    assert (Hin : In (S j, e) (KryptosekkenFormatter.errors
                                 (KryptosekkenFormatter.validate_transactions txs))).
    { apply Herr. exists j, tx. rewrite E. repeat split; auto. now left. }
    cbn [KryptosekkenFormatter.validate_transactions KryptosekkenFormatter.valid
         KryptosekkenFormatter.errors] in Hv, Hin.
    destruct (flat_map _ _); [contradiction | discriminate].
  - intros Hall.
    destruct (KryptosekkenFormatter.errors
                (KryptosekkenFormatter.validate_transactions txs)) as [| [i e] es] eqn:E.
    + cbn [KryptosekkenFormatter.validate_transactions KryptosekkenFormatter.valid
           KryptosekkenFormatter.errors] in E |- *. now rewrite E.
    + exfalso. assert (Hin : In (i, e) ((i, e) :: es)) by now left.
      rewrite <- E in Hin. apply Herr in Hin as (j & tx & _ & Hj & He).
      rewrite (Hall tx) in He; [contradiction |].
      apply list_elem_of_In. eapply list_elem_of_lookup_2, Hj.
Qed.

Section StructureAgainstFormatter.

Import KryptosekkenFormatter StructureCheck.

Ltac refute_forall :=
  repeat match goal with
         | H : Forall _ (_ :: _) |- _ => inversion H; subst; clear H
         | H : is_precision_error _ |- _ => cbn in H; try contradiction
         end.

Ltac precision_case :=
  cbn; split;
  [ intros H; first [ split; reflexivity | exfalso; refute_forall ]
  | intros [H1 H2]; first [ discriminate H1 | discriminate H2
                          | repeat (constructor; try exact I) ] ].

Lemma field_only_precision name name' amount currency :
  Forall is_precision_error (field_errors name amount currency)
  <-> valuta_missing name amount currency = [] /\ valuta_format name' currency = [].
Proof.
  unfold field_errors, valuta_missing, valuta_format.
  destruct amount as [a |], (str_truthy currency) as [c |].
  - destruct (is_valid_decimal_precision a), (is_valid_currency_code c); precision_case.
  - destruct (is_valid_decimal_precision a); precision_case.
  - destruct (is_valid_currency_code c); precision_case.
  - precision_case.
Qed.

Lemma row_issues_nil tx :
  row_issues tx = []
  <-> In (type tx) VALID_TRANSACTION_TYPES
      /\ Forall is_precision_error (validate_transaction tx).
Proof.
  unfold row_issues, validate_transaction.
  rewrite !app_nil, !Forall_app.
  rewrite (field_only_precision "Inn" "Inn-Valuta"),
    (field_only_precision "Ut" "Ut-Valuta"),
    (field_only_precision "Gebyr" "Gebyr-Valuta").
  assert (Hempty : ~ In "" VALID_TRANSACTION_TYPES)
    by (cbn; intuition discriminate).
  destruct (tidspunkt tx); destruct (decide (type tx = "")) as [E | E];
    try rewrite E;
    destruct (bool_decide (type tx ∈ VALID_TRANSACTION_TYPES)) eqn:Hv;
    try (apply bool_decide_eq_true, list_elem_of_In in Hv);
    try (apply bool_decide_eq_false in Hv; rewrite list_elem_of_In in Hv);
    destruct (inn tx), (ut tx); split;
    intros H; decompose [and] H; clear H;
    repeat match goal with
           | H : Forall _ (_ :: _) |- _ => inversion H; subst; clear H
           | H : is_precision_error _ |- _ => contradiction H
           end;
    try discriminate; try contradiction; try congruence;
    repeat split; auto; try constructor; try rewrite <- E; auto.
Qed.

End StructureAgainstFormatter.

(** X16.  The validator's structure check and the formatter agree on a
    row: the structure check has nothing to report exactly when the type
    is one of the thirteen valid ones and the formatter has nothing to
    report but amounts beyond the precision limits, which the structure
    check does not look at. *)
Theorem structure_check_matches_formatter :
  (forall tx,
      StructureCheck.row_issues tx = []
      <-> In (type tx) VALID_TRANSACTION_TYPES
          /\ Forall is_precision_error (KryptosekkenFormatter.validate_transaction tx))
  /\ (forall txs,
         StructureCheck._validate_structure_and_fields txs = []
         <-> forall tx, In tx txs ->
                        In (type tx) VALID_TRANSACTION_TYPES
                        /\ Forall is_precision_error
                                  (KryptosekkenFormatter.validate_transaction tx)).
Proof.
  split; [apply row_issues_nil |].
  intros txs. unfold StructureCheck._validate_structure_and_fields.
  induction txs as [| tx txs IH]; cbn [flat_map].
  - split; [intros _ tx [] | reflexivity].
  - rewrite app_nil, IH. split.
    + intros [Htx Hrest] x [<- | Hx]; [| now apply Hrest].
      apply row_issues_nil.
      destruct (StructureCheck.row_issues tx); [reflexivity | discriminate Htx].
    + intros H. split.
      * now rewrite (proj2 (row_issues_nil tx) (H tx (or_introl eq_refl))).
      * intros x Hx. apply H. now right.
Qed.

(** X17.  The first three checks of the formatter never fail on what the
    converter emits for a group whose members have non-zero amounts: its
    only possible complaints about such a transaction are those of the
    three amount/currency pairs, and the type is one of the valid ones. *)
Theorem converter_output_passes_required_fields
        (cache : gmap Z Decimal) (g : TransactionGroup)
        (l : list KryptosekkenTransaction) (k : KryptosekkenTransaction) :
  TransactionGrouper.convert_group_to_kryptosekken cache g = Some l ->
  (forall m, In m (transactions g) -> is_zero (amount m) = false) ->
  In k l ->
  KryptosekkenFormatter.validate_transaction k
  = KryptosekkenFormatter.field_errors "Inn" (inn k) (inn_valuta k)
    ++ KryptosekkenFormatter.field_errors "Ut" (ut k) (ut_valuta k)
    ++ KryptosekkenFormatter.field_errors "Gebyr" (gebyr k) (gebyr_valuta k)
  /\ In (type k) VALID_TRANSACTION_TYPES.
Proof.
  intros Hconv Hnz Hk.
  pose proof (group_well_formed cache g l Hconv) as Hwf.
  pose proof (group_has_side cache g l Hconv Hnz) as Hside.
  rewrite List.Forall_forall in Hwf, Hside.
  destruct (Hwf k Hk) as (Hts & Hty & _). specialize (Hside k Hk).
  split; [| exact Hty].
  unfold KryptosekkenFormatter.validate_transaction, has_side in *.
  destruct (tidspunkt k); [| contradiction].
  destruct (decide (type k = "")) as [E | _].
  - rewrite E in Hty. cbn in Hty. intuition discriminate.
  - destruct (inn k), (ut k); try discriminate; reflexivity.
Qed.

(** [converter_output_passes_required_fields] at the swap of
    [swap_events]: the formatter has nothing to report. *)
Lemma converter_output_passes_required_fields_witness :
  exists k,
    TransactionGrouper.convert_group_to_kryptosekken two_rates
      (mkGroup swap_events "swap" (Some "swap-1")) = Some [k]
    /\ KryptosekkenFormatter.validate_transaction k = [].
Proof.
  eexists. split; [vm_compute; reflexivity |].
  rewrite (proj1 (converter_output_passes_required_fields two_rates
                    (mkGroup swap_events "swap" (Some "swap-1")) _ _
                    ltac:(vm_compute; reflexivity)
                    ltac:(intros m [<- | [<- | [<- | []]]]; reflexivity)
                    (or_introl eq_refl))).
  vm_compute. reflexivity.
Defined.

(** ** One file per tax year *)

Section YearlyFilesFacts.

Import YearlyFiles.

Lemma flat_map_pointwise_perm {A B : Type} (f g : A -> list B) (l : list A) :
  (forall x, In x l -> Permutation (f x) (g x)) ->
  Permutation (flat_map f l) (flat_map g l).
Proof.
  induction l as [| x l IH]; intros H; cbn [flat_map]; [reflexivity |].
  apply Permutation_app; [apply H; now left | apply IH; intros y Hy; apply H; now right].
Qed.

Lemma dict_values_by_key {K V : Type} `{EqDecision K} (dflt : V) (d : list (K * V)) :
  List.NoDup (map fst d) ->
  map (fun k => default dflt (dict_get k d)) (map fst d) = map snd d.
Proof.
  intros Hd. rewrite List.map_map. apply map_ext_in. intros [k v] Hkv. cbn [fst snd].
  now rewrite (In_dict_get d k v Hd Hkv).
Qed.

Lemma sorted_keys_strict (keys : list Z) :
  List.NoDup keys -> StronglySorted Z.lt (py_sort Z.ltb keys).
Proof.
  intros Hnd.
  assert (Hs : StronglySorted Z.le (py_sort Z.ltb keys)).
  { eapply StronglySorted_weaken; [| apply (py_sort_sorted Z.ltb)].
    - intros a b H. cbn in H. apply Z.ltb_ge in H. exact H.
    - intros a b. rewrite Z.ltb_lt, Z.ltb_ge. lia.
    - intros a b c. rewrite !Z.ltb_ge. lia. }
  assert (Hnd' : List.NoDup (py_sort Z.ltb keys))
    by (eapply Permutation_NoDup; [symmetry; apply py_sort_perm | exact Hnd]).
  induction Hs as [| k l Hs IH Hall]; [constructor |].
  inversion Hnd' as [| ? ? Hnin Hl]; subst. constructor; [now apply IH |].
  rewrite List.Forall_forall in Hall |- *. intros x Hx.
  specialize (Hall x Hx). assert (x <> k) by (intros ->; contradiction). lia.
Qed.

Lemma sort_insert_sorted_on {A : Type} (P : A -> Prop) (before : A -> A -> bool)
      (x : A) (l : list A) :
  (forall a b, P a -> P b -> before a b = true -> before b a = false) ->
  (forall a b c, P a -> P b -> P c ->
                 before b a = false -> before c b = false -> before c a = false) ->
  P x -> Forall P l ->
  StronglySorted (fun a b => before b a = false) l ->
  StronglySorted (fun a b => before b a = false) (sort_insert before x l).
Proof.
  intros Hasym Htrans Hx HP Hs. induction Hs as [| y l Hs IH Hy]; cbn [sort_insert].
  - repeat constructor.
  - inversion HP as [| ? ? Py Pl]; subst. destruct (before y x) eqn:E.
    + constructor; [now apply IH |].
      eapply Permutation_Forall; [symmetry; apply sort_insert_perm |].
      constructor; [now apply Hasym | exact Hy].
    + constructor; [now constructor |]. constructor; [exact E |].
      rewrite List.Forall_forall in Hy, Pl |- *. intros z Hz.
      apply (Htrans x y z); auto.
Qed.

Lemma py_sort_sorted_on {A : Type} (P : A -> Prop) (before : A -> A -> bool)
      (l : list A) :
  (forall a b, P a -> P b -> before a b = true -> before b a = false) ->
  (forall a b c, P a -> P b -> P c ->
                 before b a = false -> before c b = false -> before c a = false) ->
  Forall P l ->
  StronglySorted (fun a b => before b a = false) (py_sort before l).
Proof.
  intros Hasym Htrans HP. induction HP as [| x l Hx HP IH]; cbn [py_sort fold_right];
    [constructor |].
  apply (sort_insert_sorted_on P); auto.
  eapply Permutation_Forall; [symmetry; apply py_sort_perm | exact HP].
Qed.

Lemma tidspunkt_sorted (l : list KryptosekkenTransaction) :
  Forall (fun tx => has_tidspunkt tx = true) l ->
  StronglySorted
    (fun a b => exists x y, tidspunkt a = Some x /\ tidspunkt b = Some y
                            /\ instant x <= instant y)
    (py_sort tidspunkt_ltb l).
Proof.
  intros HP.
  assert (HP' : Forall (fun tx => has_tidspunkt tx = true) (py_sort tidspunkt_ltb l))
    by (eapply Permutation_Forall; [symmetry; apply py_sort_perm | exact HP]).
  pose proof (py_sort_sorted_on (fun tx => has_tidspunkt tx = true) tidspunkt_ltb l) as Hs.
  assert (Hsorted : StronglySorted (fun a b => tidspunkt_ltb b a = false)
                                   (py_sort tidspunkt_ltb l)).
  { apply Hs; [| | exact HP].
    - intros a b Ha Hb. unfold tidspunkt_ltb, has_tidspunkt, dt_ltb in *.
      destruct (tidspunkt a), (tidspunkt b); try discriminate.
      rewrite Z.ltb_lt, Z.ltb_ge. lia.
    - intros a b c Ha Hb Hc. unfold tidspunkt_ltb, has_tidspunkt, dt_ltb in *.
      destruct (tidspunkt a), (tidspunkt b), (tidspunkt c); try discriminate.
      rewrite !Z.ltb_ge. lia. }
  clear Hs. induction Hsorted as [| a s Hs IH Ha]; [constructor |].
  inversion HP' as [| ? ? Pa Ps]; subst. constructor; [now apply IH |].
  rewrite List.Forall_forall in Ha, Ps |- *. intros b Hb.
  specialize (Ha b Hb). specialize (Ps b Hb).
  unfold tidspunkt_ltb, has_tidspunkt, dt_ltb in *.
  destruct (tidspunkt a) as [x |], (tidspunkt b) as [y |]; try discriminate.
  exists x, y. apply Z.ltb_ge in Ha. auto.
Qed.

Lemma year_file_rows txs y rows :
  In (y, rows) (to_csv_files_by_year txs) ->
  exists vs,
    vs <> []
    /\ vs = List.filter (fun tx => bool_decide (tidspunkt_year tx = y))
                        (List.filter has_tidspunkt txs)
    /\ rows = py_sort tidspunkt_ltb vs.
Proof.
  unfold to_csv_files_by_year. destruct txs as [| t0 txs0]; [intros [] |].
  set (txs := t0 :: txs0). set (d := group_by tidspunkt_year _).
  intros H. apply in_map_iff in H as [k [[= <- <-] Hk]].
  apply py_sort_In, in_map_iff in Hk as [[k' vs] [<- Hin]]. cbn [fst].
  pose proof (group_by_NoDup tidspunkt_year (List.filter has_tidspunkt txs)) as Hnd.
  fold d in Hnd. rewrite (In_dict_get d k' vs Hnd Hin). cbn [default from_option id].
  exists vs. split; [| split; [now apply (group_by_entry tidspunkt_year) in Hin |
                               reflexivity]].
  pose proof (In_dict_get d k' vs Hnd Hin) as Hget. unfold d in Hget.
  rewrite group_by_get in Hget.
  destruct (List.filter (fun x => bool_decide (tidspunkt_year x = k')) _);
    [discriminate |].
  injection Hget as <-. discriminate.
Qed.

End YearlyFilesFacts.

Lemma convert_groups_well_formed cache gs :
  Forall well_formed (TransactionGrouper.convert_groups cache gs).
Proof.
  unfold TransactionGrouper.convert_groups.
  induction gs as [| g gs IH]; cbn [flat_map]; [constructor |].
  apply Forall_app. split; [| exact IH].
  destruct (TransactionGrouper.convert_group_to_kryptosekken cache g) as [l |] eqn:E;
    cbn [default from_option id]; [| constructor].
  now apply (group_well_formed cache g).
Qed.

(** X18.  Splitting by tax year loses and duplicates nothing: the yearly
    files, created in strictly increasing order of year, together hold
    exactly the transactions that have a timestamp; no file is empty, and
    each file holds the transactions whose timestamp falls in its year, in
    time order.  What the converter emits always has a timestamp, so all of
    it reaches a yearly file. *)
Theorem yearly_files_partition (txs : list KryptosekkenTransaction) :
  let files := YearlyFiles.to_csv_files_by_year txs in
  StronglySorted Z.lt (map fst files)
  /\ Permutation (concat (map snd files)) (List.filter YearlyFiles.has_tidspunkt txs)
  /\ (forall y rows,
         In (y, rows) files ->
         rows <> []
         /\ (forall tx, In tx rows <->
                        In tx txs /\ exists dt, tidspunkt tx = Some dt /\ year dt = y)
         /\ StronglySorted
              (fun a b => exists x y, tidspunkt a = Some x /\ tidspunkt b = Some y
                                      /\ instant x <= instant y)
              rows)
  /\ (forall cache events,
         List.filter YearlyFiles.has_tidspunkt
           (TransactionGrouper.convert_groups cache
              (TransactionGrouper.group_transactions events))
         = TransactionGrouper.convert_groups cache
             (TransactionGrouper.group_transactions events)).
Proof.
  intros files. split; [| split; [| split]];
    [| | | intros cache events; apply filter_all;
           eapply List.Forall_impl; [| apply convert_groups_well_formed];
           intros k (Hts & _); unfold YearlyFiles.has_tidspunkt;
           now destruct (tidspunkt k)].
  - subst files. unfold YearlyFiles.to_csv_files_by_year.
    destruct txs as [| t0 txs0]; [constructor |].
    rewrite List.map_map. cbn [fst]. rewrite map_id.
    apply sorted_keys_strict, group_by_NoDup.
  - subst files. unfold YearlyFiles.to_csv_files_by_year.
    destruct txs as [| t0 txs0]; [reflexivity |].
    set (txs := t0 :: txs0). set (d := group_by YearlyFiles.tidspunkt_year _).
    pose proof (group_by_NoDup YearlyFiles.tidspunkt_year
                  (List.filter YearlyFiles.has_tidspunkt txs)) as Hnd. fold d in Hnd.
    rewrite List.map_map. cbn [snd]. rewrite <- flat_map_concat_map.
    rewrite (Permutation_flat_map _ (py_sort_perm Z.ltb (map fst d))).
    rewrite (flat_map_pointwise_perm _ (fun k => default [] (dict_get k d)))
      by (intros; apply py_sort_perm).
    rewrite flat_map_concat_map, (dict_values_by_key [] d Hnd).
    apply group_by_perm.
  - intros y rows Hin. destruct (year_file_rows txs y rows Hin) as (vs & Hne & Evs & ->).
    split; [| split].
    + intros E. apply Hne. apply Permutation_nil. rewrite <- E. apply py_sort_perm.
    + intros tx. rewrite py_sort_In, Evs, !filter_In.
      unfold YearlyFiles.has_tidspunkt, YearlyFiles.tidspunkt_year.
      rewrite bool_decide_eq_true. split.
      * intros [[Htx Hts] Hy]. split; [exact Htx |].
        destruct (tidspunkt tx) as [dt |]; [eauto | discriminate].
      * intros [Htx (dt & Edt & Hy)]. rewrite Edt. auto.
    + apply tidspunkt_sorted. rewrite Evs. apply List.Forall_forall. intros tx Htx.
      apply filter_In in Htx as [Htx _]. now apply filter_In in Htx.
Qed.

(** ** What the classifier knows *)

Section ClassifierFacts.

Import OperationMapper.

Lemma dict_get_In {K V : Type} `{EqDecision K} (k : K) (v : V) (d : list (K * V)) :
  dict_get k d = Some v -> In k (map fst d).
Proof.
  induction d as [| [k' w] d IH]; cbn; [discriminate |].
  destruct (decide (k = k')) as [-> | _]; [now left | intros H; right; auto].
Qed.

(** No label of the table starts with one of the three prefixes the
    classifier matches. *)
Lemma mapping_has_no_pattern (op : string) :
  startswith op "Add liquidity " || startswith op "Remove liquidity "
  || startswith op "Liquidity mining reward " = true ->
  dict_get op OPERATION_MAPPING = None.
Proof.
  intros H. destruct (dict_get op OPERATION_MAPPING) as [t |] eqn:E; [| reflexivity].
  apply dict_get_In in E. exfalso.
  assert (Hkeys : forallb (fun k => negb (startswith k "Add liquidity "
                                          || startswith k "Remove liquidity "
                                          || startswith k "Liquidity mining reward "))
                          (map fst OPERATION_MAPPING) = true) by (vm_compute; reflexivity).
  rewrite forallb_forall in Hkeys. specialize (Hkeys op E). now rewrite H in Hkeys.
Qed.

Lemma reward_pattern_only (op : string) :
  startswith op "Liquidity mining reward " = true ->
  startswith op "Add liquidity " || startswith op "Remove liquidity " = false.
Proof.
  unfold startswith. destruct op as [| c op]; cbn [String.prefix]; [discriminate |].
  destruct (Ascii.ascii_dec "L" c) as [<- | _]; [| discriminate].
  intros _.
  destruct (Ascii.ascii_dec "A" "L") as [E | _]; [discriminate E |].
  destruct (Ascii.ascii_dec "R" "L") as [E | _]; [discriminate E |].
  reflexivity.
Qed.

Lemma pattern_not_entry (op : string) :
  startswith op "Add liquidity " || startswith op "Remove liquidity "
  || startswith op "Liquidity mining reward " = true ->
  op <> "Entry staking wallet".
Proof. intros H ->. vm_compute in H. discriminate. Qed.

Lemma requires_grouping_known (op : string) (a : option Decimal) :
  requires_grouping op = true -> get_transaction_type op a <> None.
Proof.
  unfold requires_grouping. intros H.
  apply orb_true_iff in H as [H | H]; [apply orb_true_iff in H as [H | H] |].
  - apply bool_decide_eq_true, list_elem_of_In in H. cbn in H.
    destruct H as [<- | [<- | [<- | [<- | [<- | [<- | []]]]]]]; vm_compute; discriminate.
  - assert (Hp : startswith op "Add liquidity " || startswith op "Remove liquidity "
                 || startswith op "Liquidity mining reward " = true) by now rewrite H.
    unfold get_transaction_type.
    destruct (decide (op = "Entry staking wallet")) as [E | _];
      [now apply pattern_not_entry in Hp |].
    rewrite (mapping_has_no_pattern op Hp), H. discriminate.
  - assert (Hp : startswith op "Add liquidity " || startswith op "Remove liquidity "
                 || startswith op "Liquidity mining reward " = true)
      by (rewrite H; now rewrite orb_true_r).
    unfold get_transaction_type.
    destruct (decide (op = "Entry staking wallet")) as [E | _];
      [now apply pattern_not_entry in Hp |].
    rewrite (mapping_has_no_pattern op Hp), H, orb_true_r. discriminate.
Qed.

End ClassifierFacts.

(** X19.  Every label that requires grouping is known to the classifier,
    whatever the amount.  A label that starts with "Add liquidity " or
    "Remove liquidity " is a trade and requires grouping, and one that
    starts with "Liquidity mining reward " is income, whatever the amount:
    no entry of the table shadows these patterns.  An event that is to be
    skipped is classified as a transfer out and is never income. *)
Theorem classifier_knows_grouped_labels :
  (forall op a,
      OperationMapper.requires_grouping op = true ->
      exists t, OperationMapper.get_transaction_type op a = Some t)
  /\ (forall op a,
         startswith op "Add liquidity " = true \/ startswith op "Remove liquidity " = true ->
         OperationMapper.get_transaction_type op a = Some HANDEL
         /\ OperationMapper.requires_grouping op = true
         /\ OperationMapper.is_trade_operation op = true)
  /\ (forall op a,
         startswith op "Liquidity mining reward " = true ->
         OperationMapper.get_transaction_type op a = Some INNTEKT
         /\ OperationMapper.is_income_operation op a = true)
  /\ (forall op a,
         OperationMapper.should_skip_transaction op a = true ->
         OperationMapper.get_transaction_type op a = Some OVERFORING_UT
         /\ OperationMapper.is_income_operation op a = false).
Proof.
  split; [| split; [| split]].
  - intros op a H. pose proof (requires_grouping_known op a H) as Hk.
    destruct (OperationMapper.get_transaction_type op a) as [t |]; [eauto | contradiction].
  - intros op a H.
    assert (Hor : startswith op "Add liquidity " || startswith op "Remove liquidity " = true)
      by (destruct H as [-> | ->]; [reflexivity | apply orb_true_r]).
    assert (Hp : startswith op "Add liquidity " || startswith op "Remove liquidity "
                 || startswith op "Liquidity mining reward " = true) by now rewrite Hor.
    assert (Ht : forall b, OperationMapper.get_transaction_type op b = Some HANDEL).
    { intros b. unfold OperationMapper.get_transaction_type.
      destruct (decide (op = "Entry staking wallet")) as [E | _];
        [now apply pattern_not_entry in Hp |].
      now rewrite (mapping_has_no_pattern op Hp), Hor. }
    split; [apply Ht |]. split.
    + unfold OperationMapper.requires_grouping. rewrite <- orb_assoc, Hor. apply orb_true_r.
    + unfold OperationMapper.is_trade_operation. now rewrite Ht.
  - intros op a H.
    assert (Hp : startswith op "Add liquidity " || startswith op "Remove liquidity "
                 || startswith op "Liquidity mining reward " = true)
      by (rewrite H; apply orb_true_r).
    assert (Ht : OperationMapper.get_transaction_type op a = Some INNTEKT).
    { unfold OperationMapper.get_transaction_type.
      destruct (decide (op = "Entry staking wallet")) as [E | _];
        [now apply pattern_not_entry in Hp |].
      now rewrite (mapping_has_no_pattern op Hp), (reward_pattern_only op H), H. }
    split; [exact Ht |]. unfold OperationMapper.is_income_operation. now rewrite Ht.
  - intros op a H. unfold OperationMapper.should_skip_transaction in H.
    destruct a as [a |]; [| discriminate].
    apply andb_true_iff in H as [Hop Hneg]. apply bool_decide_eq_true in Hop. subst op.
    assert (Ht : OperationMapper.get_transaction_type "Entry staking wallet" (Some a)
                 = Some OVERFORING_UT)
      by (rewrite entry_staking_wallet_type; now rewrite Hneg).
    split; [exact Ht |]. unfold OperationMapper.is_income_operation. now rewrite Ht.
Qed.

(** ** When the conversion of a group fails *)

Section ConversionSucceeds.

Import OperationMapper TransactionGrouper.

Variable cache : gmap Z Decimal.







End ConversionSucceeds.



(** ** What the netting of a swap group removes *)

Section SwapNetting.

Import TransactionGrouper.

Lemma dict_pop_filter {V : Type} (k : string) (d : list (string * V)) :
  List.NoDup (map fst d) ->
  dict_pop k d = List.filter (fun kv => negb (bool_decide (fst kv = k))) d.
Proof.
  induction d as [| [k' v] d IH]; cbn; [reflexivity |].
  intros Hd. inversion Hd as [| ? ? Hnin Hd']; subst.
  destruct (decide (k = k')) as [<- | Hk].
  - rewrite bool_decide_eq_true_2 by reflexivity. cbn. symmetry. apply filter_all.
    apply List.Forall_forall. intros [k2 v2] Hin. cbn.
    apply negb_true_iff, bool_decide_eq_false. intros ->.
    apply Hnin. apply in_map_iff. exists (k, v2). now split.
  - rewrite bool_decide_eq_false_2 by congruence. cbn. now rewrite IH.
Qed.

Lemma dict_get_filter {V : Type} (P : string -> bool) (c : string) (d : list (string * V)) :
  dict_get c (List.filter (fun kv => P (fst kv)) d) = if P c then dict_get c d else None.
Proof.
  induction d as [| [k v] d IH]; cbn; [now destruct (P c) |].
  destruct (P k) eqn:Ek; cbn; destruct (decide (c = k)) as [-> | Hc]; rewrite ?IH, ?Ek;
    reflexivity.
Qed.

Lemma filter_filter {A : Type} (P Q R : A -> bool) (l : list A) :
  (forall x, In x l -> R x = P x && Q x) ->
  List.filter P (List.filter Q l) = List.filter R l.
Proof.
  induction l as [| x l IH]; cbn; [reflexivity |]. intros H.
  rewrite (H x (or_introl eq_refl)).
  destruct (Q x); cbn; [destruct (P x) |]; rewrite ?andb_false_r;
    rewrite IH by (intros y Hy; apply H; now right); reflexivity.
Qed.

Lemma default_accumulated (l : list Decimal) : default Dzero (accumulated l) = Dsum l.
Proof. destruct l; reflexivity. Qed.

Lemma without_netted_get {V : Type} txs done c (d : list (string * V)) :
  c ∉ done -> dict_get c (without_netted txs done d) = dict_get c d.
Proof.
  intros Hc. unfold without_netted.
  pose proof (dict_get_filter (fun k => negb (netted txs k && bool_decide (k ∈ done))) c d)
    as E.
  cbv beta in E. rewrite E.
  rewrite (bool_decide_eq_false_2 _ Hc). now rewrite andb_false_r.
Qed.

Lemma without_netted_step {V : Type} txs done k (d : list (string * V)) :
  List.NoDup (map fst d) ->
  without_netted txs (k :: done) d
  = if netted txs k then dict_pop k (without_netted txs done d)
    else without_netted txs done d.
Proof.
  intros Hd. destruct (netted txs k) eqn:Ek.
  - rewrite dict_pop_filter by (apply NoDup_map_filter, Hd).
    unfold without_netted. symmetry. apply filter_filter. intros [c v] _. cbn [fst].
    destruct (decide (c = k)) as [-> | Hc].
    + rewrite Ek, (bool_decide_eq_true_2 (k = k)) by reflexivity.
      rewrite (bool_decide_eq_true_2 (k ∈ k :: done)) by (apply elem_of_cons; now left).
      reflexivity.
    + rewrite (bool_decide_eq_false_2 (c = k)) by exact Hc. cbn [negb andb].
      f_equal. f_equal. apply bool_decide_ext. rewrite elem_of_cons. intuition congruence.
  - unfold without_netted. apply filter_ext. intros [c v]. cbn [fst].
    destruct (decide (c = k)) as [-> | Hc]; [now rewrite Ek |].
    f_equal. f_equal. apply bool_decide_ext. rewrite elem_of_cons. intuition congruence.
Qed.

(** One round of the netting loop, on a currency that has incoming legs
    and was not yet visited. *)
Lemma net_out_netted txs done k :
  let f0 := fold_left categorize txs (mkFlows [] [] [] None) in
  k ∉ done -> In k (map fst (incoming_txs f0)) ->
  net_out (mkFlows (without_netted txs done (incoming_txs f0))
                   (without_netted txs done (outgoing_txs f0))
                   (without_netted txs done (fee_txs f0))
                   (conversion_op_str f0)) k
  = mkFlows (without_netted txs (k :: done) (incoming_txs f0))
            (without_netted txs (k :: done) (outgoing_txs f0))
            (without_netted txs (k :: done) (fee_txs f0))
            (conversion_op_str f0).
Proof.
  intros f0 Hk Hin.
  destruct (categorize_all_ok txs) as (Ni & No & Nf & Hget). fold f0 in Ni, No, Nf, Hget.
  destruct (Hget k) as (Ei & Eo & Ef).
  rewrite !without_netted_step by assumption.
  unfold net_out, dict_mem. cbn [incoming_txs outgoing_txs fee_txs conversion_op_str].
  rewrite !without_netted_get by exact Hk. rewrite Ei, Eo, Ef, !default_accumulated.
  assert (Hinn : accumulated (map amount (List.filter (incoming_leg k) txs)) <> None).
  { rewrite <- Ei. intros E. now apply dict_get_None in E. }
  unfold netted.
  destruct (map amount (List.filter (incoming_leg k) txs)) as [| i inn]; [now cbn in Hinn |].
  set (out := map (fun tx => Dabs (amount tx)) (List.filter (outgoing_leg k) txs)).
  set (fee := map (fun tx => Dabs (amount tx)) (List.filter (fee_leg k) txs)).
  destruct out as [| o out]; destruct fee as [| e fee]; cbn [accumulated orb andb];
    try reflexivity;
    destruct (Dltb _ _); reflexivity.
Qed.

Lemma net_out_all txs ks done :
  let f0 := fold_left categorize txs (mkFlows [] [] [] None) in
  List.NoDup ks -> (forall k, In k ks -> k ∉ done) ->
  (forall k, In k ks -> In k (map fst (incoming_txs f0))) ->
  fold_left net_out ks
            (mkFlows (without_netted txs done (incoming_txs f0))
                     (without_netted txs done (outgoing_txs f0))
                     (without_netted txs done (fee_txs f0))
                     (conversion_op_str f0))
  = mkFlows (without_netted txs (rev ks ++ done) (incoming_txs f0))
            (without_netted txs (rev ks ++ done) (outgoing_txs f0))
            (without_netted txs (rev ks ++ done) (fee_txs f0))
            (conversion_op_str f0).
Proof.
  cbv zeta. revert done. induction ks as [| k ks IH]; intros done Hnd Hdone Hin.
  - reflexivity.
  - cbn [fold_left rev]. inversion Hnd as [| ? ? Hk Hnd']; subst.
    pose proof (net_out_netted txs done k) as Hstep. cbv zeta in Hstep.
    rewrite Hstep by (auto using in_eq).
    rewrite IH; [now rewrite <- app_assoc | exact Hnd' | |].
    + intros k' Hk' Hd. apply elem_of_cons in Hd as [-> | Hd]; [contradiction |].
      apply (Hdone k'); [now right | exact Hd].
    + intros k' Hk'. apply Hin. now right.
Qed.

Lemma without_netted_all {V : Type} txs done (d : list (string * V)) :
  (forall c, netted txs c = true -> c ∈ done) ->
  without_netted txs done d = List.filter (fun kv => negb (netted txs (fst kv))) d.
Proof.
  intros H. unfold without_netted. apply filter_ext. intros [c v]. cbn [fst].
  destruct (netted txs c) eqn:E; [| reflexivity].
  now rewrite (bool_decide_eq_true_2 _ (H c E)).
Qed.

Lemma without_netted_nil {V : Type} txs (d : list (string * V)) :
  without_netted txs [] d = d.
Proof.
  unfold without_netted. apply filter_all, List.Forall_forall. intros [c v] _. cbn [fst].
  rewrite (bool_decide_eq_false_2 (c ∈ [])) by apply not_elem_of_nil.
  now rewrite andb_false_r.
Qed.

End SwapNetting.

(** X21.  The netting loop of the swap conversion removes exactly the
    netted currencies, from all three dictionaries, and keeps the other
    entries in the order the categorising loop found them.  So a currency
    is netted away when the group has incoming legs in it, outgoing or fee
    legs in it, and the two sides differ by less than 1e-9; for every other
    currency the incoming, outgoing and fee entries are the sums of the
    group's legs of that kind, an entry being absent when there is no such
    leg. *)
Theorem swap_netting_exact (txs : list CakeTransaction) :
  let f0 := fold_left TransactionGrouper.categorize txs
                      (TransactionGrouper.mkFlows [] [] [] None) in
  let f := TransactionGrouper.net_flows txs in
  let kept {V : Type} (d : list (string * V)) :=
    List.filter (fun kv => negb (netted txs (fst kv))) d in
  (TransactionGrouper.incoming_txs f = kept (TransactionGrouper.incoming_txs f0)
   /\ TransactionGrouper.outgoing_txs f = kept (TransactionGrouper.outgoing_txs f0)
   /\ TransactionGrouper.fee_txs f = kept (TransactionGrouper.fee_txs f0)
   /\ TransactionGrouper.conversion_op_str f = TransactionGrouper.conversion_op_str f0)
  /\ forall c,
      dict_get c (TransactionGrouper.incoming_txs f)
      = (if netted txs c then None
         else accumulated (map amount (List.filter (incoming_leg c) txs)))
      /\ dict_get c (TransactionGrouper.outgoing_txs f)
         = (if netted txs c then None
            else accumulated (map (fun tx => Dabs (amount tx))
                                  (List.filter (outgoing_leg c) txs)))
      /\ dict_get c (TransactionGrouper.fee_txs f)
         = (if netted txs c then None
            else accumulated (map (fun tx => Dabs (amount tx))
                                  (List.filter (fee_leg c) txs))).
Proof.
  intros f0 f kept.
  destruct (categorize_all_ok txs) as (Ni & No & Nf & Hget). fold f0 in Ni, No, Nf, Hget.
  assert (Hdone : forall c, netted txs c = true
                            -> c ∈ rev (map fst (TransactionGrouper.incoming_txs f0)) ++ []).
  { intros c Hc. rewrite app_nil_r. apply list_elem_of_In, in_rev. rewrite rev_involutive.
    destruct (dict_get c (TransactionGrouper.incoming_txs f0)) as [a |] eqn:E;
      [now apply dict_get_In in E |].
    destruct (Hget c) as (Ei & _). rewrite E in Ei. unfold netted in Hc.
    destruct (map amount (List.filter (incoming_leg c) txs)); discriminate. }
  assert (Ef : f = TransactionGrouper.mkFlows
                     (kept _ (TransactionGrouper.incoming_txs f0))
                     (kept _ (TransactionGrouper.outgoing_txs f0))
                     (kept _ (TransactionGrouper.fee_txs f0))
                     (TransactionGrouper.conversion_op_str f0)).
  { unfold f, TransactionGrouper.net_flows. fold f0.
    pose proof (net_out_all txs (map fst (TransactionGrouper.incoming_txs f0)) []) as H.
    cbv zeta in H. fold f0 in H. rewrite !without_netted_nil in H.
    destruct f0 as [fi fo ff fc] eqn:E0. cbn [TransactionGrouper.incoming_txs
      TransactionGrouper.outgoing_txs TransactionGrouper.fee_txs
      TransactionGrouper.conversion_op_str] in *.
    rewrite H by (auto; intros k _; apply not_elem_of_nil).
    unfold kept. now rewrite !(without_netted_all _ _ _ Hdone). }
  rewrite Ef. cbn [TransactionGrouper.incoming_txs TransactionGrouper.outgoing_txs
                   TransactionGrouper.fee_txs TransactionGrouper.conversion_op_str].
  split; [repeat split |].
  intros c. destruct (Hget c) as (Ei & Eo & Efee). unfold kept.
  pose proof (fun V => @dict_get_filter V (fun k => negb (netted txs k)) c) as E.
  cbv beta in E. rewrite !E, Ei, Eo, Efee.
  now destruct (netted txs c).
Qed.


(** ** The precision check, by value *)

Section PrecisionByValue.

Lemma length_string_of_uint (d : Decimal.uint) :
  String.length (NilEmpty.string_of_uint d) = Decimal.nb_digits d.
Proof.
  induction d; cbn [NilEmpty.string_of_uint String.length Decimal.nb_digits];
    congruence.
Qed.

Lemma of_uint_acc_bounds (l : Decimal.uint) (acc : positive) :
  (Z.pos acc * 10 ^ Z.of_nat (Decimal.nb_digits l) <= Z.pos (Pos.of_uint_acc l acc)
   < (Z.pos acc + 1) * 10 ^ Z.of_nat (Decimal.nb_digits l))%Z.
Proof.
  revert acc.
  induction l as [| l IH | l IH | l IH | l IH | l IH | l IH | l IH | l IH | l IH | l IH];
    intros acc; cbn [Pos.of_uint_acc Decimal.nb_digits];
    [cbn; lia | ..];
    rewrite Nat2Z.inj_succ, Z.pow_succ_r by lia;
    match goal with
    | |- context [Pos.of_uint_acc l ?a] => specialize (IH a)
    end;
    assert (0 < 10 ^ Z.of_nat (Decimal.nb_digits l))%Z by (apply Z.pow_pos_nonneg; lia);
    nia.
Qed.

(** The canonical numeral of a number has no leading zero, unless it is
    the numeral of zero. *)
Lemma to_uint_head (n : N) :
  n <> 0%N ->
  exists (k : positive) (l : Decimal.uint),
    (Z.pos k <= 9)%Z
    /\ Decimal.nb_digits (N.to_uint n) = S (Decimal.nb_digits l)
    /\ n = N.pos (Pos.of_uint_acc l k).
Proof.
  intros Hn.
  pose proof (DecimalN.Unsigned.to_of (N.to_uint n)) as Hnorm.
  pose proof (DecimalN.Unsigned.of_to n) as Hval.
  rewrite Hval in Hnorm.
  destruct (N.to_uint n) as [| l | l | l | l | l | l | l | l | l | l] eqn:E.
  - cbn in Hval. congruence.
  - exfalso. unfold Decimal.unorm in Hnorm. cbn [Decimal.nzhead] in Hnorm.
    pose proof (DecimalFacts.nb_digits_nzhead l) as Hlen.
    destruct (Decimal.nzhead l) as [| u | u | u | u | u | u | u | u | u | u] eqn:Ez;
      try discriminate Hnorm.
    + injection Hnorm as Hl. subst l. cbn in Hval. congruence.
    + injection Hnorm as Hl. subst u. cbn [Decimal.nb_digits] in Hlen. lia.
  - exists 1%positive, l. repeat split; [lia | now rewrite <- Hval].
  - exists 2%positive, l. repeat split; [lia | now rewrite <- Hval].
  - exists 3%positive, l. repeat split; [lia | now rewrite <- Hval].
  - exists 4%positive, l. repeat split; [lia | now rewrite <- Hval].
  - exists 5%positive, l. repeat split; [lia | now rewrite <- Hval].
  - exists 6%positive, l. repeat split; [lia | now rewrite <- Hval].
  - exists 7%positive, l. repeat split; [lia | now rewrite <- Hval].
  - exists 8%positive, l. repeat split; [lia | now rewrite <- Hval].
  - exists 9%positive, l. repeat split; [lia | now rewrite <- Hval].
Qed.

(** A positive number with [L] digits lies between [10 ^ (L - 1)] and
    [10 ^ L]. *)
Lemma digits_bounds (n : N) :
  n <> 0%N ->
  let L := Z.of_nat (String.length (str_of_N n)) in
  (10 ^ (L - 1) <= Z.of_N n < 10 ^ L)%Z.
Proof.
  intros Hn L. subst L. unfold str_of_N. rewrite length_string_of_uint.
  destruct (to_uint_head n Hn) as (k & l & Hk & -> & ->).
  pose proof (of_uint_acc_bounds l k) as [Hlo Hhi].
  rewrite Nat2Z.inj_succ.
  replace (Z.succ (Z.of_nat (Decimal.nb_digits l)) - 1)%Z
    with (Z.of_nat (Decimal.nb_digits l)) by lia.
  rewrite Z.pow_succ_r by lia.
  assert (0 < 10 ^ Z.of_nat (Decimal.nb_digits l))%Z by (apply Z.pow_pos_nonneg; lia).
  cbn [Z.of_N]. nia.
Qed.

Lemma digits_le_iff (n : N) (k : Z) :
  n <> 0%N -> (0 <= k)%Z ->
  (Z.of_nat (String.length (str_of_N n)) <= k)%Z <-> (Z.of_N n < 10 ^ k)%Z.
Proof.
  intros Hn Hk. pose proof (digits_bounds n Hn) as [Hlo Hhi]. cbv zeta in *.
  set (L := Z.of_nat (String.length (str_of_N n))) in *.
  assert (HL : (1 <= L)%Z) by (pose proof (length_str_of_N_pos n); lia).
  split; intros H.
  - eapply Z.lt_le_trans; [exact Hhi |]. apply Z.pow_le_mono_r; lia.
  - destruct (Z.le_gt_cases L k) as [| Hgt]; [assumption | exfalso].
    assert (10 ^ k <= 10 ^ (L - 1))%Z by (apply Z.pow_le_mono_r; lia). lia.
Qed.

End PrecisionByValue.

(** X22.  The precision check by value.  An amount with a non-zero
    coefficient passes exactly when its exponent is at least -18 and its
    absolute value is below 10^18; a zero passes exactly when its exponent
    lies between -18 and 17.  The check reads the representation, not only
    the value: 1 passes, and the equal amount written with nineteen
    decimal places does not. *)
Theorem precision_check_by_value :
  (forall amount,
      is_valid_decimal_precision amount
      = (-18 <=? dexp amount)
        && (if coef amount =? 0 then dexp amount <=? 17
            else Dltb (Dabs amount) (mkDec 1 18)))
  /\ (is_valid_decimal_precision (mkDec 1 0) = true
      /\ is_valid_decimal_precision (mkDec (10 ^ 19) (-19)) = false
      /\ Deqb (mkDec 1 0) (mkDec (10 ^ 19) (-19)) = true).
Proof.
  split; [| repeat split; vm_compute; reflexivity].
  intros [c e]. unfold is_valid_decimal_precision, MAX_DECIMAL_INTEGER_DIGITS,
                  MAX_DECIMAL_PLACES. cbn [coef dexp].
  destruct (Z.eqb_spec c 0) as [-> | Hc].
  - change (String.length (str_of_N (Z.abs_N 0))) with 1%nat.
    destruct (Z.ltb_spec e 0), (Z.leb_spec 0 e), (Z.leb_spec (-18) e), (Z.leb_spec e 17);
      try lia; cbn [andb];
      repeat match goal with
             | |- context [(?a <=? ?b)%Z] => destruct (Z.leb_spec a b)
             end; try reflexivity; lia.
  - assert (Hn : Z.abs_N c <> 0%N) by lia.
    pose proof (length_str_of_N_pos (Z.abs_N c)) as Hpos.
    set (L := Z.of_nat (String.length (str_of_N (Z.abs_N c)))) in *.
    assert (Hlt : Dltb (Dabs (mkDec c e)) (mkDec 1 18)
                  = (e <=? 18) && (L <=? 18 - e)).
    { unfold Dltb, Dcompare, align, Dabs. cbn [coef dexp].
      destruct (Z.leb_spec e 18) as [He | He]; cbn [andb].
      - rewrite Z.min_l by lia. rewrite Z.sub_diag, Z.mul_1_r, Z.mul_1_l.
        pose proof (digits_le_iff (Z.abs_N c) (18 - e) Hn ltac:(lia)) as Hiff.
        fold L in Hiff. rewrite N2Z.inj_abs_N in Hiff.
        destruct (Z.leb_spec L (18 - e)) as [Hle | Hgt].
        + apply Hiff in Hle. now apply Z.compare_lt_iff in Hle as ->.
        + destruct (Z.compare_spec (Z.abs c) (10 ^ (18 - e))) as [| Hlt |];
            try reflexivity.
          apply Hiff in Hlt. lia.
      - rewrite Z.min_r by lia. rewrite Z.sub_diag, Z.mul_1_l.
        assert (0 < 10 ^ (e - 18))%Z by (apply Z.pow_pos_nonneg; lia).
        destruct (Z.compare_spec (Z.abs c * 10 ^ (e - 18)) (10 ^ 0));
          try reflexivity. cbn in *. nia. }
    rewrite Hlt.
    destruct (Z.ltb_spec e 0), (Z.leb_spec 0 e); try lia;
      repeat match goal with
             | |- context [(?a <=? ?b)%Z] => destruct (Z.leb_spec a b)
             end; cbn [andb]; try reflexivity; lia.
Qed.

(** ** Swap groups by group id *)

Section SwapGroupsById.

Import OperationMapper TransactionGrouper.

Lemma dict_get_entry {K V : Type} `{EqDecision K} (k : K) (v : V) (d : list (K * V)) :
  dict_get k d = Some v -> In (k, v) d.
Proof.
  induction d as [| [k' w] d IH]; cbn; [discriminate |].
  destruct (decide (k = k')) as [-> | _]; [intros [= ->]; now left | auto].
Qed.

(** Under a non-empty id, the events filed are the events that carry it
    and require grouping. *)
Lemma filed_by_id txs ref_id :
  ref_id <> "" ->
  List.filter (fun x => bool_decide (default "" (related_reference_id x) = ref_id))
              (List.filter goes_to_initial_group txs)
  = swap_members txs ref_id.
Proof.
  intros Hid. unfold swap_members.
  apply filter_filter. intros x _. unfold goes_to_initial_group, str_truthy.
  destruct (related_reference_id x) as [r |]; cbn [default from_option]; unfold Datatypes.id.
  - destruct (decide (r = "")) as [-> | Hr].
    + rewrite !bool_decide_eq_false_2 by congruence. reflexivity.
    + destruct (decide (r = ref_id)) as [-> | Hne].
      * rewrite !bool_decide_eq_true_2 by reflexivity. reflexivity.
      * rewrite !bool_decide_eq_false_2 by congruence. reflexivity.
  - rewrite (bool_decide_eq_false_2 (None = Some ref_id)) by discriminate.
    now rewrite andb_false_r.
Qed.

Lemma filed_key_nonempty txs k l :
  In (k, l) (group_by (fun tx => default "" (related_reference_id tx))
                      (List.filter goes_to_initial_group txs)) ->
  (1 < length l)%nat -> k <> "".
Proof.
  intros Hkl Hlen. apply group_by_entry in Hkl. subst l.
  destruct (List.filter _ _) as [| m ms] eqn:E; [cbn in Hlen; lia |].
  assert (Hm : In m (m :: ms)) by now left. rewrite <- E in Hm.
  apply filter_In in Hm as [Hm Hk]. apply bool_decide_eq_true in Hk.
  apply filter_In in Hm as [_ Hgo]. unfold goes_to_initial_group in Hgo.
  destruct (str_truthy (related_reference_id m)) as [r |] eqn:Er; [| discriminate].
  apply str_truthy_Some in Er as [Er Hr]. rewrite Er in Hk. cbn in Hk. congruence.
Qed.

Lemma big_groups_ids {A : Type} (mk : string -> list A -> TransactionGroup)
      (d : list (string * list A)) :
  (forall k l, reference_id (mk k l) = Some k) ->
  List.NoDup (map fst d) ->
  List.NoDup (map reference_id
                  (flat_map (fun '(k, l) => if (1 <? length l)%nat then [mk k l] else [])
                            d)).
Proof.
  intros Hmk. induction d as [| [k l] d IH]; cbn [flat_map map fst]; [constructor |].
  intros Hd. inversion Hd as [| ? ? Hnin Hd']; subst.
  destruct (1 <? length l)%nat; [| now apply IH].
  cbn [app map]. constructor; [| now apply IH].
  rewrite Hmk. intros Hin. apply Hnin.
  apply in_map_iff in Hin as [g [Eg Hg]].
  apply in_flat_map in Hg as [[k' l'] [Hkl Hg]].
  destruct (1 <? length l')%nat; [| contradiction].
  destruct Hg as [<- | []]. rewrite Hmk in Eg. injection Eg as ->.
  apply in_map_iff. exists (k, l'). now split.
Qed.

End SwapGroupsById.

(** X23.  [_group_swap_transactions] builds one group for every non-empty
    group id that at least two events carry with a label that requires
    grouping, and no other group: the group's reference id is that id, its
    type is "swap", and its members are exactly those events, in time
    order.  No two groups share a reference id. *)
Theorem swap_groups_by_id (txs : list CakeTransaction) :
  (forall g,
      In g (_group_swap_transactions txs) ->
      exists id,
        id <> "" /\ reference_id g = Some id /\ group_type g = "swap"
        /\ transactions g = sort_by_date (swap_members txs id)
        /\ (1 < length (swap_members txs id))%nat)
  /\ (forall id,
         id <> "" -> (1 < length (swap_members txs id))%nat ->
         In (mkGroup (sort_by_date (swap_members txs id)) "swap" (Some id))
            (_group_swap_transactions txs))
  /\ List.NoDup (map reference_id (_group_swap_transactions txs)).
Proof.
  split; [| split].
  - intros g Hg. unfold _group_swap_transactions in Hg.
    apply in_flat_map in Hg as [[k l] [Hkl Hg]].
    destruct (Nat.ltb_spec 1 (length l)) as [Hlen |]; [| contradiction].
    destruct Hg as [<- | []].
    pose proof (filed_key_nonempty txs k l Hkl Hlen) as Hk.
    apply group_by_entry in Hkl. rewrite (filed_by_id txs k Hk) in Hkl. subst l.
    exists k. now repeat split.
  - intros id Hid Hlen. unfold _group_swap_transactions.
    apply in_flat_map. exists (id, swap_members txs id). split.
    + apply dict_get_entry. rewrite group_by_get, (filed_by_id txs id Hid).
      destruct (swap_members txs id); [cbn in Hlen; lia | reflexivity].
    + destruct (Nat.ltb_spec 1 (length (swap_members txs id))); [now left | lia].
  - unfold _group_swap_transactions.
    apply (big_groups_ids (fun k l => mkGroup (sort_by_date l) "swap" (Some k)));
      [reflexivity | apply group_by_NoDup].
Qed.

(** ** The income the output reports *)

Section IncomeTotals.

Import OperationMapper TransactionGrouper.

Variable cache : gmap Z Decimal.

















(** *** A measure of income, on events and on rows

    What follows holds for any way of measuring the income of an event and
    of a row, as long as the two agree on a standalone event and on a
    rewards group of events that are [good]. *)

Section Measure.

Variable row_measure : KryptosekkenTransaction -> Q.
Variable event_measure : CakeTransaction -> Q.
Variable good : CakeTransaction -> Prop.

Hypothesis other_rows : forall r, type r <> "Inntekt" -> row_measure r = 0%Q.
Hypothesis other_events : forall m, is_income m = false -> (event_measure m == 0)%Q.
Hypothesis numbered :
  forall z a, event_measure (set_original_index z a) = event_measure a.
Hypothesis single_measure :
  forall tx,
    (Qsum (map row_measure (default [] (_convert_single_transaction cache tx)))
     == event_measure tx)%Q.
Hypothesis rewards_measure :
  forall g coin,
    group_type g = "daily_rewards" -> transactions g <> [] ->
    (forall m, In m (transactions g) ->
               is_income m = true /\ coin_asset m = coin /\ good m) ->
    (Qsum (map row_measure (default [] (convert_group_to_kryptosekken cache g)))
     == Qsum (map event_measure (transactions g)))%Q.








End Measure.

(** *** The incoming amounts *)

Lemma reported_income_app c l1 l2 :
  (reported_income c (l1 ++ l2) == reported_income c l1 + reported_income c l2)%Q.
Proof. unfold reported_income. now rewrite List.map_app, Qsum_app. Qed.







(** *** The NOK values of the notes *)





End IncomeTotals.




